(** * VoiceCraft first-run installer: a shallow embedding of [SetupManager]

    The development follows the R2 archive installer (the [SetupManager]
    class with [fetchManifest], [downloadFileWithResume], [verifyChecksum],
    [extractZip], [downloadAndInstallArchive], [runSetup], [isSetupComplete]
    and [checkSystem]), the launch gate [needsSetup] of [electron/main.js]
    and the older [checkSystem] of [electron/setup.js].

    Conventions of the embedding:
    - a file, an HTTP body and a chunk are [string]s (one [ascii] per byte);
    - the file system is a finite map from path to content;
    - a JavaScript number is an integer ([Z]) or a rational ([Q]) computed
      exactly; where [parseInt] can give [NaN] the value is an [option];
    - a promise is a function of the world returning an [outcome]:
      resolved, rejected with an error, or never settled;
    - everything the host decides (network answers, child processes,
      [path.join], [JSON.parse], the clock) is a field of a [Host] record. *)

From Stdlib Require Import ZArith QArith Qround Lia List Bool Ascii String Sorted.
From stdpp Require Import gmap strings.
Import ListNotations.

Local Open Scope string_scope.
Local Open Scope Z_scope.

(** ** SHA-256 ([crypto.createHash('sha256')], FIPS 180-4) on 32-bit words
    kept in [Z]. *)

Module Sha256.

Definition mask32 : Z := 0xFFFFFFFF.
Definition w32 (x : Z) : Z := Z.land x mask32.
Definition add32 (x y : Z) : Z := w32 (x + y).
Definition not32 (x : Z) : Z := Z.lxor x mask32.
Definition rotr (n x : Z) : Z :=
  Z.lor (Z.shiftr x n) (w32 (Z.shiftl x (32 - n))).

Definition Ch (x y z : Z) : Z := Z.lxor (Z.land x y) (Z.land (not32 x) z).
Definition Maj (x y z : Z) : Z :=
  Z.lxor (Z.lxor (Z.land x y) (Z.land x z)) (Z.land y z).
Definition Sigma0 (x : Z) : Z := Z.lxor (Z.lxor (rotr 2 x) (rotr 13 x)) (rotr 22 x).
Definition Sigma1 (x : Z) : Z := Z.lxor (Z.lxor (rotr 6 x) (rotr 11 x)) (rotr 25 x).
Definition sigma0 (x : Z) : Z := Z.lxor (Z.lxor (rotr 7 x) (rotr 18 x)) (Z.shiftr x 3).
Definition sigma1 (x : Z) : Z := Z.lxor (Z.lxor (rotr 17 x) (rotr 19 x)) (Z.shiftr x 10).

(** The round constants are the first 32 bits of the fractional parts of
    the cube roots of the first 64 primes, the initial chaining value those
    of the square roots of the first 8 primes; both are computed here. *)
Definition is_prime (n : Z) : bool :=
  List.forallb (fun d => negb (n mod d =? 0) || (n <=? d))
               (List.map Z.of_nat (List.seq 2 18)).

Definition primes : list Z :=
  List.filter is_prime (List.map Z.of_nat (List.seq 2 310)).

(** Greatest [r] below [2 ^ bits] with [r ^ 3 <= n], bit by bit from the top. *)
Fixpoint cube_root_bits (bits : nat) (n r : Z) : Z :=
  match bits with
  | O => r
  | S b =>
      let r' := r + 2 ^ Z.of_nat b in
      cube_root_bits b n (if r' * r' * r' <=? n then r' else r)
  end.

Definition frac_cube_root (p : Z) : Z := w32 (cube_root_bits 40 (p * 2 ^ 96) 0).
Definition frac_square_root (p : Z) : Z := w32 (Z.sqrt (p * 2 ^ 64)).

Definition K : list Z := Eval vm_compute in List.map frac_cube_root primes.

(** The eight working variables / the chaining value. *)
Record hstate : Type := HState {
  ha : Z; hb : Z; hc : Z; hd : Z; he : Z; hf : Z; hg : Z; hh : Z }.

Definition H0 : hstate :=
  Eval vm_compute in
  let r i := frac_square_root (List.nth i primes 0) in
  HState (r 0%nat) (r 1%nat) (r 2%nat) (r 3%nat) (r 4%nat) (r 5%nat) (r 6%nat) (r 7%nat).

Definition bytes_of_string (s : string) : list Z :=
  List.map (fun c => Z.of_N (N_of_ascii c)) (list_ascii_of_string s).

(** Big-endian bytes of [x], [n] of them. *)
Fixpoint be_bytes (n : nat) (x : Z) : list Z :=
  match n with
  | O => []
  | S n' => be_bytes n' (Z.shiftr x 8) ++ [Z.land x 0xFF]
  end.

(** Padding: 0x80, zeros up to 56 mod 64, then the bit length on 64 bits. *)
Definition pad (msg : list Z) : list Z :=
  let len := Z.of_nat (List.length msg) in
  let zeros := Z.to_nat ((55 - len) mod 64) in
  msg ++ [0x80] ++ List.repeat 0 zeros ++ be_bytes 8 (8 * len).

Fixpoint words (fuel : nat) (bs : list Z) : list Z :=
  match fuel, bs with
  | S fuel', b0 :: b1 :: b2 :: b3 :: rest =>
      Z.lor (Z.shiftl b0 24) (Z.lor (Z.shiftl b1 16) (Z.lor (Z.shiftl b2 8) b3))
        :: words fuel' rest
  | _, _ => []
  end.

(** Message schedule; [w] holds the words computed so far, newest first. *)
Fixpoint schedule (n : nat) (w : list Z) : list Z :=
  match n with
  | O => List.rev w
  | S n' =>
      let wt := add32 (add32 (sigma1 (List.nth 1 w 0)) (List.nth 6 w 0))
                      (add32 (sigma0 (List.nth 14 w 0)) (List.nth 15 w 0)) in
      schedule n' (wt :: w)
  end.

Definition round (s : hstate) (kw : Z * Z) : hstate :=
  let t1 := add32 (add32 (add32 (hh s) (Sigma1 (he s)))
                         (add32 (Ch (he s) (hf s) (hg s)) (fst kw))) (snd kw) in
  let t2 := add32 (Sigma0 (ha s)) (Maj (ha s) (hb s) (hc s)) in
  HState (add32 t1 t2) (ha s) (hb s) (hc s) (add32 (hd s) t1) (he s) (hf s) (hg s).

Definition compress (h : hstate) (block : list Z) : hstate :=
  let w := schedule 48 (List.rev block) in
  let s := List.fold_left round (List.combine K w) h in
  HState (add32 (ha h) (ha s)) (add32 (hb h) (hb s)) (add32 (hc h) (hc s))
         (add32 (hd h) (hd s)) (add32 (he h) (he s)) (add32 (hf h) (hf s))
         (add32 (hg h) (hg s)) (add32 (hh h) (hh s)).

Fixpoint blocks (fuel : nat) (ws : list Z) (h : hstate) : hstate :=
  match fuel, ws with
  | S fuel', _ :: _ => blocks fuel' (List.skipn 16 ws) (compress h (List.firstn 16 ws))
  | _, _ => h
  end.

Definition hexdigit (d : Z) : ascii :=
  if d <? 10 then ascii_of_N (Z.to_N (48 + d)) else ascii_of_N (Z.to_N (87 + d)).

(** Eight lowercase hexadecimal digits of a 32-bit word. *)
Definition hex8 (x : Z) : string :=
  String (hexdigit (Z.land (Z.shiftr x 28) 15))
 (String (hexdigit (Z.land (Z.shiftr x 24) 15))
 (String (hexdigit (Z.land (Z.shiftr x 20) 15))
 (String (hexdigit (Z.land (Z.shiftr x 16) 15))
 (String (hexdigit (Z.land (Z.shiftr x 12) 15))
 (String (hexdigit (Z.land (Z.shiftr x 8) 15))
 (String (hexdigit (Z.land (Z.shiftr x 4) 15))
 (String (hexdigit (Z.land x 15)) EmptyString))))))).

Definition hex_of_state (h : hstate) : string :=
  hex8 (ha h) ++ hex8 (hb h) ++ hex8 (hc h) ++ hex8 (hd h) ++
  hex8 (he h) ++ hex8 (hf h) ++ hex8 (hg h) ++ hex8 (hh h).

Definition digest (s : string) : hstate :=
  let bs := pad (bytes_of_string s) in
  let ws := words (List.length bs) bs in
  blocks (List.length ws) ws H0.

(** [hash.update(content); hash.digest('hex')]. *)
Definition hex (s : string) : string := hex_of_state (digest s).

End Sha256.

(** ** JavaScript library functions used by the installer *)

Module Js.

(** [Math.round]: the nearest integer, halves rounded up. *)
Definition Math_round (q : Q) : Z := Qfloor (q + (1 # 2)).

(** The integer [n] that [Number.prototype.toFixed(f)] prints with [f]
    fractional digits: [n / 10^f] is nearest to the number, ties going to
    the larger magnitude.  [scale] is [10^f]. *)
Definition toFixed_int (scale : Z) (q : Q) : Z :=
  if Qle_bool 0 q then Qfloor (q * inject_Z scale + (1 # 2))
  else - Qfloor (- q * inject_Z scale + (1 # 2)).

Fixpoint show_pos_fuel (fuel : nat) (n : Z) (acc : string) : string :=
  match fuel with
  | O => acc
  | S fuel' =>
      let acc' := String (ascii_of_N (Z.to_N (48 + n mod 10))) acc in
      if n <? 10 then acc' else show_pos_fuel fuel' (n / 10) acc'
  end.

(** Decimal text of an integer, as string interpolation prints it. *)
Definition show_Z (n : Z) : string :=
  if n <? 0 then String "-" (show_pos_fuel (S (Z.to_nat (Z.log2 (- n)))) (- n) "")
  else show_pos_fuel (S (Z.to_nat (Z.log2 n))) n "".

(** Text of [x.toFixed(1)] from its number of tenths. *)
Definition show_fixed1 (tenths : Z) : string :=
  (if tenths <? 0 then "-" else "") ++
  show_Z (Z.abs tenths / 10) ++ "." ++ show_Z (Z.abs tenths mod 10).

Definition is_ws (c : ascii) : bool :=
  let n := N_of_ascii c in
  ((9 <=? n) && (n <=? 13) || (n =? 32))%N.

Fixpoint trimStart (s : string) : string :=
  match s with
  | String c r => if is_ws c then trimStart r else s
  | EmptyString => EmptyString
  end.

Fixpoint trimEnd (s : string) : string :=
  match s with
  | String c r =>
      match trimEnd r with
      | EmptyString => if is_ws c then EmptyString else String c EmptyString
      | r' => String c r'
      end
  | EmptyString => EmptyString
  end.

(** [s.trim()], for the white space of the ASCII range. *)
Definition trim (s : string) : string := trimEnd (trimStart s).

(** [s.split(sep)] for a one-character separator. *)
Fixpoint split (sep : ascii) (s : string) : list string :=
  match s with
  | EmptyString => [EmptyString]
  | String c r =>
      if Ascii.eqb c sep then EmptyString :: split sep r
      else match split sep r with
           | x :: xs => String c x :: xs
           | [] => [String c EmptyString]
           end
  end.

Definition newline : ascii := ascii_of_N 10.

Fixpoint startsWith (p s : string) : bool :=
  match p, s with
  | EmptyString, _ => true
  | String a p', String b s' => Ascii.eqb a b && startsWith p' s'
  | String _ _, EmptyString => false
  end.

Fixpoint includes (p s : string) : bool :=
  startsWith p s ||
  match s with
  | String _ r => includes p r
  | EmptyString => false
  end.

Fixpoint drop (n : nat) (s : string) : string :=
  match n, s with
  | S n', String _ r => drop n' r
  | _, _ => s
  end.

(** [s.replace(p, r)] with a string pattern and a replacement without [$]:
    the first occurrence only. *)
Fixpoint replace (p r s : string) : string :=
  if startsWith p s then r ++ drop (String.length p) s
  else match s with
       | String c s' => String c (replace p r s')
       | EmptyString => EmptyString
       end.

(** [s.replace(/-/g, ' ')]. *)
Fixpoint dashes_to_spaces (s : string) : string :=
  match s with
  | String c r => String (if Ascii.eqb c "-" then " "%char else c) (dashes_to_spaces r)
  | EmptyString => EmptyString
  end.

(** What [data += chunk] over all chunks, or a stream piped to a file, adds up to. *)
Definition join_chunks (cs : list string) : string := List.fold_right String.append "" cs.

(** [s.slice(0, n)]. *)
Definition slice0 (n : nat) (s : string) : string := String.substring 0 n s.

Definition digit_of (radix : Z) (c : ascii) : option Z :=
  let n := Z.of_N (N_of_ascii c) in
  let d := if (48 <=? n) && (n <=? 57) then n - 48
           else if (97 <=? n) && (n <=? 122) then n - 87
           else if (65 <=? n) && (n <=? 90) then n - 55
           else radix in
  if d <? radix then Some d else None.

Fixpoint digits (radix : Z) (s : string) (acc : option Z) : option Z :=
  match s with
  | String c r =>
      match digit_of radix c with
      | Some d => digits radix r (Some (radix * default 0 acc + d))
      | None => acc
      end
  | EmptyString => acc
  end.

(** [parseInt(s)] and [parseInt(s, 10)]; [None] is [NaN].  Without a radix
    a [0x] prefix selects base 16.  The integer read is kept exact. *)
Definition parseInt_radix (radix : option Z) (s : string) : option Z :=
  let s := trimStart s in
  let '(sign, s) :=
    match s with
    | String "-" r => (-1, r)
    | String "+" r => (1, r)
    | _ => (1, s)
    end in
  let hex := startsWith "0x" s || startsWith "0X" s in
  let v := match radix with
           | Some r => digits r s None
           | None => if hex then digits 16 (drop 2 s) None else digits 10 s None
           end in
  option_map (Z.mul sign) v.

Definition parseInt (s : string) : option Z := parseInt_radix None s.

End Js.

(** ** Data model *)

(** [{ filename, size, sha256 }]; a missing or zero [size] is [0] (both are
    falsy in the tests the downloader makes). *)
Record ArchiveInfo : Type := {
  filename : string;
  size : Z;
  sha256 : string }.

(** [{ version, buildDate, archives }]: [archives] is the object used as a
    map from archive key to [ArchiveInfo]. *)
Record Manifest : Type := {
  version : Z;
  buildDate : string;
  archives : gmap string ArchiveInfo }.

(** Values that [JSON.parse] can return and [JSON.stringify] takes. *)
#[local] Unset Elimination Schemes.
Inductive json : Type :=
  | JNull
  | JBool (b : bool)
  | JNum (q : Q)
  | JStr (s : string)
  | JArr (items : list json)
  | JObj (fields : list (string * json)).
#[local] Set Elimination Schemes.

(** The [Error] objects the installer creates or passes on, one constructor
    per origin; [message] gives the text each one carries. *)
Inductive JsError : Type :=
  | ManifestHttpError (status : Z)
  | InvalidManifestJson (detail : string)
  | StreamError (msg : string)
  | DownloadHttpError (status : Z)
  | ConnectionTimedOut
  | ChecksumMismatch (file expected12 actual12 : string)
  | CannotReachServer (inner : string)
  | ArchiveNotFound (key : string)
  | SetupCancelled
  | ExecError (msg : string)
  | FsError (msg : string)
  | TypeError (msg : string).

Definition message (e : JsError) : string :=
  match e with
  | ManifestHttpError status => "Failed to fetch manifest: HTTP " ++ Js.show_Z status
  | InvalidManifestJson detail => "Invalid manifest JSON: " ++ detail
  | StreamError msg => msg
  | DownloadHttpError status => "Download failed: HTTP " ++ Js.show_Z status
  | ConnectionTimedOut => "Connection timed out"
  | ChecksumMismatch file expected12 actual12 =>
      "Checksum mismatch for " ++ file ++ ": expected " ++ expected12 ++
      "..., got " ++ actual12 ++ "..."
  | CannotReachServer inner =>
      "Cannot reach download server: " ++ inner ++ ". Check your internet connection."
  | ArchiveNotFound key =>
      "Archive " ++ String (ascii_of_N 34) key ++ String (ascii_of_N 34)
        " not found in manifest. The download server may need updating."
  | SetupCancelled => "Setup cancelled"
  | ExecError msg => msg
  | FsError msg => msg
  | TypeError msg => msg
  end.

(** The payload of a [setup-progress] message. *)
Record ProgressEvent : Type := {
  stage : string;
  percent : Z;
  text : string;
  log : option string }.

(** [{ platform, hasPython, ..., availableSpace }] as [checkSystem] builds
    it.  [gpuVram] is a number that can be [NaN] ([None]). *)
Record SystemInfo : Type := {
  info_platform : string;
  hasPython : bool;
  pythonVersion : option string;
  hasNvidiaGpu : bool;
  gpuName : option string;
  gpuVram : option Q;
  hasEnoughVram : bool;
  hasEnoughSpace : bool;
  availableSpace : string }.

(** ** The host *)

(** How a response stream ends: ['end'], ['error'], or silence. *)
Inductive StreamEnd : Type :=
  | EndOk
  | EndError (msg : string)
  | EndStall.

(** An [http.IncomingMessage]: status, the two headers the code reads
    ([location], which a redirect is taken to carry, and [content-length]
    already through [parseInt(_, 10)]), the chunks of the ['data'] events
    and the way the stream ends. *)
Record Response : Type := {
  statusCode : Z;
  location : string;
  content_length : option Z;
  chunks : list string;
  ending : StreamEnd }.

(** What a [get] call leads to: an ['error'] on the request, no answer at
    all, or the response callback. *)
Inductive Reply : Type :=
  | ConnError (msg : string)
  | NoAnswer
  | Responded (res : Response).

(** [execSync]: the standard output, or the exception it throws (command
    missing, non-zero exit status, timeout). *)
Inductive ExecResult : Type :=
  | Stdout (out : string)
  | ExecThrows (msg : string).

Inductive Parsed (A : Type) : Type :=
  | ParseOk (a : A)
  | SyntaxError (detail : string).
Arguments ParseOk {A} a.
Arguments SyntaxError {A} detail.

(** What an unpacking tool leaves behind: the entries it wrote (names
    relative to the destination) and, if it failed, its error text. *)
Record Unpacked : Type := {
  entries : list (string * string);
  failure : option string }.

Record Host : Type := {
  platform : string;                       (* process.platform *)
  userData : string;                       (* app.getPath('userData') *)
  backendDir : string;
  path_join : list string -> string;       (* path.join(...) *)
  path_basename : string -> string;        (* path.basename(p) *)
  execSync : string -> ExecResult;
  http_get : string -> option Z -> Reply;  (* url, start of the Range header *)
  JSON_parse_manifest : string -> Parsed Manifest;
  JSON_parse : string -> Parsed json;
  JSON_stringify : json -> string;
  ToNumber_text : json -> option Q;        (* ToNumber of a string, array or object *)
  tar_exe : string -> Unpacked;            (* tar.exe -xf on an archive's bytes *)
  Expand_Archive : string -> Unpacked;     (* PowerShell Expand-Archive *)
  now_iso : string;                        (* new Date().toISOString() *)
  error_stack : JsError -> string;         (* error.stack *)
  abort_called : nat -> bool;              (* abort() arrives during the n-th await *)
  idle_timeout : string -> option nat      (* the 30-second timer of a request whose
                                              redirect answer is never read: None when
                                              the server closes the connection, Some n
                                              when it stays open and the timer fires
                                              once n further requests were answered *)
}.

(** ** The world a promise runs in *)

(** The renderer side: whether the window can still receive messages (it
    is taken to stay as it is while a promise runs) and the
    [setup-progress] messages sent so far, oldest first. *)
Record Ui : Type := {
  windowOpen : bool;                (* mainWindow && !mainWindow.isDestroyed() *)
  sent : list ProgressEvent }.

Record World : Type := {
  fs : gmap string string;          (* path to content *)
  ui : Ui;
  aborted : bool;                   (* this.aborted *)
  progressCalls : list (Z * Z)      (* history: arguments of every progressCb call *)
}.

Definition with_fs (f : gmap string string) (w : World) : World :=
  {| fs := f; ui := ui w; aborted := aborted w; progressCalls := progressCalls w |}.

Definition with_ui (u : Ui) (w : World) : World :=
  {| fs := fs w; ui := u; aborted := aborted w; progressCalls := progressCalls w |}.

Definition with_aborted (b : bool) (w : World) : World :=
  {| fs := fs w; ui := ui w; aborted := b; progressCalls := progressCalls w |}.

Definition with_progressCalls (l : list (Z * Z)) (w : World) : World :=
  {| fs := fs w; ui := ui w; aborted := aborted w; progressCalls := l |}.

(** The state of a promise when the run is observed. [Pending] is a promise
    that can no longer settle (a request without timeout got no answer, a
    child process never ends);
    [Unfinished] means the hops allowed to the redirect recursion were
    used up before the promise settled. *)
Inductive outcome (A : Type) : Type :=
  | Resolved (a : A)
  | Rejected (e : JsError)
  | Pending
  | Unfinished.
Arguments Resolved {A} a.
Arguments Rejected {A} e.
Arguments Pending {A}.
Arguments Unfinished {A}.

(** State and exceptions: [St] is the mutable data the code works on. *)
Definition Eff (St A : Type) : Type := St -> outcome A * St.

(** An [async] method of [SetupManager]. *)
Definition Promise (A : Type) : Type := Eff World A.

Definition ret {St A} (a : A) : Eff St A := fun w => (Resolved a, w).
Definition throw {St A} (e : JsError) : Eff St A := fun w => (Rejected e, w).
Definition settle {St A} (o : outcome A) : Eff St A := fun w => (o, w).

Definition bind {St A B} (m : Eff St A) (k : A -> Eff St B) : Eff St B :=
  fun w =>
    match m w with
    | (Resolved a, w') => k a w'
    | (Rejected e, w') => (Rejected e, w')
    | (Pending, w') => (Pending, w')
    | (Unfinished, w') => (Unfinished, w')
    end.

(** [try { m } catch (e) { h e }]. *)
Definition try_catch {St A} (m : Eff St A) (h : JsError -> Eff St A) : Eff St A :=
  fun w =>
    match m w with
    | (Rejected e, w') => h e w'
    | r => r
    end.

Definition effect {St} (f : St -> St) : Eff St unit := fun w => (Resolved tt, f w).

(** [reject(e)] followed by work that was already under way: the promise
    is rejected with [e] whatever [m] leads to, and what [m] does to the
    state is done all the same. *)
Definition rejected_then {St A B} (e : JsError) (m : Eff St B) : Eff St A :=
  fun w => (Rejected e, snd (m w)).

Declare Scope promise_scope.
Delimit Scope promise_scope with promise.
Notation "'let*' x ':=' m 'in' k" := (bind m (fun x => k))
  (at level 10, x name, m at level 100, k at level 200) : promise_scope.
Notation "m ';;' k" := (bind m (fun _ => k))
  (at level 100, k at level 200, right associativity) : promise_scope.
Local Open Scope promise_scope.

(** *** [fs] *)

Definition existsSync (p : string) (w : World) : bool :=
  match fs w !! p with Some _ => true | None => false end.

Definition unlinkSync (p : string) : Promise unit :=
  fun w =>
    match fs w !! p with
    | Some _ => (Resolved tt, with_fs (delete p (fs w)) w)
    | None => (Rejected (FsError ("ENOENT: no such file or directory, unlink " ++ p)), w)
    end.

Definition renameSync (src dst : string) : Promise unit :=
  fun w =>
    match fs w !! src with
    | Some c => (Resolved tt, with_fs (<[dst := c]> (delete src (fs w))) w)
    | None => (Rejected (FsError ("ENOENT: no such file or directory, rename " ++ src)), w)
    end.

Definition writeFileSync (p content : string) : Promise unit :=
  effect (fun w => with_fs (<[p := content]> (fs w)) w).

(** [try { fs.unlinkSync(p); } catch (e) {}]. *)
Definition unlink_quietly (p : string) : Promise unit :=
  try_catch (unlinkSync p) (fun _ => ret tt).

(** [this.mainWindow.webContents.send('setup-progress', ev)] behind its
    guard. *)
Definition post (ev : ProgressEvent) (u : Ui) : Ui :=
  if windowOpen u then {| windowOpen := windowOpen u; sent := sent u ++ [ev] |} else u.

(** [this.sendProgress(stage, percent, message, log)]. *)
Definition sendProgress (stg : string) (pct : Z) (msg : string) (lg : option string)
  : Promise unit :=
  effect (fun w =>
    with_ui (post {| stage := stg; percent := pct; text := msg; log := lg |} (ui w)) w).

(** ** The installer *)

Definition R2_BASE_URL : string :=
  "https://pub-47fe74e29e49481c8ace643cd33ab71d.r2.dev/v1".

(** Bumped when the archive format changes, to force a new setup. *)
Definition SETUP_VERSION : Z := 2.

(** Minimum free disk space required (GB). *)
Definition MIN_FREE_SPACE_GB : Z := 10.

Definition MIN_VRAM_GB : Z := 4.

Record Options : Type := {
  model : string;      (* the empty string when absent *)
  useGpu : bool }.

(** Flags of [fs.createWriteStream]. *)
Inductive OpenFlags : Type := flag_a | flag_w.

Section SetupManager.

Context (H : Host).

Definition dataDir : string := userData H.
Definition pythonDir : string := path_join H [dataDir; "python"].
Definition setupFlagPath : string := path_join H [dataDir; ".setup-complete"].

(** *** Manifest *)

Definition is_redirect (status : Z) : bool := (status =? 301) || (status =? 302).

(** [_readJson(res, resolve, reject)]: the chunks are concatenated and
    parsed at ['end']; no timeout is installed on these requests. *)
Definition _readJson (res : Response) : outcome Manifest :=
  match ending res with
  | EndOk =>
      match JSON_parse_manifest H (Js.join_chunks (chunks res)) with
      | ParseOk m => Resolved m
      | SyntaxError detail => Rejected (InvalidManifestJson detail)
      end
  | EndError msg => Rejected (StreamError msg)
  | EndStall => Pending
  end.

Definition manifest_url : string := R2_BASE_URL ++ "/manifest.json".

Definition fetchManifest_outcome : outcome Manifest :=
  match http_get H manifest_url None with
  | ConnError msg => Rejected (StreamError msg)
  | NoAnswer => Pending
  | Responded res =>
      if is_redirect (statusCode res) then
        match http_get H (location res) None with
        | ConnError msg => Rejected (StreamError msg)
        | NoAnswer => Pending
        | Responded redirectRes => _readJson redirectRes
        end
      else if negb (statusCode res =? 200) then
        Rejected (ManifestHttpError (statusCode res))
      else _readJson res
  end.

Definition fetchManifest : Promise Manifest := settle fetchManifest_outcome.

(** *** Resumable download *)

Definition partial_of (destPath : string) : string := destPath ++ ".partial".

Definition createWriteStream (p : string) (flags : OpenFlags) : Promise unit :=
  effect (fun w =>
    match flags, fs w !! p with
    | flag_a, Some _ => w
    | _, _ => with_fs (<[p := ""]> (fs w)) w
    end).

Definition write_chunk (p chunk : string) : Promise unit :=
  effect (fun w => with_fs (<[p := default "" (fs w !! p) ++ chunk]> (fs w)) w).

(** [expectedSize || (parseInt(res.headers['content-length'], 10) + startByte)] *)
Definition totalSize_of (expectedSize : Z) (res : Response) (startByte : Z) : option Z :=
  if expectedSize =? 0 then option_map (fun c => c + startByte) (content_length res)
  else Some expectedSize.

Definition truthy_number (n : option Z) : bool :=
  match n with
  | Some z => negb (z =? 0)
  | None => false
  end.

(** The ['data'] handler together with [res.pipe(file)], chunk by chunk. *)
Fixpoint pump (partialPath : string) (progressCb : option (Z -> Z -> Ui -> Ui))
    (totalSize : option Z) (cs : list string) (downloaded : Z) : Promise unit :=
  match cs with
  | [] => ret tt
  | chunk :: rest =>
      let downloaded := downloaded + Z.of_nat (String.length chunk) in
      match progressCb, totalSize with
      | Some cb, Some total =>
          if truthy_number totalSize then
            effect (fun w =>
              with_progressCalls (progressCalls w ++ [(downloaded, total)])
                (with_ui (cb downloaded total (ui w)) w))
          else ret tt
      | _, _ => ret tt
      end ;;
      write_chunk partialPath chunk ;;
      pump partialPath progressCb totalSize rest downloaded
  end.

(** [startByte] after the status test: 200 means the full file is coming. *)
Definition startByte_after (status startByte : Z) : Z :=
  if status =? 200 then 0 else startByte.

(** [startByte > 0 && res.statusCode === 206 ? 'a' : 'w'] *)
Definition flags_for (status startByte : Z) : OpenFlags :=
  if (0 <? startByte) && (status =? 206) then flag_a else flag_w.

(** The [file.on('finish')] handler. *)
Definition on_finish (partialPath destPath : string) : Promise unit :=
  (fun w => if existsSync destPath w then unlinkSync destPath w else ret tt w) ;;
  renameSync partialPath destPath.

(** The response callback once the status is not a redirect.  A response
    that breaks off reaches [res.on('error')], which calls [file.close()]
    and rejects; one that stops coming lets the timer run out, whose
    callback rejects and destroys the request, which breaks the response
    off the same way.  [file.close()] ends the write stream, so its
    ['finish'] handler still runs after the rejection and moves what was
    received to [destPath]; its [resolve()] comes too late to count.  The
    disk is taken to accept what is written: [file.on('error')] has
    nothing to report. *)
Definition receive (partialPath destPath : string) (expectedSize : Z)
    (progressCb : option (Z -> Z -> Ui -> Ui)) (startByte : Z) (res : Response)
  : Promise unit :=
  let status := statusCode res in
  if negb (status =? 200) && negb (status =? 206) then throw (DownloadHttpError status)
  else
    let startByte := startByte_after status startByte in
    let flags := flags_for status startByte in
    createWriteStream partialPath flags ;;
    let totalSize := totalSize_of expectedSize res startByte in
    pump partialPath progressCb totalSize (chunks res) startByte ;;
    match ending res with
    | EndOk => on_finish partialPath destPath
    | EndError msg => rejected_then (StreamError msg) (on_finish partialPath destPath)
    | EndStall => rejected_then ConnectionTimedOut (on_finish partialPath destPath)
    end.

(** The timers that run while a chain of redirects is followed: [Some n]
    when the earliest of them fires once [n] further requests have been
    answered. *)
Definition earliest (a b : option nat) : option nat :=
  match a, b with
  | Some x, Some y => Some (Nat.min x y)
  | Some x, None => Some x
  | None, _ => b
  end.

Definition elapse (timer : option nat) : option nat := option_map Nat.pred timer.

(** [makeRequest(requestUrl)]: [range] is the start of the [Range] header,
    built once and sent again on every hop.  [fuel] bounds the hops of
    this evaluation only; the code has no counter.  [req.setTimeout]
    arms a 30-second timer on every request.  It fires for a request that
    gets no answer ([NoAnswer]), for a response that stops coming
    ([EndStall]), and for a request answered by a redirect whose
    connection stays open, since that answer is never read
    ([idle_timeout]): its callback rejects the promise, while the requests
    that followed go on.  [timer] is the earliest of the timers of the
    hops made so far. *)
Fixpoint makeRequest (fuel : nat) (partialPath destPath : string) (expectedSize : Z)
    (progressCb : option (Z -> Z -> Ui -> Ui)) (range : option Z) (startByte : Z)
    (timer : option nat) (requestUrl : string) : Promise unit :=
  match fuel with
  | O => settle Unfinished
  | S fuel' =>
      match timer with
      | Some O =>
          rejected_then ConnectionTimedOut
            (makeRequest fuel' partialPath destPath expectedSize progressCb range
                         startByte None requestUrl)
      | _ =>
          match http_get H requestUrl range with
          | ConnError msg => throw (StreamError msg)
          | NoAnswer => throw ConnectionTimedOut
          | Responded res =>
              if is_redirect (statusCode res) then
                makeRequest fuel' partialPath destPath expectedSize progressCb range
                            startByte
                            (earliest (elapse timer) (idle_timeout H requestUrl))
                            (location res)
              else
                match elapse timer with
                | Some O =>
                    rejected_then ConnectionTimedOut
                      (receive partialPath destPath expectedSize progressCb startByte res)
                | _ => receive partialPath destPath expectedSize progressCb startByte res
                end
          end
      end
  end.

Definition range_header (startByte : Z) : option Z :=
  if 0 <? startByte then Some startByte else None.

Definition downloadFileWithResume (fuel : nat) (url destPath : string)
    (expectedSize : Z) (progressCb : option (Z -> Z -> Ui -> Ui)) : Promise unit :=
  let partialPath := partial_of destPath in
  fun w =>
    match fs w !! partialPath with
    | Some partial =>
        let startByte := Z.of_nat (String.length partial) in
        if negb (expectedSize =? 0) && (expectedSize <=? startByte)
        then renameSync partialPath destPath w
        else makeRequest fuel partialPath destPath expectedSize progressCb
                         (range_header startByte) startByte None url w
    | None =>
        makeRequest fuel partialPath destPath expectedSize progressCb
                    (range_header 0) 0 None url w
    end.

(** *** Checksum *)

Definition verifyChecksum (filePath expectedSha256 : string) : Promise bool :=
  fun w =>
    match fs w !! filePath with
    | None =>
        (Rejected (FsError ("ENOENT: no such file or directory, open " ++ filePath)), w)
    | Some content =>
        let actual := Sha256.hex content in
        if String.eqb actual expectedSha256 then (Resolved true, w)
        else (Rejected (ChecksumMismatch (path_basename H filePath)
                          (Js.slice0 12 expectedSha256) (Js.slice0 12 actual)), w)
    end.

(** *** Extraction *)

Definition unpack_into (destDir : string) (u : Unpacked) : Promise unit :=
  effect (fun w =>
    with_fs (List.fold_left
               (fun m e => <[path_join H [destDir; fst e] := snd e]> m)
               (entries u) (fs w)) w).

Definition run_tool (tool : string -> Unpacked) (zipPath destDir : string) : Promise unit :=
  fun w =>
    match fs w !! zipPath with
    | None => (Rejected (ExecError ("Command failed: cannot open " ++ zipPath)), w)
    | Some zip =>
        (unpack_into destDir (tool zip) ;;
         match failure (tool zip) with
         | None => ret tt
         | Some msg => throw (ExecError msg)
         end) w
    end.

(** [tar.exe] first, PowerShell [Expand-Archive] when it fails.  Directories
    are not files of the map, so [mkdirSync] has nothing to do. *)
Definition extractZip (zipPath destDir : string) : Promise unit :=
  try_catch (run_tool (tar_exe H) zipPath destDir)
            (fun tarError => run_tool (Expand_Archive H) zipPath destDir).

(** *** One archive *)

Definition quote : string := String (ascii_of_N 34) "".

(** The closure passed as [progressCb]. *)
Definition download_progress (uiStage label : string) (progressStart progressEnd : Z)
    (downloaded total : Z) : Ui -> Ui :=
  let dlPct := (inject_Z downloaded / inject_Z total)%Q in
  let pct := (inject_Z progressStart
              + dlPct * inject_Z (progressEnd - progressStart) * (7 # 10))%Q in
  let dlMB := Js.show_Z (Js.toFixed_int 1 (inject_Z downloaded / inject_Z (1024 * 1024))) in
  let totalMB := Js.show_Z (Js.toFixed_int 1 (inject_Z total / inject_Z (1024 * 1024))) in
  post {| stage := uiStage; percent := Js.Math_round pct;
          text := "Downloading " ++ label ++ "... " ++ dlMB ++ "/" ++ totalMB ++ " MB";
          log := None |}.

Definition verifyStart (progressStart progressEnd : Z) : Q :=
  (inject_Z progressStart + inject_Z (progressEnd - progressStart) * (7 # 10))%Q.

Definition extractStart (progressStart progressEnd : Z) : Q :=
  (inject_Z progressStart + inject_Z (progressEnd - progressStart) * (8 # 10))%Q.

Definition downloadAndInstallArchive (fuel : nat) (archiveInfo : ArchiveInfo)
    (archiveKey : string) (progressStart progressEnd : Z) (uiStage : string)
  : Promise unit :=
  let zipPath := path_join H [dataDir; filename archiveInfo] in
  let label := Js.dashes_to_spaces archiveKey in
  sendProgress uiStage progressStart ("Downloading " ++ label ++ "...")
    (Some ("Starting download of " ++ filename archiveInfo)) ;;
  downloadFileWithResume fuel (R2_BASE_URL ++ "/" ++ filename archiveInfo) zipPath
    (size archiveInfo)
    (Some (download_progress uiStage label progressStart progressEnd)) ;;
  sendProgress uiStage (Js.Math_round (verifyStart progressStart progressEnd))
    ("Verifying " ++ label ++ "...")
    (Some ("Checking SHA-256 for " ++ filename archiveInfo)) ;;
  try_catch (verifyChecksum zipPath (sha256 archiveInfo))
    (fun checksumErr => unlink_quietly zipPath ;; throw checksumErr) ;;
  sendProgress uiStage (Js.Math_round (extractStart progressStart progressEnd))
    ("Extracting " ++ label ++ "...")
    (Some ("Extracting " ++ filename archiveInfo)) ;;
  extractZip zipPath dataDir ;;
  unlink_quietly zipPath ;;
  sendProgress uiStage (Js.Math_round (inject_Z progressEnd))
    (label ++ " installed") (Some ("Completed " ++ filename archiveInfo)).

(** *** The whole run *)

Record StageInfo : Type := { uiStage : string; pStart : Z; pEnd : Z }.

(** [archiveStageMap[key] || { uiStage: 'dependencies', pStart: 25, pEnd: 70 }] *)
Definition archiveStageMap (key : string) : StageInfo :=
  if String.eqb key "python-core" then {| uiStage := "python"; pStart := 5; pEnd := 25 |}
  else if String.eqb key "pytorch-nvidia-cu121"
       then {| uiStage := "dependencies"; pStart := 25; pEnd := 55 |}
  else if String.eqb key "pytorch-cpu"
       then {| uiStage := "dependencies"; pStart := 25; pEnd := 55 |}
  else if String.eqb key "packages"
       then {| uiStage := "dependencies"; pStart := 55; pEnd := 70 |}
  else if String.eqb key "models-turbo"
       then {| uiStage := "model"; pStart := 70; pEnd := 95 |}
  else {| uiStage := "dependencies"; pStart := 25; pEnd := 70 |}.

(** Step 2 of [runSetup]: the keys to install, in order. *)
Definition archiveKeys (useGpu : bool) (manifest : Manifest) : list string :=
  ["python-core"] ++
  (if useGpu then ["pytorch-nvidia-cu121"]
   else match archives manifest !! "pytorch-cpu" with
        | Some _ => ["pytorch-cpu"]
        | None => ["pytorch-nvidia-cu121"]
        end) ++
  ["packages"; "models-turbo"].

(** [for (const key of archiveKeys) if (!manifest.archives[key]) throw ...] *)
Fixpoint validate (manifest : Manifest) (keys : list string) : Promise unit :=
  match keys with
  | [] => ret tt
  | key :: rest =>
      match archives manifest !! key with
      | Some _ => validate manifest rest
      | None => throw (ArchiveNotFound key)
      end
  end.

(** [await m], the [n]-th of the run: [abort()] can set the flag while [m]
    is pending, whatever [m] comes to. *)
Definition awaited {A} (n : nat) (m : Promise A) : Promise A :=
  fun w =>
    let (r, w') := m w in
    (r, with_aborted (aborted w' || abort_called H n) w').

(** The loop of step 3, from index [i] on. *)
Fixpoint install_from (fuel : nat) (manifest : Manifest) (i : nat) (keys : list string)
  : Promise unit :=
  match keys with
  | [] => ret tt
  | key :: rest =>
      (fun w => if aborted w then throw SetupCancelled w else ret tt w) ;;
      match archives manifest !! key with
      | None => throw (TypeError "Cannot read properties of undefined (reading 'size')")
      | Some info =>
          let stageInfo := archiveStageMap key in
          awaited (S i)
            (downloadAndInstallArchive fuel info key (pStart stageInfo) (pEnd stageInfo)
               (uiStage stageInfo)) ;;
          install_from fuel manifest (S i) rest
      end
  end.

Definition readFileSync (p : string) : Promise string :=
  fun w =>
    match fs w !! p with
    | Some c => (Resolved c, w)
    | None => (Rejected (FsError ("ENOENT: no such file or directory, open " ++ p)), w)
    end.

(** Step 4: [import site] is switched on in [python310._pth]. *)
Definition enable_site_packages : Promise unit :=
  let pthFile := path_join H [pythonDir; "python310._pth"] in
  fun w =>
    if existsSync pthFile w then
      (let* content := readFileSync pthFile in
       if Js.includes "#import site" content
       then writeFileSync pthFile (Js.replace "#import site" "import site" content)
       else ret tt) w
    else ret tt w.

(** The object written to [.setup-complete]. *)
Definition marker_object (options : Options) (manifest : Manifest) : json :=
  JObj [ ("setupVersion", JNum (inject_Z SETUP_VERSION));
         ("model", JStr (if String.eqb (model options) "" then "turbo" else model options));
         ("useGpu", JBool (useGpu options));
         ("manifestVersion", JNum (inject_Z (version manifest)));
         ("buildDate", JStr (buildDate manifest));
         ("timestamp", JStr (now_iso H)) ].

Definition runSetup_body (fuel : nat) (options : Options) : Promise bool :=
  effect (with_aborted false) ;;
  sendProgress "python" 2 "Fetching package manifest..."
    (Some "Connecting to download server") ;;
  let* manifest :=
    try_catch (awaited 0 fetchManifest)
      (fun err => throw (CannotReachServer (message err))) in
  let keys := archiveKeys (useGpu options) manifest in
  validate manifest keys ;;
  install_from fuel manifest 0 keys ;;
  sendProgress "model" 96 "Finalizing installation..." (Some "Writing setup config") ;;
  enable_site_packages ;;
  writeFileSync setupFlagPath (JSON_stringify H (marker_object options manifest)) ;;
  sendProgress "complete" 100 "Setup complete!" (Some "VoiceCraft is ready to use") ;;
  ret true.

(** [runSetup(options)]: resolves to [{ success: true }]. *)
Definition runSetup (fuel : nat) (options : Options) : Promise bool :=
  try_catch (runSetup_body fuel options)
    (fun error =>
       sendProgress "error" 0 (message error) (Some (error_stack H error)) ;;
       throw error).

(** *** The completion marker read back *)

(** [data.setupVersion]: [None] when the access throws, [Some None] for
    [undefined]. *)
Definition get_setupVersion (data : json) : option (option json) :=
  match data with
  | JNull => None
  | JObj fields =>
      Some (option_map snd
              (List.find (fun f => String.eqb (fst f) "setupVersion") fields))
  | _ => Some None
  end.

(** [ToBoolean]. *)
Definition truthy (v : option json) : bool :=
  match v with
  | None | Some JNull => false
  | Some (JBool b) => b
  | Some (JNum q) => negb (Qeq_bool q 0)
  | Some (JStr s) => negb (String.eqb s "")
  | Some (JArr _) | Some (JObj _) => true
  end.

(** [ToNumber]; [None] is [NaN]. *)
Definition ToNumber (v : option json) : option Q :=
  match v with
  | None => None
  | Some JNull => Some 0%Q
  | Some (JBool b) => Some (if b then 1%Q else 0%Q)
  | Some (JNum q) => Some q
  | Some j => ToNumber_text H j
  end.

(** [v < n] for a number [n]. *)
Definition less_than (v : option json) (n : Q) : bool :=
  match ToNumber v with
  | Some q => negb (Qle_bool n q)
  | None => false
  end.

Definition isSetupComplete (w : World) : bool :=
  match fs w !! setupFlagPath with
  | None => false
  | Some content =>
      match JSON_parse H content with
      | SyntaxError _ => false
      | ParseOk data =>
          match get_setupVersion data with
          | None => false
          | Some v =>
              if negb (truthy v) || less_than v (inject_Z SETUP_VERSION) then false
              else true
          end
      end
  end.

(** [abort()]. *)
Definition abort : Promise unit := effect (with_aborted true).

(** [needsSetup()] of [electron/main.js], the test made at launch and
    behind the [is-setup-complete] channel. *)
Definition needsSetup (w : World) : bool :=
  negb (existsSync (path_join H [userData H; ".setup-complete"]) w).

End SetupManager.

(** ** The system probe *)

Definition set_hasPython (b : bool) (i : SystemInfo) : SystemInfo :=
  {| info_platform := info_platform i; hasPython := b; pythonVersion := pythonVersion i;
     hasNvidiaGpu := hasNvidiaGpu i; gpuName := gpuName i; gpuVram := gpuVram i;
     hasEnoughVram := hasEnoughVram i; hasEnoughSpace := hasEnoughSpace i;
     availableSpace := availableSpace i |}.

Definition set_pythonVersion (v : option string) (i : SystemInfo) : SystemInfo :=
  {| info_platform := info_platform i; hasPython := hasPython i; pythonVersion := v;
     hasNvidiaGpu := hasNvidiaGpu i; gpuName := gpuName i; gpuVram := gpuVram i;
     hasEnoughVram := hasEnoughVram i; hasEnoughSpace := hasEnoughSpace i;
     availableSpace := availableSpace i |}.

Definition set_hasNvidiaGpu (b : bool) (i : SystemInfo) : SystemInfo :=
  {| info_platform := info_platform i; hasPython := hasPython i;
     pythonVersion := pythonVersion i;
     hasNvidiaGpu := b; gpuName := gpuName i; gpuVram := gpuVram i;
     hasEnoughVram := hasEnoughVram i; hasEnoughSpace := hasEnoughSpace i;
     availableSpace := availableSpace i |}.

Definition set_gpuName (n : option string) (i : SystemInfo) : SystemInfo :=
  {| info_platform := info_platform i; hasPython := hasPython i;
     pythonVersion := pythonVersion i;
     hasNvidiaGpu := hasNvidiaGpu i; gpuName := n; gpuVram := gpuVram i;
     hasEnoughVram := hasEnoughVram i; hasEnoughSpace := hasEnoughSpace i;
     availableSpace := availableSpace i |}.

Definition set_gpuVram (v : option Q) (i : SystemInfo) : SystemInfo :=
  {| info_platform := info_platform i; hasPython := hasPython i;
     pythonVersion := pythonVersion i;
     hasNvidiaGpu := hasNvidiaGpu i; gpuName := gpuName i; gpuVram := v;
     hasEnoughVram := hasEnoughVram i; hasEnoughSpace := hasEnoughSpace i;
     availableSpace := availableSpace i |}.

Definition set_hasEnoughVram (b : bool) (i : SystemInfo) : SystemInfo :=
  {| info_platform := info_platform i; hasPython := hasPython i;
     pythonVersion := pythonVersion i;
     hasNvidiaGpu := hasNvidiaGpu i; gpuName := gpuName i; gpuVram := gpuVram i;
     hasEnoughVram := b; hasEnoughSpace := hasEnoughSpace i;
     availableSpace := availableSpace i |}.

Definition set_hasEnoughSpace (b : bool) (i : SystemInfo) : SystemInfo :=
  {| info_platform := info_platform i; hasPython := hasPython i;
     pythonVersion := pythonVersion i;
     hasNvidiaGpu := hasNvidiaGpu i; gpuName := gpuName i; gpuVram := gpuVram i;
     hasEnoughVram := hasEnoughVram i; hasEnoughSpace := b;
     availableSpace := availableSpace i |}.

Definition set_availableSpace (s : string) (i : SystemInfo) : SystemInfo :=
  {| info_platform := info_platform i; hasPython := hasPython i;
     pythonVersion := pythonVersion i;
     hasNvidiaGpu := hasNvidiaGpu i; gpuName := gpuName i; gpuVram := gpuVram i;
     hasEnoughVram := hasEnoughVram i; hasEnoughSpace := hasEnoughSpace i;
     availableSpace := s |}.

Section SystemProbe.

Context (H : Host).

(** The object [checkSystem] starts from. *)
Definition initial_info : SystemInfo :=
  {| info_platform := platform H; hasPython := false; pythonVersion := None;
     hasNvidiaGpu := false; gpuName := None; gpuVram := Some 0%Q;
     hasEnoughVram := false; hasEnoughSpace := true; availableSpace := "Unknown" |}.

(** [execSync(cmd, ...)] inside a block that works on the info object. *)
Definition exec (cmd : string) : Eff SystemInfo string :=
  match execSync H cmd with
  | Stdout out => ret out
  | ExecThrows msg => throw (ExecError msg)
  end.

Definition first_existing (w : World) (candidates : list string) : option string :=
  List.find (fun p => existsSync p w) candidates.

Definition findPython (w : World) : option string :=
  first_existing w
    (if String.eqb (platform H) "win32" then
       [ path_join H [dataDir H; "python"; "python.exe"];
         path_join H [dataDir H; "venv"; "Scripts"; "python.exe"];
         path_join H [backendDir H; "venv"; "Scripts"; "python.exe"] ]
     else
       [ path_join H [dataDir H; "venv"; "bin"; "python"];
         path_join H [backendDir H; "venv"; "bin"; "python"] ]).

(** The body of the first [try]: an existing Python and its version. *)
Definition check_python (pythonPath : option string) : Eff SystemInfo unit :=
  match pythonPath with
  | Some p =>
      let* version := exec (quote ++ p ++ quote ++ " --version") in
      effect (set_hasPython true) ;;
      effect (set_pythonVersion (Some (Js.trim (Js.replace "Python " "" version))))
  | None => ret tt
  end.

(** [Math.round(vramMB / 1024 * 10) / 10] *)
Definition vram_GB (vramMB : option Z) : option Q :=
  option_map
    (fun mb => (inject_Z (Js.Math_round (inject_Z mb / 1024 * 10)) / 10)%Q) vramMB.

(** [x >= n] for a number [x] that can be [NaN]. *)
Definition at_least (x : option Q) (n : Z) : bool :=
  match x with
  | Some q => Qle_bool (inject_Z n) q
  | None => false
  end.

Definition first_line (s : string) : string :=
  List.hd "" (Js.split Js.newline (Js.trim s)).

(** The body of the second [try]: GPU name, then VRAM. *)
Definition check_gpu : Eff SystemInfo unit :=
  if String.eqb (platform H) "win32" then
    let* nameResult := exec "nvidia-smi --query-gpu=name --format=csv,noheader" in
    if negb (String.eqb (Js.trim nameResult) "") then
      effect (set_hasNvidiaGpu true) ;;
      effect (set_gpuName (Some (first_line nameResult))) ;;
      let* vramResult :=
        exec "nvidia-smi --query-gpu=memory.total --format=csv,noheader,nounits" in
      let vramMB := Js.parseInt (first_line vramResult) in
      effect (set_gpuVram (vram_GB vramMB)) ;;
      effect (fun i => set_hasEnoughVram (at_least (gpuVram i) MIN_VRAM_GB) i)
    else ret tt
  else ret tt.

Definition wmic_command : string :=
  "wmic logicaldisk where " ++ quote ++ "DeviceID='" ++
  List.hd "" (Js.split ":" (dataDir H)) ++ ":'" ++ quote ++ " get FreeSpace".

(** [parseInt(result.split('\n')[1].trim())]; the access throws when the
    output has a single line. *)
Definition parse_free_bytes (result : string) : Eff SystemInfo (option Z) :=
  match List.nth_error (Js.split Js.newline result) 1 with
  | Some line => ret (Js.parseInt (Js.trim line))
  | None => throw (TypeError "Cannot read properties of undefined (reading 'trim')")
  end.

(** [(freeBytes / (1024 * 1024 * 1024)).toFixed(1)], kept as its number of
    tenths; [None] is the text [NaN]. *)
Definition freeGB_tenths (freeBytes : option Z) : option Z :=
  option_map
    (fun b => Js.toFixed_int 10 (inject_Z b / inject_Z (1024 * 1024 * 1024))) freeBytes.

Definition show_freeGB (freeGB : option Z) : string :=
  match freeGB with
  | Some t => Js.show_fixed1 t
  | None => "NaN"
  end.

(** The number the text [freeGB] converts to in a comparison. *)
Definition freeGB_number (freeGB : option Z) : option Q :=
  option_map (fun t => (inject_Z t / 10)%Q) freeGB.

(** The body of the third [try], with the comparison made on [freeGB]. *)
Definition check_disk (enough : option Q -> bool) : Eff SystemInfo unit :=
  if String.eqb (platform H) "win32" then
    let* result := exec wmic_command in
    let* freeBytes := parse_free_bytes result in
    let freeGB := freeGB_tenths freeBytes in
    effect (set_availableSpace (show_freeGB freeGB ++ " GB")) ;;
    effect (set_hasEnoughSpace (enough (freeGB_number freeGB)))
  else ret tt.

(** [try { block } catch (e) { }] *)
Definition attempt (block : Eff SystemInfo unit) : Eff SystemInfo unit :=
  try_catch block (fun _ => ret tt).

(** [checkSystem()]: the outcome of the promise and the info object. *)
Definition checkSystem_run (w : World) : outcome unit * SystemInfo :=
  (attempt (check_python (findPython w)) ;;
   attempt check_gpu ;;
   attempt (check_disk (fun freeGB => at_least freeGB MIN_FREE_SPACE_GB)))
    initial_info.

Definition checkSystem (w : World) : outcome SystemInfo :=
  match checkSystem_run w with
  | (Resolved _, info) => Resolved info
  | (Rejected e, _) => Rejected e
  | (Pending, _) => Pending
  | (Unfinished, _) => Unfinished
  end.

End SystemProbe.

(** ** [electron/setup.js]: the probe of the pip-based installer *)

Module Legacy.
Section SystemProbe.

Context (H : Host).

Definition venvDir : string := path_join H [dataDir H; "venv"].

(** [where python] / [which python3] in its own [try]. *)
Definition system_python (w : World) : option string :=
  match execSync H (if String.eqb (platform H) "win32" then "where python"
                    else "which python3") with
  | Stdout result =>
      let pythonPath := first_line result in
      if existsSync pythonPath w then Some pythonPath else None
  | ExecThrows _ => None
  end.

Definition findPython (w : World) : option string :=
  match first_existing w
          (if String.eqb (platform H) "win32" then
             [ path_join H [venvDir; "Scripts"; "python.exe"];
               path_join H [pythonDir H; "python.exe"];
               path_join H [backendDir H; "venv"; "Scripts"; "python.exe"] ]
           else
             [ path_join H [venvDir; "bin"; "python"];
               path_join H [backendDir H; "venv"; "bin"; "python"] ]) with
  | Some p => Some p
  | None => system_python w
  end.

(** [freeGB > 5] *)
Definition more_than_5 (freeGB : option Q) : bool :=
  match freeGB with
  | Some q => negb (Qle_bool q 5)
  | None => false
  end.

Definition checkSystem_run (w : World) : outcome unit * SystemInfo :=
  (attempt (check_python H (findPython w)) ;;
   attempt (check_gpu H) ;;
   attempt (check_disk H more_than_5))
    (initial_info H).

Definition checkSystem (w : World) : outcome SystemInfo :=
  match checkSystem_run w with
  | (Resolved _, info) => Resolved info
  | (Rejected e, _) => Rejected e
  | (Pending, _) => Pending
  | (Unfinished, _) => Unfinished
  end.

End SystemProbe.
End Legacy.

(** ** [electron/main.js]: the launcher *)

(** [s.slice(-n)] for [n > 0]: the last [n] characters, all of [s] when
    it is shorter. *)
Definition slice_last (n : nat) (s : string) : string :=
  Js.drop (String.length s - n) s.

(** [code === 0] for an exit code that is [null] ([None]) when the process
    was ended by a signal. *)
Definition is_zero (code : option Z) : bool :=
  match code with
  | Some c => c =? 0
  | None => false
  end.

Module Launcher.

(** The payload of a [backend-status] message. *)
Record BackendStatus : Type := {
  status : string;
  status_message : string;
  progress : option Z }.

(** [mainWindow.webContents.send('backend-status', m)] behind its guard. *)
Definition send (windowOpen : bool) (m : BackendStatus) : list BackendStatus :=
  if windowOpen then [m] else [].

(** The variables [startBackend] declares for the handlers of the process
    it spawns. *)
Record Closure : Type := {
  stderrBuffer : string;
  restartCount : Z }.

Definition maxRestarts : Z := 3.

(** What the Python process spawned by one call of [startBackend] does:
    the chunks on its standard error, and its exit ([None] while it runs)
    with the exit code and [app.isQuitting] at that time. *)
Record Life : Type := {
  stderr_data : list string;
  exit : option (option Z * bool) }.

(** What the request of one polling attempt leads to. *)
Inductive Poll : Type :=
  | Answered (statusCode : Z)
  | Failed (msg : string)
  | TimedOut.

(** The backend as [waitForBackend] sees it at attempt [n] (from 1):
    [pythonProcess.exitCode], [None] being [null], and the request. *)
Record Backend : Type := {
  exitCode : nat -> option Z;
  poll : nat -> Poll }.

Section Launcher.

Context (H : Host).

(** [getPythonPath()] *)
Definition getPythonPath (w : World) : string :=
  let isWin := String.eqb (platform H) "win32" in
  match first_existing w
          (if isWin then
             [ path_join H [userData H; "venv"; "Scripts"; "python.exe"];
               path_join H [userData H; "python"; "python.exe"];
               path_join H [backendDir H; "venv"; "Scripts"; "python.exe"] ]
           else
             [ path_join H [userData H; "venv"; "bin"; "python"];
               path_join H [backendDir H; "venv"; "bin"; "python"] ]) with
  | Some p => p
  | None => if isWin then "python" else "python3"
  end.

End Launcher.

(** The ['data'] handler of [pythonProcess.stderr], on [stderrBuffer]. *)
Definition on_stderr (stderrBuffer data : string) : string :=
  let message := Js.trim data in
  let stderrBuffer := stderrBuffer ++ message ++ String Js.newline "" in
  if (2000 <? String.length stderrBuffer)%nat then slice_last 2000 stderrBuffer
  else stderrBuffer.

Definition restarting (restartCount : Z) : BackendStatus :=
  {| status := "restarting";
     status_message := "Backend crashed. Restarting... (" ++ Js.show_Z restartCount ++ "/"
                       ++ Js.show_Z maxRestarts ++ ")";
     progress := None |}.

Definition crashed (stderrBuffer : string) : BackendStatus :=
  {| status := "error";
     status_message := "Backend crashed " ++ Js.show_Z maxRestarts ++ " times."
                       ++ String Js.newline (String Js.newline "Error:")
                       ++ String Js.newline (slice_last 500 stderrBuffer);
     progress := None |}.

(** The ['exit'] handler: the closure after it, the messages sent, and
    whether [setTimeout(() => startBackend(port), 3000)] was called. *)
Definition on_exit (windowOpen isQuitting : bool) (code : option Z) (c : Closure)
  : Closure * list BackendStatus * bool :=
  if negb (is_zero code) && negb isQuitting then
    let c := {| stderrBuffer := stderrBuffer c; restartCount := restartCount c + 1 |} in
    if restartCount c <=? maxRestarts
    then (c, send windowOpen (restarting (restartCount c)), true)
    else (c, send windowOpen (crashed (stderrBuffer c)), false)
  else (c, [], false).

(** The closure once the process has written [chunks] on its standard
    error: [stderrBuffer] and [restartCount] start at [''] and [0] in every
    call of [startBackend]. *)
Definition closure_after (chunks : list string) : Closure :=
  List.fold_left
    (fun c data => {| stderrBuffer := on_stderr (stderrBuffer c) data;
                      restartCount := restartCount c |})
    chunks {| stderrBuffer := ""; restartCount := 0 |}.

(** The handlers that one call of [startBackend] installs, run over the
    life of the process it spawned: the [backend-status] messages of the
    ['exit'] handler and whether a new call was scheduled. *)
Definition startBackend_handlers (windowOpen : bool) (life : Life)
  : list BackendStatus * bool :=
  match exit life with
  | None => ([], false)
  | Some (code, isQuitting) =>
      let '(_, messages, again) :=
        on_exit windowOpen isQuitting code (closure_after (stderr_data life)) in
      (messages, again)
  end.

(** The first call of [startBackend] and the calls its timers make:
    [lives] gives, in order, the life of the process each call spawns.  The
    messages of the ['exit'] handlers, oldest first. *)
Fixpoint supervise (windowOpen : bool) (lives : list Life) : list BackendStatus :=
  match lives with
  | [] => []
  | life :: rest =>
      let '(messages, again) := startBackend_handlers windowOpen life in
      (messages ++ (if again then supervise windowOpen rest else []))%list
  end.

(** The message sent after a failed attempt. *)
Definition loading (attempts : Z) : BackendStatus :=
  let minutes := (attempts * 2) / 60 in
  let seconds := (attempts * 2) mod 60 in
  {| status := "loading";
     status_message := "Starting backend... " ++ Js.show_Z minutes ++ "m "
                       ++ Js.show_Z seconds ++ "s (loading model...)";
     progress := Some (Z.min attempts 100) |}.

Definition process_exited (code : Z) : JsError :=
  ExecError ("Python process exited with code " ++ Js.show_Z code
             ++ ". Check logs for details.").

(** The [while (true)] of [waitForBackend(port)] after [attempts]
    attempts, on the list of [backend-status] messages sent so far.
    [fuel] bounds the attempts of this evaluation only. *)
Fixpoint waitForBackend_loop (B : Backend) (windowOpen : bool) (fuel attempts : nat)
  : Eff (list BackendStatus) bool :=
  match fuel with
  | O => settle Unfinished
  | S fuel' =>
      let attempts := S attempts in
      match exitCode B attempts with
      | Some code => throw (process_exited code)
      | None =>
          let again :=
            effect (fun sent => (sent ++ send windowOpen (loading (Z.of_nat attempts)))%list) ;;
            waitForBackend_loop B windowOpen fuel' attempts in
          match poll B attempts with
          | Answered statusCode => if statusCode =? 200 then ret true else again
          | Failed _ | TimedOut => again
          end
      end
  end.

Definition waitForBackend (B : Backend) (windowOpen : bool) (fuel : nat)
  : Eff (list BackendStatus) bool :=
  waitForBackend_loop B windowOpen fuel 0.

End Launcher.

(** ** [electron/setup.js]: the pip-based installer *)

Module LegacySetup.

Definition PYTHON_VERSION : string := "3.10.11".

Definition PYTHON_EMBED_URL : string :=
  "https://www.python.org/ftp/python/" ++ PYTHON_VERSION ++ "/python-" ++ PYTHON_VERSION
  ++ "-embed-amd64.zip".

Definition GET_PIP_URL : string := "https://bootstrap.pypa.io/get-pip.py".

(** The payload of a [setup-progress] message of this installer: the
    percentage is a number that need not be an integer. *)
Record Event : Type := {
  stage : string;
  percent : Q;
  text : string;
  log : option string }.

(** The disk and window of [World], the messages of this installer, and
    the error with which [fs.writeFileSync] throws on a file that cannot be
    written, such as one under the resources of a packaged application. *)
Record State : Type := {
  world : World;
  shown : list Event;
  write_error : string -> option string }.

Definition with_world (w : World) (s : State) : State :=
  {| world := w; shown := shown s; write_error := write_error s |}.

(** [{ model, useGpu }]; [model] can be absent. *)
Record Options : Type := {
  model : option string;
  useGpu : bool }.

Inductive Stream : Type := stdout | stderr.

(** How a spawned process ends: ['close'] with its exit code ([None] for
    [null]), ['error'], or neither of them, the process running on. *)
Inductive ProcEnd : Type :=
  | Closed (code : option Z)
  | SpawnFailed (msg : string)
  | NeverEnds.

(** A spawned process: its ['data'] events in order of arrival, the files
    it has written by the time its handlers are done (paths and contents,
    oldest first), and its end. *)
Record Spawned : Type := {
  output : list (Stream * string);
  written : list (string * string);
  finish : ProcEnd }.

(** A step on the disk and window alone. *)
Definition lift {A} (m : Promise A) : Eff State A :=
  fun s => let (r, w) := m (world s) in (r, with_world w s).

(** The sending part of [sendProgress]. *)
Definition report (stg : string) (pct : Q) (msg : string) (lg : option string)
    (s : State) : State :=
  if windowOpen (ui (world s))
  then {| world := world s;
          shown := shown s ++ [ {| stage := stg; percent := pct; text := msg; log := lg |} ];
          write_error := write_error s |}
  else s.

Definition sendProgress (stg : string) (pct : Q) (msg : string) (lg : option string)
  : Eff State unit :=
  effect (report stg pct msg lg).

(** [fs.writeFileSync(p, content)]. *)
Definition writeFileSync (p content : string) : Eff State unit :=
  fun s =>
    match write_error s p with
    | Some msg => throw (FsError msg) s
    | None => lift (writeFileSync p content) s
    end.

(** [Math.min(a, b)] *)
Definition Math_min (a b : Q) : Q := if Qle_bool a b then a else b.

(** The progress estimate of [runPipCommand] after one more line. *)
Definition estimate_after (progressEstimate : Q) (line : string) : Q :=
  if Js.includes "Downloading" line then Math_min (progressEstimate + (5 # 100)) (8 # 10)
  else if Js.includes "Installing collected" line then (9 # 10)%Q
  else if Js.includes "Successfully installed" line then 1%Q
  else progressEstimate.

(** [text.split('\n').filter(l => l.trim())] *)
Definition nonblank_lines (text : string) : list string :=
  List.filter (fun l => negb (String.eqb (Js.trim l) "")) (Js.split Js.newline text).

Definition is_digit (c : ascii) : bool :=
  let n := N_of_ascii c in ((48 <=? n) && (n <=? 57))%N.

(** [parseInt(msg.match(/(\d+)%/)[1])]: the value of the first run of
    digits that a [%] follows; [None] when there is no match.  [run] holds
    the digits read so far. *)
Fixpoint percent_in (msg : string) (run : option Z) : option Z :=
  match msg with
  | EmptyString => None
  | String c rest =>
      if is_digit c
      then percent_in rest (Some (10 * default 0 run + (Z.of_N (N_of_ascii c) - 48)))
      else match run with
           | Some pct => if Ascii.eqb c "%" then Some pct else percent_in rest None
           | None => percent_in rest None
           end
  end.

(** [modelMapping[modelId] || 'chatterbox-turbo'], for a [modelId] that is
    not the name of a member of [Object.prototype]. *)
Definition repo_of (modelId : option string) : string :=
  match modelId with
  | Some m =>
      if String.eqb m "turbo" then "chatterbox-turbo"
      else if String.eqb m "original" then "ResembleAI/chatterbox"
      else if String.eqb m "multilingual" then "chatterbox-multilingual"
      else "chatterbox-turbo"
  | None => "chatterbox-turbo"
  end.

Section SetupManager.

(** [spawn(command, args)], and [config.replace(/repo_id:\s*.+/, r)] whose
    matching is the regular expression engine's.  The streams that
    [downloadFile] opens are taken to accept what is piped into them, and
    what a command run through [execSync] writes is not followed. *)
Context (H : Host)
        (spawn : string -> list string -> Spawned)
        (replace_repo_id : string -> string -> string).

(** The files of a child process reach the disk. *)
Definition leave_files (proc : Spawned) : Eff State unit :=
  lift (effect (fun w =>
          with_fs (List.fold_left (fun m f => <[fst f := snd f]> m) (written proc) (fs w)) w)).

(** ['data'] on the response with [response.pipe(file)], chunk by chunk. *)
Fixpoint pipe (destPath : string) (progressCallback : option (Q -> State -> State))
    (totalSize : option Z) (cs : list string) (downloadedSize : Z) : Eff State unit :=
  match cs with
  | [] => ret tt
  | chunk :: rest =>
      let downloadedSize := downloadedSize + Z.of_nat (String.length chunk) in
      match progressCallback, totalSize with
      | Some cb, Some total =>
          if truthy_number totalSize
          then effect (cb (inject_Z downloadedSize / inject_Z total)%Q)
          else ret tt
      | _, _ => ret tt
      end ;;
      lift (write_chunk destPath chunk) ;;
      pipe destPath progressCallback totalSize rest downloadedSize
  end.

(** [handleDownload]: the promise resolves at the ['finish'] of the file;
    nothing listens to an error or a stall of the response, after which
    the promise stays unsettled.  [file.on('error', reject)] has nothing to
    report as long as the stream accepts what is piped into it. *)
Definition handleDownload (destPath : string)
    (progressCallback : option (Q -> State -> State)) (response : Response)
  : Eff State unit :=
  pipe destPath progressCallback (content_length response) (chunks response) 0 ;;
  match ending response with
  | EndOk => ret tt
  | EndError _ | EndStall => settle Pending
  end.

(** [downloadFile(url, destPath, progressCallback)]: the file is opened
    for writing before the request is made; one redirect is followed, and
    the request it makes has no ['error'] handler. *)
Definition downloadFile (url destPath : string)
    (progressCallback : option (Q -> State -> State)) : Eff State unit :=
  lift (createWriteStream destPath flag_w) ;;
  match http_get H url None with
  | ConnError msg => throw (StreamError msg)
  | NoAnswer => settle Pending
  | Responded response =>
      if (statusCode response =? 302) || (statusCode response =? 301) then
        match http_get H (location response) None with
        | Responded res => handleDownload destPath progressCallback res
        | ConnError _ | NoAnswer => settle Pending
        end
      else handleDownload destPath progressCallback response
  end.

(** PowerShell [Expand-Archive] through [execSync], on Windows only. *)
Definition extractZip (zipPath destDir : string) : Eff State unit :=
  if String.eqb (platform H) "win32"
  then lift (run_tool H (Expand_Archive H) zipPath destDir)
  else ret tt.

Definition run_command (cmd : string) : Eff State string :=
  match execSync H cmd with
  | Stdout out => ret out
  | ExecThrows msg => throw (ExecError msg)
  end.

Definition installPythonEmbedded : Eff State unit :=
  sendProgress "python" 5 "Downloading Python..." (Some "Starting Python download") ;;
  let zipPath := path_join H [dataDir H; "python.zip"] in
  downloadFile PYTHON_EMBED_URL zipPath
    (Some (fun progress =>
             report "python" (5 + progress * 10)
               ("Downloading Python... " ++ Js.show_Z (Js.Math_round (progress * 100)) ++ "%")
               None)) ;;
  sendProgress "python" 15 "Extracting Python..." (Some "Extracting Python archive") ;;
  extractZip zipPath (pythonDir H) ;;
  let pthFile := path_join H [pythonDir H; "python310._pth"] in
  (fun s =>
     if existsSync pthFile (world s) then
       (let* content := lift (readFileSync pthFile) in
        writeFileSync pthFile (Js.replace "#import site" "import site" content)) s
     else ret tt s) ;;
  sendProgress "python" 18 "Installing pip..." (Some "Downloading get-pip.py") ;;
  let getPipPath := path_join H [dataDir H; "get-pip.py"] in
  downloadFile GET_PIP_URL getPipPath (Some (fun _ s => s)) ;;
  let pythonExe := path_join H [pythonDir H; "python.exe"] in
  run_command (quote ++ pythonExe ++ quote ++ " " ++ quote ++ getPipPath ++ quote) ;;
  lift (unlinkSync zipPath) ;;
  lift (unlinkSync getPipPath) ;;
  sendProgress "python" 25 "Python installed" (Some "Python installation complete").

(** [this.findPython() || path.join(this.pythonDir, 'python.exe')] *)
Definition python_or_embedded (s : State) : string :=
  match Legacy.findPython H (world s) with
  | Some p => p
  | None => path_join H [pythonDir H; "python.exe"]
  end.

(** [lines.forEach] of [handleOutput], from the estimate reached so far. *)
Fixpoint handle_lines (progressCallback : option (Q -> string -> State -> State))
    (lines : list string) (progressEstimate : Q) : Eff State Q :=
  match lines with
  | [] => ret progressEstimate
  | line :: rest =>
      let progressEstimate := estimate_after progressEstimate line in
      match progressCallback with
      | Some cb => effect (cb progressEstimate (slice_last 100 line))
      | None => ret tt
      end ;;
      handle_lines progressCallback rest progressEstimate
  end.

(** [handleOutput] over the ['data'] events of both streams. *)
Fixpoint handle_output (progressCallback : option (Q -> string -> State -> State))
    (events : list (Stream * string)) (progressEstimate : Q) : Eff State Q :=
  match events with
  | [] => ret progressEstimate
  | (_, data) :: rest =>
      let* progressEstimate :=
        handle_lines progressCallback (nonblank_lines data) progressEstimate in
      handle_output progressCallback rest progressEstimate
  end.

(** [runPipCommand(pythonPath, args, progressCallback)]: resolves to
    [code === 0], and to [false] when the process cannot be spawned; the
    promise has no other way to settle. *)
Definition runPipCommand (pythonPath : string) (args : list string)
    (progressCallback : option (Q -> string -> State -> State)) : Eff State bool :=
  let proc := spawn pythonPath ("-m" :: "pip" :: args) in
  handle_output progressCallback (output proc) 0 ;;
  leave_files proc ;;
  match finish proc with
  | Closed code => ret (is_zero code)
  | SpawnFailed _ => ret false
  | NeverEnds => settle Pending
  end.

(** The callback [installDependencies] passes to [runPipCommand]. *)
Definition pip_progress (progress : Q) (message : string) : State -> State :=
  report "dependencies" (inject_Z (Js.Math_round (35 + progress * 35)))
    "Installing dependencies..." (Some message).

Definition installDependencies (useGpu : bool) : Eff State unit :=
  sendProgress "dependencies" 30 "Installing dependencies..." (Some "Starting pip install") ;;
  let* pythonPath := (fun s => (Resolved (python_or_embedded s), s)) in
  sendProgress "dependencies" 32 "Upgrading pip..." (Some "pip install --upgrade pip") ;;
  runPipCommand pythonPath ["install"; "--upgrade"; "pip"] None ;;
  sendProgress "dependencies" 35 "Installing dependencies (this may take a while)..."
    (Some "pip install -r requirements.txt") ;;
  let requirementsFile := if useGpu then "requirements-nvidia.txt" else "requirements.txt" in
  let reqPath := path_join H [backendDir H; requirementsFile] in
  fun s =>
    if existsSync reqPath (world s) then
      (runPipCommand pythonPath ["install"; "-r"; reqPath; "--no-cache-dir"]
         (Some pip_progress) ;;
       sendProgress "dependencies" 70 "Dependencies installed"
         (Some "All dependencies installed successfully")) s
    else
      sendProgress "dependencies" 70 "Requirements file not found"
        (Some ("Missing: " ++ reqPath)) s.

(** The ['data'] handlers of the download script, from the [lastProgress]
    reached so far. *)
Fixpoint on_model_output (events : list (Stream * string)) (lastProgress : Z)
  : Eff State Z :=
  match events with
  | [] => ret lastProgress
  | (stdout, msg) :: rest =>
      sendProgress "model" (inject_Z lastProgress) "Downloading model..."
        (Some (slice_last 100 msg)) ;;
      match percent_in msg None with
      | Some pct =>
          let lastProgress := Js.Math_round (80 + inject_Z pct * (15 # 100)) in
          sendProgress "model" (inject_Z lastProgress)
            ("Downloading model... " ++ Js.show_Z pct ++ "%") None ;;
          on_model_output rest lastProgress
      | None => on_model_output rest lastProgress
      end
  | (stderr, data) :: rest =>
      sendProgress "model" (inject_Z lastProgress) "Downloading model..."
        (Some (slice_last 100 data)) ;;
      on_model_output rest lastProgress
  end.

Definition downloadModel (modelId : option string) : Eff State unit :=
  sendProgress "model" 75 ("Downloading " ++ default "undefined" modelId ++ " model...")
    (Some "Starting model download") ;;
  let* pythonPath := (fun s => (Resolved (python_or_embedded s), s)) in
  let configPath := path_join H [backendDir H; "config.yaml"] in
  (fun s =>
     if existsSync configPath (world s) then
       (let* config := lift (readFileSync configPath) in
        writeFileSync configPath
          (replace_repo_id config ("repo_id: " ++ repo_of modelId))) s
     else ret tt s) ;;
  sendProgress "model" 80 "Downloading model (this may take several minutes)..."
    (Some "Starting model download") ;;
  let downloadScript := path_join H [backendDir H; "download_model.py"] in
  let proc := spawn pythonPath [downloadScript] in
  on_model_output (output proc) 80 ;;
  leave_files proc ;;
  match finish proc with
  | Closed code =>
      if is_zero code
      then sendProgress "model" 95 "Model downloaded" (Some "Model download complete")
      else sendProgress "model" 95 "Model will download on first use" (Some "Continuing...")
  | SpawnFailed msg =>
      sendProgress "model" 95 "Model will download on first use" (Some msg)
  | NeverEnds => settle Pending
  end.

(** The object written to [.setup-complete]; an absent [model] is left
    out by [JSON.stringify]. *)
Definition marker_object (options : Options) : json :=
  JObj ([ ("version", JStr "1.0.0") ] ++
        match model options with
        | Some m => [ ("model", JStr m) ]
        | None => []
        end ++
        [ ("useGpu", JBool (useGpu options)); ("timestamp", JStr (now_iso H)) ]).

Definition runSetup_body (options : Options) : Eff State bool :=
  (fun s =>
     match Legacy.findPython H (world s) with
     | None => installPythonEmbedded s
     | Some pythonPath =>
         sendProgress "python" 25 "Python already installed"
           (Some ("Found: " ++ pythonPath)) s
     end) ;;
  installDependencies (useGpu options) ;;
  downloadModel (model options) ;;
  writeFileSync (setupFlagPath H) (JSON_stringify H (marker_object options)) ;;
  sendProgress "complete" 100 "Setup complete!" (Some "VoiceCraft is ready to use") ;;
  ret true.

(** [runSetup(options)]: resolves to [{ success: true }]. *)
Definition runSetup (options : Options) : Eff State bool :=
  try_catch (runSetup_body options)
    (fun error =>
       sendProgress "error" 0 (message error) (Some (error_stack H error)) ;;
       throw error).

Definition isSetupComplete (s : State) : bool := existsSync (setupFlagPath H) (world s).

End SetupManager.

End LegacySetup.

(** ** Concrete hosts and worlds used as examples *)

Module Fixture.

(** JSON text of a value whose strings need no escaping and whose numbers
    are integers. *)
Fixpoint json_text (j : json) : string :=
  match j with
  | JNull => "null"
  | JBool b => if b then "true" else "false"
  | JNum q => Js.show_Z (Qfloor q)
  | JStr s => quote ++ s ++ quote
  | JArr items => "[" ++ String.concat "," (List.map json_text items) ++ "]"
  | JObj fields =>
      "{" ++ String.concat ","
               (List.map (fun f => quote ++ fst f ++ quote ++ ":" ++ json_text (snd f))
                         fields) ++ "}"
  end.

(** A parser that knows a finite set of documents by their text. *)
Definition parse_known {A} (text_of : A -> string) (known : list A) (s : string)
  : Parsed A :=
  match List.find (fun d => String.eqb (text_of d) s) known with
  | Some d => ParseOk d
  | None => SyntaxError "Unexpected token"
  end.

Definition archive_json (key : string) (a : ArchiveInfo) : string * json :=
  (key, JObj [ ("filename", JStr (filename a)); ("size", JNum (inject_Z (size a)));
               ("sha256", JStr (sha256 a)) ]).

(** The text of a manifest whose archives are listed in [keyed]. *)
Definition manifest_text (v : Z) (date : string) (keyed : list (string * ArchiveInfo))
  : string :=
  json_text (JObj [ ("version", JNum (inject_Z v)); ("buildDate", JStr date);
                    ("archives", JObj (List.map (fun ka => archive_json (fst ka) (snd ka))
                                                keyed)) ]).

Definition manifest_of (v : Z) (date : string) (keyed : list (string * ArchiveInfo))
  : Manifest :=
  {| version := v; buildDate := date; archives := list_to_map keyed |}.

Definition parse_manifest (v : Z) (date : string) (keyed : list (string * ArchiveInfo))
    (s : string) : Parsed Manifest :=
  if String.eqb s (manifest_text v date keyed) then ParseOk (manifest_of v date keyed)
  else SyntaxError "Unexpected token".

Definition backslash : string := String (ascii_of_N 92) "".

(** [path.join] and [path.basename] on plain segments, Windows style. *)
Definition join (parts : list string) : string := String.concat backslash parts.

Fixpoint basename (p : string) : string :=
  match p with
  | EmptyString => EmptyString
  | String c r =>
      if Js.includes backslash r then basename r else
      if Ascii.eqb c (ascii_of_N 92) then r else p
  end.

Definition ok_response (body : list string) : Reply :=
  Responded {| statusCode := 200; location := ""; content_length := None;
               chunks := body; ending := EndOk |}.

Definition status_response (status : Z) (body : list string) : Reply :=
  Responded {| statusCode := status; location := ""; content_length := None;
               chunks := body; ending := EndOk |}.

Definition redirect_to (status : Z) (target : string) : Reply :=
  Responded {| statusCode := status; location := target; content_length := None;
               chunks := []; ending := EndOk |}.

Definition unpack_ok : Unpacked := {| entries := []; failure := None |}.

(** A Windows host: the network, the child processes, the unpacking tools
    and the manifest parser are the parameters.  Its servers close the
    connection after a redirect. *)
Definition host (net : string -> option Z -> Reply) (exec : string -> ExecResult)
    (tar powershell : string -> Unpacked)
    (parse : string -> Parsed Manifest) (known : list json) : Host :=
  {| platform := "win32";
     userData := "C:" ++ backslash ++ "VoiceCraft";
     backendDir := "C:" ++ backslash ++ "app" ++ backslash ++ "backend";
     path_join := join;
     path_basename := basename;
     execSync := exec;
     http_get := net;
     JSON_parse_manifest := parse;
     JSON_parse := parse_known json_text known;
     JSON_stringify := json_text;
     ToNumber_text := fun _ => None;
     tar_exe := tar;
     Expand_Archive := powershell;
     now_iso := "2026-01-01T00:00:00.000Z";
     error_stack := fun e => "Error: " ++ message e;
     abort_called := fun _ => false;
     idle_timeout := fun _ => None |}.

Definition no_exec (cmd : string) : ExecResult := ExecThrows "command not found".
Definition offline (url : string) (range : option Z) : Reply := ConnError "ENOTFOUND".

Definition world0 : World :=
  {| fs := ∅; ui := {| windowOpen := true; sent := [] |}; aborted := false;
     progressCalls := [] |}.

Definition world_with (files : list (string * string)) : World :=
  with_fs (list_to_map files) world0.

(** *** Manifest endpoint answering with a redirect to a 404 page *)

Definition moved_url : string := "https://cdn.example/v1/manifest.json".

Definition empty_manifest_text : string := manifest_text 1 "2026-01-01" [].

Definition net_redirect_404_json (url : string) (range : option Z) : Reply :=
  if String.eqb url (manifest_url) then redirect_to 302 moved_url
  else if String.eqb url moved_url then status_response 404 [empty_manifest_text]
  else ConnError "ENOTFOUND".

Definition net_redirect_404_html (url : string) (range : option Z) : Reply :=
  if String.eqb url (manifest_url) then redirect_to 301 moved_url
  else if String.eqb url moved_url then status_response 404 ["<html>Not Found</html>"]
  else ConnError "ENOTFOUND".

Definition host_redirect_404_json : Host :=
  host net_redirect_404_json no_exec (fun _ => unpack_ok) (fun _ => unpack_ok)
       (parse_manifest 1 "2026-01-01" []) [].

Definition host_redirect_404_html : Host :=
  host net_redirect_404_html no_exec (fun _ => unpack_ok) (fun _ => unpack_ok)
       (parse_manifest 1 "2026-01-01" []) [].

(** *** A marker left by the pip-based installer *)

Definition legacy_marker : json :=
  JObj [ ("version", JStr "1.0.0"); ("model", JStr "turbo"); ("useGpu", JBool true);
         ("timestamp", JStr "2025-06-01T10:00:00.000Z") ].

Definition host_offline : Host :=
  host offline no_exec (fun _ => unpack_ok) (fun _ => unpack_ok)
       (parse_manifest 1 "2026-01-01" []) [legacy_marker].

Definition world_legacy_marker : World :=
  world_with [ (setupFlagPath host_offline, json_text legacy_marker) ].

End Fixture.

(** * Vocabulary of the statements

    Predicates on errors and digests, the worlds reached by a download, the
    relations between the world before and after a step, and the hosts and
    worlds on which the code is evaluated. *)

(** ** Digests and errors *)

Definition is_lower_hex (c : ascii) : bool :=
  let n := Z.of_N (N_of_ascii c) in
  ((48 <=? n) && (n <=? 57)) || ((97 <=? n) && (n <=? 102)).

Definition all_lower_hex (s : string) : Prop :=
  List.Forall (fun c => is_lower_hex c = true) (list_ascii_of_string s).

Definition is_network_error (e : JsError) : Prop :=
  match e with
  | ManifestHttpError _ | StreamError _ => True
  | _ => False
  end.

Definition is_parse_error (e : JsError) : Prop :=
  match e with
  | InvalidManifestJson _ => True
  | _ => False
  end.

Definition zero_file_world : World :=
  Fixture.world_with
    [ (Fixture.join [userData Fixture.host_offline; "python-core.zip"], "") ].

(** The first 12 characters are those of the SHA-256 of the empty file, the
    rest differs. *)
Definition near_miss_sha256 : string :=
  "e3b0c44298fc0000000000000000000000000000000000000000000000000000".

(** ** Worlds reached by a download *)

(** What [pump] does to the renderer and to the call history; the writes
    to the partial file are left out. *)
Fixpoint pump_observed (progressCb : option (Z -> Z -> Ui -> Ui)) (totalSize : option Z)
    (cs : list string) (downloaded : Z) (w : World) : World :=
  match cs with
  | [] => w
  | chunk :: rest =>
      let downloaded := downloaded + Z.of_nat (String.length chunk) in
      let w1 :=
        match progressCb, totalSize with
        | Some cb, Some total =>
            if truthy_number totalSize then
              with_progressCalls (progressCalls w ++ [(downloaded, total)])
                (with_ui (cb downloaded total (ui w)) w)
            else w
        | _, _ => w
        end in
      pump_observed progressCb totalSize rest downloaded w1
  end.

(** The content of the partial file right after [createWriteStream]. *)
Definition opened_content (p : string) (flags : OpenFlags) (w : World) : string :=
  match flags, fs w !! p with
  | flag_a, Some old => old
  | _, _ => ""
  end.

(** The world a response with status 200 or 206 leaves, however its stream
    ended: what was received is moved to the destination. *)
Definition received_world (destPath : string) (expectedSize : Z)
    (progressCb : option (Z -> Z -> Ui -> Ui)) (startByte : Z) (res : Response)
    (w : World) : World :=
  let p := partial_of destPath in
  let sb := startByte_after (statusCode res) startByte in
  let content := opened_content p (flags_for (statusCode res) sb) w
                 ++ Js.join_chunks (chunks res) in
  with_fs (<[destPath := content]> (delete p (delete destPath (<[p := content]> (fs w)))))
    (pump_observed progressCb (totalSize_of expectedSize res sb) (chunks res) sb w).

(** How a response with status 200 or 206 settles the promise. *)
Definition settled_by (res : Response) : outcome unit :=
  match ending res with
  | EndOk => Resolved tt
  | EndError msg => Rejected (StreamError msg)
  | EndStall => Rejected ConnectionTimedOut
  end.




(** The arguments of the [progressCb] calls made for the chunks [cs] when
    the count stands at [downloaded] before the first of them. *)
Fixpoint counted (total : Z) (cs : list string) (downloaded : Z) : list (Z * Z) :=
  match cs with
  | [] => []
  | chunk :: rest =>
      let downloaded := downloaded + Z.of_nat (String.length chunk) in
      (downloaded, total) :: counted total rest downloaded
  end.

(** The total announced to [progressCb] when nothing is kept from an
    earlier attempt: [expectedSize || parseInt(content-length) + 0]. *)
Definition announced_total (expectedSize : Z) (res : Response) : option Z :=
  if expectedSize =? 0 then content_length res else Some expectedSize.

(** The calls a download makes that counts [cs] from zero. *)
Definition calls_from_zero (progressCb : option (Z -> Z -> Ui -> Ui)) (expectedSize : Z)
    (res : Response) : list (Z * Z) :=
  match progressCb, announced_total expectedSize res with
  | Some _, Some total => if total =? 0 then [] else counted total (chunks res) 0
  | _, _ => []
  end.

(** [startByte] as [downloadFileWithResume] reads it from the disk. *)
Definition resume_point (w : World) (destPath : string) : Z :=
  match fs w !! partial_of destPath with
  | Some partial => Z.of_nat (String.length partial)
  | None => 0
  end.

(** The partial file does not already cover the expected size, so a
    request is made. *)
Definition issues_request (w : World) (destPath : string) (expectedSize : Z) : Prop :=
  fs w !! partial_of destPath = None \/
  expectedSize = 0 \/ resume_point w destPath < expectedSize.

(** ** Download servers *)

Definition archive_url : string := R2_BASE_URL ++ "/python-core.zip".
Definition zip_path : string := Fixture.join [userData Fixture.host_offline; "python-core.zip"].






(** A server without [Range] support: the whole file, status 200. *)
Definition net_ignores_range (url : string) (range : option Z) : Reply :=
  if String.eqb url archive_url then Fixture.ok_response ["ab"; "c"]
  else ConnError "ENOTFOUND".

Definition host_ignores_range : Host :=
  Fixture.host net_ignores_range Fixture.no_exec (fun _ => Fixture.unpack_ok)
    (fun _ => Fixture.unpack_ok) (Fixture.parse_manifest 1 "2026-01-01" []) [].

Definition world_partial (partial : string) : World :=
  Fixture.world_with [ (partial_of zip_path, partial) ].

(** ** The probe, block by block *)

Definition python_command (p : string) : string := quote ++ p ++ quote ++ " --version".
Definition gpu_name_command : string := "nvidia-smi --query-gpu=name --format=csv,noheader".
Definition gpu_vram_command : string :=
  "nvidia-smi --query-gpu=memory.total --format=csv,noheader,nounits".

(** The info object after the first [try ... catch]. *)
Definition after_python (H : Host) (pythonPath : option string) (i : SystemInfo)
  : SystemInfo :=
  match pythonPath with
  | Some p =>
      match execSync H (python_command p) with
      | Stdout version =>
          set_pythonVersion (Some (Js.trim (Js.replace "Python " "" version)))
            (set_hasPython true i)
      | ExecThrows _ => i
      end
  | None => i
  end.

(** The info object after the second [try ... catch]. *)
Definition after_gpu (H : Host) (i : SystemInfo) : SystemInfo :=
  if String.eqb (platform H) "win32" then
    match execSync H gpu_name_command with
    | Stdout nameResult =>
        if negb (String.eqb (Js.trim nameResult) "") then
          let named := set_gpuName (Some (first_line nameResult)) (set_hasNvidiaGpu true i) in
          match execSync H gpu_vram_command with
          | Stdout vramResult =>
              let vram := vram_GB (Js.parseInt (first_line vramResult)) in
              set_hasEnoughVram (at_least vram MIN_VRAM_GB) (set_gpuVram vram named)
          | ExecThrows _ => named
          end
        else i
    | ExecThrows _ => i
    end
  else i.

(** The info object after the third [try ... catch]. *)
Definition after_disk (H : Host) (enough : option Q -> bool) (i : SystemInfo)
  : SystemInfo :=
  if String.eqb (platform H) "win32" then
    match execSync H (wmic_command H) with
    | Stdout result =>
        match List.nth_error (Js.split Js.newline result) 1 with
        | Some line =>
            let freeGB := freeGB_tenths (Js.parseInt (Js.trim line)) in
            set_hasEnoughSpace (enough (freeGB_number freeGB))
              (set_availableSpace (show_freeGB freeGB ++ " GB") i)
        | None => i
        end
    | ExecThrows _ => i
    end
  else i.

Definition wmic_output (free : string) : string :=
  "FreeSpace  " ++ String Js.newline (free ++ "  " ++ String Js.newline "").

(** Only [wmic] works and reports [free] bytes. *)
Definition exec_disk (free : string) (cmd : string) : ExecResult :=
  if Js.startsWith "wmic" cmd then Stdout (wmic_output free)
  else ExecThrows "command not found".

Definition host_disk (free : string) : Host :=
  Fixture.host Fixture.offline (exec_disk free) (fun _ => Fixture.unpack_ok)
    (fun _ => Fixture.unpack_ok) (Fixture.parse_manifest 1 "2026-01-01" []) [].

(** The GPU name query works, the memory query does not. *)
Definition exec_gpu_name_only (cmd : string) : ExecResult :=
  if String.eqb cmd gpu_name_command
  then Stdout ("NVIDIA GeForce RTX 3060" ++ String Js.newline "")
  else ExecThrows "Command failed: nvidia-smi".

Definition host_gpu_name_only : Host :=
  Fixture.host Fixture.offline exec_gpu_name_only (fun _ => Fixture.unpack_ok)
    (fun _ => Fixture.unpack_ok) (Fixture.parse_manifest 1 "2026-01-01" []) [].

Definition GiB : Z := 1024 * 1024 * 1024.

(** ** Relations between the world before and after a step *)

(** [m] relates the world it starts in to the world it leaves, whatever
    its outcome. *)
Definition always {A} (R : World -> World -> Prop) (m : Promise A) : Prop :=
  forall w r w', m w = (r, w') -> R w w'.

(** The same for the runs of [m] that resolve. *)
Definition on_success {A} (R : World -> World -> Prop) (m : Promise A) : Prop :=
  forall w a w', m w = (Resolved a, w') -> R w w'.

(** The file at [q] is the same before and after. *)
Definition keeps (q : string) (w w' : World) : Prop := fs w' !! q = fs w !! q.

(** The archive kept at [zipPath] once a tool has unpacked [zip] into
    [destDir]: an entry written onto [zipPath] replaces it. *)
Definition archive_after (H : Host) (destDir zipPath : string) (u : Unpacked)
    (zip : string) : string :=
  List.fold_left
    (fun kept e => if String.eqb (path_join H [destDir; fst e]) zipPath then snd e else kept)
    (entries u) zip.

(** [extractZip zipPath destDir], the file at [zipPath] being [zip], writes
    the file at [q]: an entry of [tar.exe] lands on it or, [tar.exe] having
    failed, an entry of PowerShell, which reads the archive as [tar.exe]
    left it. *)
Definition unpacks_onto (H : Host) (destDir zipPath zip q : string) : Prop :=
  (exists e, In e (entries (tar_exe H zip)) /\ path_join H [destDir; fst e] = q) \/
  (failure (tar_exe H zip) <> None /\
   exists e,
     In e (entries (Expand_Archive H (archive_after H destDir zipPath (tar_exe H zip) zip))) /\
     path_join H [destDir; fst e] = q).

(** The archive [info] of a run stays clear of [q]: it is not downloaded
    onto [q], and the extraction of a file that carries the digest declared
    for it, the only files the run unpacks, does not write [q]. *)
Definition archive_clear_of (H : Host) (info : ArchiveInfo) (q : string) : Prop :=
  let zipPath := path_join H [dataDir H; filename info] in
  q <> zipPath /\ q <> partial_of zipPath /\
  forall zip, Sha256.hex zip = sha256 info -> ~ unpacks_onto H (dataDir H) zipPath zip q.

(** The same for every archive that a run with these options installs. *)
Definition run_clear_of (H : Host) (options : Options) (manifest : Manifest) (q : string)
  : Prop :=
  forall key info,
    In key (archiveKeys (useGpu options) manifest) ->
    archives manifest !! key = Some info ->
    archive_clear_of H info q.

(** The part of [runSetup] before the finalisation, for a fetched manifest. *)
Definition install_phase (H : Host) (fuel : nat) (options : Options) (manifest : Manifest)
  : Promise unit :=
  validate manifest (archiveKeys (useGpu options) manifest) ;;
  install_from H fuel manifest 0 (archiveKeys (useGpu options) manifest).

(** Nothing that this run of [runSetup] downloads or unpacks lands on the
    marker. *)
Definition marker_clear (H : Host) (options : Options) : Prop :=
  forall manifest,
    fetchManifest_outcome H = Resolved manifest ->
    run_clear_of H options manifest (setupFlagPath H).

(** [progressStart + dlPct * (progressEnd - progressStart) * 0.7] *)
Definition download_pct (pS pE downloaded total : Z) : Q :=
  (inject_Z pS + inject_Z downloaded / inject_Z total * inject_Z (pE - pS) * (7 # 10))%Q.

(** [climbs lo hi l]: [lo <= x1 <= x2 <= ... <= xn <= hi]. *)
Fixpoint climbs (lo hi : Z) (l : list Z) : Prop :=
  match l with
  | [] => lo <= hi
  | x :: rest => lo <= x /\ climbs x hi rest
  end.

(** A call of [progressCb] whose byte count does not exceed the total. *)
Definition within (c : Z * Z) : Prop := fst c <= snd c.

(** [emits lo hi w w']: with the window open, going from [w] to [w'] sends
    events whose percentages, provided every [progressCb] call made on the
    way was [within] its total, climb from [lo] to [hi]. *)
Definition emits (lo hi : Z) (w w' : World) : Prop :=
  windowOpen (ui w) = true ->
  windowOpen (ui w') = true /\
  exists (evs : list ProgressEvent) (calls : list (Z * Z)),
    sent (ui w') = (sent (ui w) ++ evs)%list /\
    progressCalls w' = (progressCalls w ++ calls)%list /\
    (List.Forall within calls -> climbs lo hi (List.map percent evs)).

(** Nothing is sent and no callback runs. *)
Definition silent (w w' : World) : Prop :=
  ui w' = ui w /\ progressCalls w' = progressCalls w.

(** The messages sent and the callbacks made between two worlds. *)
Definition new_events (w w' : World) : list ProgressEvent :=
  List.skipn (List.length (sent (ui w))) (sent (ui w')).

Definition new_calls (w w' : World) : list (Z * Z) :=
  List.skipn (List.length (progressCalls w)) (progressCalls w').

(** ** A download server for whole runs *)

Definition sha256_of_abc : string :=
  "ba7816bf8f01cfea414140de5dae2223b00361a396177a9cb410ff61f20015ad".

Definition abc_archive (name : string) (declared_size : Z) : ArchiveInfo :=
  {| filename := name; size := declared_size; sha256 := sha256_of_abc |}.

(** Four archives of three bytes each (the bytes [abc]). *)
Definition keyed_good : list (string * ArchiveInfo) :=
  [ ("python-core", abc_archive "python-core.zip" 3);
    ("pytorch-nvidia-cu121", abc_archive "pytorch-nvidia-cu121.zip" 3);
    ("packages", abc_archive "packages.zip" 3);
    ("models-turbo", abc_archive "models-turbo.zip" 3) ].

(** The same, the first archive being declared one byte long. *)
Definition keyed_small_size : list (string * ArchiveInfo) :=
  [ ("python-core", abc_archive "python-core.zip" 1);
    ("pytorch-nvidia-cu121", abc_archive "pytorch-nvidia-cu121.zip" 3);
    ("packages", abc_archive "packages.zip" 3);
    ("models-turbo", abc_archive "models-turbo.zip" 3) ].


(** The manifest at its URL, and the bytes [abc] in two chunks for every
    archive. *)
Definition net_cdn (keyed : list (string * ArchiveInfo)) (url : string) (range : option Z)
  : Reply :=
  if String.eqb url manifest_url
  then Fixture.ok_response [Fixture.manifest_text 1 "2026-01-01" keyed]
  else if Js.startsWith (R2_BASE_URL ++ "/") url then Fixture.ok_response ["ab"; "c"]
  else ConnError "ENOTFOUND".

Definition host_cdn (keyed : list (string * ArchiveInfo)) (tools : Unpacked) : Host :=
  Fixture.host (net_cdn keyed) Fixture.no_exec (fun _ => tools) (fun _ => tools)
    (Fixture.parse_manifest 1 "2026-01-01" keyed) [].

Definition gpu_options : Options := {| model := ""; useGpu := true |}.



(** The same host, [abort()] being called while the awaits selected by
    [calls] are pending. *)
Definition with_abort (H : Host) (calls : nat -> bool) : Host :=
  {| platform := platform H; userData := userData H; backendDir := backendDir H;
     path_join := path_join H; path_basename := path_basename H;
     execSync := execSync H; http_get := http_get H;
     JSON_parse_manifest := JSON_parse_manifest H; JSON_parse := JSON_parse H;
     JSON_stringify := JSON_stringify H; ToNumber_text := ToNumber_text H;
     tar_exe := tar_exe H; Expand_Archive := Expand_Archive H;
     now_iso := now_iso H; error_stack := error_stack H;
     abort_called := calls; idle_timeout := idle_timeout H |}.



(** A callback that leaves the renderer alone. *)
Definition quiet_callback : option (Z -> Z -> Ui -> Ui) := Some (fun _ _ u => u).

(** ** Single answers of the download server *)

(** One answer for the archive URL, whatever the [Range] header. *)
Definition net_answers (status : Z) (body : list string) (how : StreamEnd)
    (url : string) (range : option Z) : Reply :=
  if String.eqb url archive_url
  then Responded {| statusCode := status; location := ""; content_length := None;
                    chunks := body; ending := how |}
  else ConnError "ENOTFOUND".

Definition host_answers (status : Z) (body : list string) (how : StreamEnd) : Host :=
  Fixture.host (net_answers status body how) Fixture.no_exec (fun _ => Fixture.unpack_ok)
    (fun _ => Fixture.unpack_ok) (Fixture.parse_manifest 1 "2026-01-01" []) [].

(** What the partial file holds when a response starts to be written. *)
Definition kept_prefix (status : Z) (w : World) (destPath : string) : string :=
  if status =? 206 then default "" (fs w !! partial_of destPath) else "".

(** The rejection a request leads to when no body is accepted. *)
Definition refusal (reply : Reply) : JsError :=
  match reply with
  | ConnError msg => StreamError msg
  | NoAnswer => ConnectionTimedOut
  | Responded res => DownloadHttpError (statusCode res)
  end.

(** ** Unpacking *)

(** The disk after a tool has written its entries under [destDir]. *)
Definition unpacked (H : Host) (destDir : string) (u : Unpacked) (w : World) : World :=
  with_fs (List.fold_left (fun m e => <[path_join H [destDir; fst e] := snd e]> m)
             (entries u) (fs w)) w.

(** [tar.exe] unpacks one file and fails; PowerShell unpacks two. *)
Definition tar_partial : Unpacked :=
  {| entries := [("python.exe", "MZ")]; failure := Some "tar.exe: Unrecognized archive format" |}.

Definition powershell_full : Unpacked :=
  {| entries := [("python.exe", "MZ"); ("python310._pth", "#import site")];
     failure := None |}.

Definition host_tar_fails : Host :=
  Fixture.host Fixture.offline Fixture.no_exec (fun _ => tar_partial)
    (fun _ => powershell_full) (Fixture.parse_manifest 1 "2026-01-01" []) [].

Definition is_checksum_error (e : JsError) : Prop :=
  match e with
  | ChecksumMismatch _ _ _ => True
  | _ => False
  end.

(** [m] never rejects with a checksum error. *)
Definition no_checksum_error {A} (m : Promise A) : Prop :=
  forall w e w', m w = (Rejected e, w') -> ~ is_checksum_error e.

(** The archive [abc] declared with the digest of another file. *)
Definition keyed_bad_digest : list (string * ArchiveInfo) :=
  [ ("python-core",
     {| filename := "python-core.zip"; size := 3; sha256 := near_miss_sha256 |});
    ("pytorch-nvidia-cu121", abc_archive "pytorch-nvidia-cu121.zip" 3);
    ("packages", abc_archive "packages.zip" 3);
    ("models-turbo", abc_archive "models-turbo.zip" 3) ].

(** ** Whole runs *)

Definition has_archive (manifest : Manifest) (key : string) : bool :=
  match archives manifest !! key with
  | Some _ => true
  | None => false
  end.

(** The first key of the run that the manifest does not list. *)
Definition first_missing (manifest : Manifest) (useGpu : bool) : option string :=
  List.find (fun key => negb (has_archive manifest key)) (archiveKeys useGpu manifest).

(** A manifest without the [packages] archive. *)
Definition keyed_no_packages : list (string * ArchiveInfo) :=
  [ ("python-core", abc_archive "python-core.zip" 3);
    ("pytorch-nvidia-cu121", abc_archive "pytorch-nvidia-cu121.zip" 3);
    ("models-turbo", abc_archive "models-turbo.zip" 3) ].

Definition fetching_event : ProgressEvent :=
  {| stage := "python"; percent := 2; text := "Fetching package manifest...";
     log := Some "Connecting to download server" |}.

(** The event the [catch] of [runSetup] sends. *)
Definition error_event (H : Host) (e : JsError) : ProgressEvent :=
  {| stage := "error"; percent := 0; text := message e; log := Some (error_stack H e) |}.

(** The renderer after the messages [evs] went through the guard of
    [sendProgress], oldest first. *)
Definition posted (evs : list ProgressEvent) (u : Ui) : Ui :=
  List.fold_left (fun u ev => post ev u) evs u.

(** Between [w] and [w'] the renderer side changed by posted messages only. *)
Definition posts (w w' : World) : Prop := exists evs, ui w' = posted evs (ui w).

(** The download server of [host_cdn] and a [JSON.parse] that reads back
    the marker of a run with [gpu_options]. *)
Definition host_cdn_reading_marker : Host :=
  Fixture.host (net_cdn keyed_good) Fixture.no_exec (fun _ => Fixture.unpack_ok)
    (fun _ => Fixture.unpack_ok) (Fixture.parse_manifest 1 "2026-01-01" keyed_good)
    [ marker_object Fixture.host_offline gpu_options
        (Fixture.manifest_of 1 "2026-01-01" keyed_good) ].

Definition world_closed : World :=
  {| fs := ∅; ui := {| windowOpen := false; sent := [] |}; aborted := false;
     progressCalls := [] |}.

(** ** The probe with a GPU *)

(** [nvidia-smi] answers both queries. *)
Definition exec_gpu (name vramMB : string) (cmd : string) : ExecResult :=
  if String.eqb cmd gpu_name_command then Stdout (name ++ String Js.newline "")
  else if String.eqb cmd gpu_vram_command then Stdout (vramMB ++ String Js.newline "")
  else ExecThrows "command not found".

Definition host_gpu (name vramMB : string) : Host :=
  Fixture.host Fixture.offline (exec_gpu name vramMB) (fun _ => Fixture.unpack_ok)
    (fun _ => Fixture.unpack_ok) (Fixture.parse_manifest 1 "2026-01-01" []) [].

(** The marker file holds [content]. *)
Definition world_marker (H : Host) (content : string) : World :=
  Fixture.world_with [ (setupFlagPath H, content) ].

(** A host whose [JSON.parse] knows the documents [known]. *)
Definition host_knowing (known : list json) : Host :=
  Fixture.host Fixture.offline Fixture.no_exec (fun _ => Fixture.unpack_ok)
    (fun _ => Fixture.unpack_ok) (Fixture.parse_manifest 1 "2026-01-01" []) known.

(** A marker whose [setupVersion] is a text. *)
Definition marker_with_text_version : json :=
  JObj [ ("setupVersion", JStr "two"); ("model", JStr "turbo") ].

(** [data.setupVersion] of a parsed object. *)
Definition setupVersion_field (fields : list (string * json)) : option json :=
  option_map snd (List.find (fun f => String.eqb (fst f) "setupVersion") fields).

(** ** The launcher *)

(** The embedded Python and the one of the virtual environment, on
    Windows. *)
Definition embedded_python (H : Host) : string :=
  path_join H [userData H; "python"; "python.exe"].

Definition venv_python (H : Host) : string :=
  path_join H [userData H; "venv"; "Scripts"; "python.exe"].

(** The bare command [getPythonPath] falls back to. *)
Definition system_command (H : Host) : string :=
  if String.eqb (platform H) "win32" then "python" else "python3".

(** Everything the process wrote on its standard error, as the handler
    adds it up: each chunk trimmed and followed by a line feed. *)
Definition stderr_text (chunks : list string) : string :=
  Js.join_chunks (List.map (fun data => Js.trim data ++ String Js.newline "") chunks).

(** The process ends with a non-zero code, or by a signal, while the
    application is not quitting. *)
Definition crashes (life : Launcher.Life) : bool :=
  match Launcher.exit life with
  | Some (code, isQuitting) => negb (is_zero code) && negb isQuitting
  | None => false
  end.

(** At attempt [n] the loop of [waitForBackend] ends: the process has
    exited, or the request is answered with status 200. *)
Definition decisive (B : Launcher.Backend) (n : nat) : Prop :=
  Launcher.exitCode B n <> None \/ Launcher.poll B n = Launcher.Answered 200.

(** The messages sent after the attempts [1 .. n]. *)
Definition loading_messages (n : nat) : list Launcher.BackendStatus :=
  List.map (fun k => Launcher.loading (Z.of_nat k)) (List.seq 1 n).

(** A backend whose port never answers while the process stays alive. *)
Definition backend_loading_forever : Launcher.Backend :=
  {| Launcher.exitCode := fun _ => None;
     Launcher.poll := fun _ => Launcher.Failed "connect ECONNREFUSED 127.0.0.1" |}.

(** A backend that exits with code 1 before the third attempt; its port
    would answer 200. *)
Definition backend_exits_early : Launcher.Backend :=
  {| Launcher.exitCode := fun n => if (3 <=? n)%nat then Some 1 else None;
     Launcher.poll := fun n => if (3 <=? n)%nat then Launcher.Answered 200
                               else Launcher.TimedOut |}.

(** ** The pip-based installer *)

(** The response [downloadFile] saves: the one the redirect leads to when
    the first answer is a 301 or 302, the first answer otherwise. *)
Definition final_response (H : Host) (response : Response) : Reply :=
  if (statusCode response =? 302) || (statusCode response =? 301)
  then http_get H (location response) None
  else Responded response.

(** A progress callback that leaves the disk and the window alone. *)
Definition harmless (progressCallback : option (Q -> LegacySetup.State -> LegacySetup.State))
  : Prop :=
  match progressCallback with
  | Some cb => forall q s, LegacySetup.world (cb q s) = LegacySetup.world s
  | None => True
  end.

(** Between [s] and [s'] the disk and the window are related by [W], the
    files that cannot be written are the same, and the messages sent all
    satisfy [P]. *)
Definition evolves (W : World -> World -> Prop) (P : LegacySetup.Event -> Prop)
    (s s' : LegacySetup.State) : Prop :=
  W (LegacySetup.world s) (LegacySetup.world s') /\
  LegacySetup.write_error s' = LegacySetup.write_error s /\
  exists evs, LegacySetup.shown s' = (LegacySetup.shown s ++ evs)%list /\ List.Forall P evs.

(** Every process that [spawn] starts comes to an end. *)
Definition processes_end (spawn : string -> list string -> LegacySetup.Spawned) : Prop :=
  forall command args, LegacySetup.finish (spawn command args) <> LegacySetup.NeverEnds.

(** [r] is not a rejection: the promise is resolved, or it is pending
    behind a process that never ends. *)
Definition carried_on {A} (spawn : string -> list string -> LegacySetup.Spawned)
    (r : outcome A) : Prop :=
  (exists a, r = Resolved a) \/ (r = Pending /\ ~ processes_end spawn).

(** [m] is never rejected, and [evolves] the state. *)
Definition carries_on {A} (spawn : string -> list string -> LegacySetup.Spawned)
    (W : World -> World -> Prop) (P : LegacySetup.Event -> Prop)
    (m : Eff LegacySetup.State A) : Prop :=
  forall s, exists r s', m s = (r, s') /\ evolves W P s s' /\ carried_on spawn r.

Definition unchanged (w w' : World) : Prop := w' = w.

(** The window is as it was. *)
Definition same_window (w w' : World) : Prop := ui w' = ui w.

Definition between (lo hi : Q) (ev : LegacySetup.Event) : Prop :=
  (lo <= LegacySetup.percent ev /\ LegacySetup.percent ev <= hi)%Q.

Definition complete_event : LegacySetup.Event :=
  {| LegacySetup.stage := "complete"; LegacySetup.percent := 100;
     LegacySetup.text := "Setup complete!";
     LegacySetup.log := Some "VoiceCraft is ready to use" |}.

Definition legacy_state (w : World) : LegacySetup.State :=
  {| LegacySetup.world := w; LegacySetup.shown := [];
     LegacySetup.write_error := fun _ => None |}.

(** The resources of the application are read-only. *)
Definition read_only_backend (H : Host) (p : string) : option string :=
  if Js.startsWith (backendDir H) p
  then Some ("EPERM: operation not permitted, open " ++ p)
  else None.

(** The same with the resources of the application read-only. *)
Definition legacy_state_read_only (H : Host) (w : World) : LegacySetup.State :=
  {| LegacySetup.world := w; LegacySetup.shown := [];
     LegacySetup.write_error := read_only_backend H |}.

(** No process can be spawned. *)
Definition spawn_fails (command : string) (args : list string) : LegacySetup.Spawned :=
  {| LegacySetup.output := []; LegacySetup.written := [];
     LegacySetup.finish := LegacySetup.SpawnFailed "spawn ENOENT" |}.

(** [pip] prints its usual lines and exits with code 1. *)
Definition spawn_pip_fails (command : string) (args : list string) : LegacySetup.Spawned :=
  {| LegacySetup.output :=
       [ (LegacySetup.stdout, "Collecting torch" ++ String Js.newline "  Downloading torch.whl");
         (LegacySetup.stdout, "Installing collected packages: torch");
         (LegacySetup.stderr, "  Downloading numpy.whl" ++ String Js.newline "");
         (LegacySetup.stderr, "ERROR: No matching distribution found") ];
     LegacySetup.written :=
       [ (Fixture.join [backendDir Fixture.host_offline; "pip-log.txt"], "torch: failed") ];
     LegacySetup.finish := LegacySetup.Closed (Some 1) |}.

(** [pip] prints one line and hangs. *)
Definition spawn_hangs (command : string) (args : list string) : LegacySetup.Spawned :=
  {| LegacySetup.output := [ (LegacySetup.stdout, "Collecting torch") ];
     LegacySetup.written := [];
     LegacySetup.finish := LegacySetup.NeverEnds |}.

Definition no_replace (config replacement : string) : string := config.

Definition legacy_options : LegacySetup.Options :=
  {| LegacySetup.model := Some "turbo"; LegacySetup.useGpu := true |}.

(** A host whose [JSON.parse] reads back the marker of [legacy_options]. *)
Definition host_reading_legacy_marker : Host :=
  host_knowing [ LegacySetup.marker_object Fixture.host_offline legacy_options ].



(** The first message of [downloadModel]. *)
Definition model_download_event (modelId : option string) : LegacySetup.Event :=
  {| LegacySetup.stage := "model"; LegacySetup.percent := 75;
     LegacySetup.text := "Downloading " ++ default "undefined" modelId ++ " model...";
     LegacySetup.log := Some "Starting model download" |}.

(** [s] with the messages [evs] added when the window is open. *)
Definition reported (evs : list LegacySetup.Event) (s : LegacySetup.State)
  : LegacySetup.State :=
  if windowOpen (ui (LegacySetup.world s))
  then {| LegacySetup.world := LegacySetup.world s;
          LegacySetup.shown := (LegacySetup.shown s ++ evs)%list;
          LegacySetup.write_error := LegacySetup.write_error s |}
  else s.

(** A [config.yaml] is on disk besides the virtual environment. *)
Definition world_with_config : World :=
  Fixture.world_with
    [ (venv_python Fixture.host_offline, "MZ");
      (Fixture.join [backendDir Fixture.host_offline; "config.yaml"], "repo_id: x") ].

(** The virtual environment of the user-data directory and the
    requirements file are on disk. *)
Definition world_with_venv : World :=
  Fixture.world_with
    [ (venv_python Fixture.host_offline, "MZ");
      (Fixture.join [backendDir Fixture.host_offline; "requirements-nvidia.txt"], "torch") ].

Definition python_zip_path : string :=
  Fixture.join [userData Fixture.host_offline; "python.zip"].

(** The Python server answers 404 with an error page. *)
Definition net_python_404 (url : string) (range : option Z) : Reply :=
  if String.eqb url LegacySetup.PYTHON_EMBED_URL
  then Fixture.status_response 404 ["<html>"; "Not Found</html>"]
  else ConnError "ENOTFOUND".

Definition host_python_404 : Host :=
  Fixture.host net_python_404 Fixture.no_exec (fun _ => Fixture.unpack_ok)
    (fun _ => Fixture.unpack_ok) (Fixture.parse_manifest 1 "2026-01-01" []) [].

Definition config_path (H : Host) : string := path_join H [backendDir H; "config.yaml"].

Definition in_stage (name : string) (ev : LegacySetup.Event) : Prop :=
  LegacySetup.stage ev = name.

(** * Properties *)

(** ** The library functions on known values *)

Example sha256_constants :
  List.length Sha256.primes = 64%nat /\ List.last Sha256.primes 0 = 311 /\
  List.hd 0 Sha256.K = 0x428a2f98 /\ List.last Sha256.K 0 = 0xc67178f2 /\
  Sha256.ha Sha256.H0 = 0x6a09e667 /\ Sha256.hh Sha256.H0 = 0x5be0cd19.
Proof. vm_compute. repeat split. Qed.

Example sha256_empty :
  Sha256.hex "" = "e3b0c44298fc1c149afbf4c8996fb92427ae41e4649b934ca495991b7852b855".
Proof. vm_compute. reflexivity. Qed.

Example sha256_abc :
  Sha256.hex "abc" = "ba7816bf8f01cfea414140de5dae2223b00361a396177a9cb410ff61f20015ad".
Proof. vm_compute. reflexivity. Qed.

Example sha256_two_blocks :
  Sha256.hex "abcdbcdecdefdefgefghfghighijhijkijkljklmklmnlmnomnopnopq"
  = "248d6a61d20638b8e5c026930c3e6039a33ce45964ff2167f6ecedd419db06c1".
Proof. vm_compute. reflexivity. Qed.

Example show_Z_ex : Js.show_Z 1405 = "1405" /\ Js.show_Z 0 = "0" /\ Js.show_Z (-72) = "-72".
Proof. vm_compute. repeat split. Qed.

Example show_fixed1_ex : Js.show_fixed1 100 = "10.0" /\ Js.show_fixed1 27 = "2.7".
Proof. vm_compute. repeat split. Qed.

Example trim_split_ex :
  Js.trim (List.nth 1 (Js.split Js.newline
    ("FreeSpace  " ++ String Js.newline ("3221225472  " ++ String Js.newline ""))) "")
  = "3221225472".
Proof. vm_compute. reflexivity. Qed.

Example parseInt_ex :
  Js.parseInt " 8192 MiB" = Some 8192 /\ Js.parseInt "[N/A]" = None /\
  Js.parseInt "-12x" = Some (-12) /\ Js.parseInt "0x1f" = Some 31.
Proof. vm_compute. repeat split. Qed.

Example replace_ex :
  Js.replace "#import site" "import site" "python310.zip #import site #import site"
  = "python310.zip import site #import site".
Proof. vm_compute. reflexivity. Qed.

Example round_ex : Js.Math_round (131 # 2) = 66 /\ Js.toFixed_int 10 (199 # 20) = 100.
Proof. vm_compute. repeat split. Qed.

Example fixture_legacy_marker_text :
  Fixture.json_text Fixture.legacy_marker =
  "{" ++ quote ++ "version" ++ quote ++ ":" ++ quote ++ "1.0.0" ++ quote ++ "," ++
  quote ++ "model" ++ quote ++ ":" ++ quote ++ "turbo" ++ quote ++ "," ++
  quote ++ "useGpu" ++ quote ++ ":true," ++
  quote ++ "timestamp" ++ quote ++ ":" ++ quote ++ "2025-06-01T10:00:00.000Z" ++ quote ++ "}".
Proof. vm_compute. reflexivity. Qed.

Example fixture_paths :
  setupFlagPath Fixture.host_offline
  = "C:" ++ Fixture.backslash ++ "VoiceCraft" ++ Fixture.backslash ++ ".setup-complete" /\
  Fixture.basename (setupFlagPath Fixture.host_offline) = ".setup-complete".
Proof. vm_compute. split; reflexivity. Qed.

(** ** Digest format *)

Lemma hexdigit_lower_hex (x : Z) : is_lower_hex (Sha256.hexdigit (Z.land x 15)) = true.
Proof.
  change 15 with (Z.ones 4). rewrite Z.land_ones by lia.
  assert (Hb : 0 <= x mod 2 ^ 4 < 16) by (apply Z.mod_pos_bound; lia).
  set (d := x mod 2 ^ 4) in *.
  assert (Hd : d = 0 \/ d = 1 \/ d = 2 \/ d = 3 \/ d = 4 \/ d = 5 \/ d = 6 \/ d = 7 \/
               d = 8 \/ d = 9 \/ d = 10 \/ d = 11 \/ d = 12 \/ d = 13 \/ d = 14 \/ d = 15)
    by lia.
  repeat (destruct Hd as [-> | Hd]; [reflexivity |]). subst d; rewrite Hd; reflexivity.
Qed.

Lemma all_lower_hex_app (s t : string) :
  all_lower_hex s -> all_lower_hex t -> all_lower_hex (s ++ t).
Proof.
  unfold all_lower_hex. induction s as [| c s IH]; simpl; intros Hs Ht; [exact Ht |].
  inversion Hs; subst. constructor; auto.
Qed.

Lemma hex8_lower_hex (x : Z) : all_lower_hex (Sha256.hex8 x).
Proof.
  unfold all_lower_hex, Sha256.hex8; simpl.
  repeat (constructor; [apply hexdigit_lower_hex |]). constructor.
Qed.

Lemma hex8_length (x : Z) : String.length (Sha256.hex8 x) = 8%nat.
Proof. reflexivity. Qed.

Lemma string_app_cons (c : ascii) (s t : string) : String c s ++ t = String c (s ++ t).
Proof. reflexivity. Qed.

Lemma string_length_app (s t : string) :
  String.length (s ++ t) = (String.length s + String.length t)%nat.
Proof.
  induction s as [| c s IH]; [reflexivity |].
  rewrite string_app_cons. simpl. now rewrite IH.
Qed.

(** [digest('hex')] is always 64 characters out of [0-9a-f]. *)
Lemma sha256_hex_format (content : string) :
  String.length (Sha256.hex content) = 64%nat /\ all_lower_hex (Sha256.hex content).
Proof.
  unfold Sha256.hex, Sha256.hex_of_state. split.
  - rewrite !string_length_app, !hex8_length. reflexivity.
  - repeat (apply all_lower_hex_app; [apply hex8_lower_hex |]). apply hex8_lower_hex.
Qed.

(** ** Manifest fetch *)

(** Without a redirect the status is tested before the body is read. *)
Lemma fetchManifest_direct_non200 (H : Host) (res : Response) :
  http_get H manifest_url None = Responded res ->
  is_redirect (statusCode res) = false ->
  statusCode res <> 200 ->
  fetchManifest_outcome H = Rejected (ManifestHttpError (statusCode res)).
Proof.
  intros Hget Hred Hne. unfold fetchManifest_outcome. rewrite Hget, Hred.
  destruct (Z.eqb_spec (statusCode res) 200) as [E | E]; [contradiction | reflexivity].
Qed.

(** After a redirect the second response goes to [_readJson] whatever its
    status is. *)
Lemma fetchManifest_redirect_reads_body (H : Host) (res redirectRes : Response) :
  http_get H manifest_url None = Responded res ->
  is_redirect (statusCode res) = true ->
  http_get H (location res) None = Responded redirectRes ->
  fetchManifest_outcome H = _readJson H redirectRes.
Proof.
  intros Hget Hred Hget2. unfold fetchManifest_outcome. now rewrite Hget, Hred, Hget2.
Qed.

(** A parse error is reported exactly for a complete body that is not JSON. *)
Lemma readJson_parse_error (H : Host) (res : Response) (detail : string) :
  _readJson H res = Rejected (InvalidManifestJson detail) <->
  ending res = EndOk /\
  JSON_parse_manifest H (Js.join_chunks (chunks res)) = SyntaxError detail.
Proof.
  unfold _readJson. destruct (ending res); [| split; [discriminate | intros [? _]; discriminate] ..].
  destruct (JSON_parse_manifest H _); split.
  - discriminate.
  - intros [_ ?]; discriminate.
  - intros E; inversion E; auto.
  - intros [_ E]; inversion E; auto.
Qed.

(** Without a redirect, a parse error means status 200 and a complete body
    that is not JSON, and conversely. *)
Lemma fetchManifest_direct_parse_error (H : Host) (res : Response) (detail : string) :
  http_get H manifest_url None = Responded res ->
  is_redirect (statusCode res) = false ->
  (fetchManifest_outcome H = Rejected (InvalidManifestJson detail) <->
   statusCode res = 200 /\ ending res = EndOk /\
   JSON_parse_manifest H (Js.join_chunks (chunks res)) = SyntaxError detail).
Proof.
  intros Hget Hred. unfold fetchManifest_outcome. rewrite Hget, Hred.
  destruct (Z.eqb_spec (statusCode res) 200) as [E | E]; simpl.
  - rewrite readJson_parse_error. tauto.
  - split; [discriminate | intros [? _]; contradiction].
Qed.

(** C5 (code as it is): when the manifest endpoint answers 302 and the
    redirected response has status 404, [fetchManifest] does not reject with
    a network error: a 404 body that parses as a manifest resolves the
    promise, and a 404 page that is not JSON is reported as a parse error.
    The status test is made on the first response only. *)
Theorem fetchManifest_redirected_status_unchecked :
  fetchManifest_outcome Fixture.host_redirect_404_json
    = Resolved (Fixture.manifest_of 1 "2026-01-01" []) /\
  fetchManifest_outcome Fixture.host_redirect_404_html
    = Rejected (InvalidManifestJson "Unexpected token") /\
  ~ is_network_error (InvalidManifestJson "Unexpected token") /\
  is_parse_error (InvalidManifestJson "Unexpected token").
Proof.
  split; [vm_compute; reflexivity |]. split; [vm_compute; reflexivity |].
  split; [intros [] | exact I].
Qed.

(** ** Launch gate *)

(** [needsSetup] looks at the presence of the file only. *)
Lemma needsSetup_presence_only (H : Host) (w : World) :
  needsSetup H w = negb (existsSync (setupFlagPath H) w).
Proof. reflexivity. Qed.

Lemma needsSetup_present (H : Host) (w : World) (content : string) :
  fs w !! setupFlagPath H = Some content -> needsSetup H w = false.
Proof.
  intros E. rewrite needsSetup_presence_only. unfold existsSync. now rewrite E.
Qed.

(** [isSetupComplete] answers [true] only for a marker that parses and
    whose [setupVersion] is truthy and not below [SETUP_VERSION]. *)
Lemma isSetupComplete_true (H : Host) (w : World) :
  isSetupComplete H w = true <->
  exists content data v,
    fs w !! setupFlagPath H = Some content /\
    JSON_parse H content = ParseOk data /\
    get_setupVersion data = Some v /\
    truthy v = true /\ less_than H v (inject_Z SETUP_VERSION) = false.
Proof.
  unfold isSetupComplete. split.
  - destruct (fs w !! setupFlagPath H) as [content |]; [| discriminate].
    destruct (JSON_parse H content) as [data | ?] eqn:Ep; [| discriminate].
    destruct (get_setupVersion data) as [v |] eqn:Ev; [| discriminate].
    destruct (truthy v) eqn:Et; simpl; [| discriminate].
    destruct (less_than H v (inject_Z SETUP_VERSION)) eqn:El; [discriminate |].
    intros _. exists content, data, v. auto.
  - intros (content & data & v & -> & -> & -> & -> & ->). reflexivity.
Qed.

(** A numeric [setupVersion] passes exactly when it is at least 2. *)
Lemma isSetupComplete_numeric (H : Host) (w : World) (content : string)
    (fields : list (string * json)) (q : Q) :
  fs w !! setupFlagPath H = Some content ->
  JSON_parse H content = ParseOk (JObj fields) ->
  List.find (fun f => String.eqb (fst f) "setupVersion") fields
    = Some ("setupVersion", JNum q) ->
  isSetupComplete H w = Qle_bool (inject_Z SETUP_VERSION) q.
Proof.
  intros Hf Hp Hv. unfold isSetupComplete. rewrite Hf, Hp. simpl. rewrite Hv. simpl.
  unfold less_than. simpl.
  destruct (Qle_bool (inject_Z SETUP_VERSION) q) eqn:E; simpl.
  - assert (Hq : ~ (q == 0)%Q).
    { apply Qle_bool_iff in E. unfold SETUP_VERSION in E. intros Hz. rewrite Hz in E.
      revert E. unfold Qle; simpl. lia. }
    destruct (Qeq_bool q 0) eqn:Z0; [apply Qeq_bool_iff in Z0; contradiction |].
    reflexivity.
  - now rewrite orb_true_r.
Qed.

(** A marker without [setupVersion] is never accepted by [isSetupComplete]. *)
Lemma isSetupComplete_absent_version (H : Host) (w : World) (content : string)
    (fields : list (string * json)) :
  fs w !! setupFlagPath H = Some content ->
  JSON_parse H content = ParseOk (JObj fields) ->
  List.find (fun f => String.eqb (fst f) "setupVersion") fields = None ->
  isSetupComplete H w = false.
Proof.
  intros Hf Hp Hv. unfold isSetupComplete. rewrite Hf, Hp. simpl. now rewrite Hv.
Qed.

(** C7 (code as it is): with the marker written by the pip-based installer
    on disk (no [setupVersion] field), [needsSetup], the test made at launch,
    answers [false], so setup is not run again, although [isSetupComplete]
    rejects the same marker. *)
Theorem needsSetup_ignores_setupVersion :
  fs Fixture.world_legacy_marker !! setupFlagPath Fixture.host_offline
    = Some (Fixture.json_text Fixture.legacy_marker) /\
  needsSetup Fixture.host_offline Fixture.world_legacy_marker = false /\
  isSetupComplete Fixture.host_offline Fixture.world_legacy_marker = false.
Proof. repeat split; vm_compute; reflexivity. Qed.

(** ** Checksum *)

(** C6 (as stated) fails: for the empty file and an expected hash that
    agrees with its digest on the first 12 characters only, [verifyChecksum]
    rejects, and the two strings its error carries are equal to each other
    and are neither the expected hash nor the digest. *)
Lemma verifyChecksum_error_carries_prefixes_only :
  Sha256.hex "" <> near_miss_sha256 /\
  exists file e a,
    verifyChecksum Fixture.host_offline
      (Fixture.join [userData Fixture.host_offline; "python-core.zip"])
      near_miss_sha256 zero_file_world
    = (Rejected (ChecksumMismatch file e a), zero_file_world) /\
    e = a /\ e <> near_miss_sha256 /\ a <> Sha256.hex "".
Proof.
  split; [vm_compute; discriminate |].
  exists "python-core.zip", "e3b0c44298fc", "e3b0c44298fc".
  split; [vm_compute; reflexivity |].
  split; [reflexivity |]. split; vm_compute; discriminate.
Qed.

Lemma slice0_length (n : nat) (s : string) :
  (n <= String.length s)%nat -> String.length (Js.slice0 n s) = n.
Proof.
  unfold Js.slice0. revert s. induction n as [| n IH]; intros s Hn.
  - destruct s; reflexivity.
  - destruct s as [| c s]; simpl in *; [lia |]. rewrite IH; [reflexivity | lia].
Qed.

(** C6 (amended): for a readable file, [verifyChecksum] resolves exactly
    when the hexadecimal text of the file's SHA-256 digest (64 characters
    out of 0-9a-f) is equal, character for character, to the expected
    string; otherwise it rejects with an [Error] whose message is built from
    the file's base name and the first 12 characters of the expected string
    and of the digest. *)
Theorem verifyChecksum_resolves_iff_equal (H : Host) (filePath expected : string)
    (w : World) (content : string) :
  fs w !! filePath = Some content ->
  (verifyChecksum H filePath expected w = (Resolved true, w) <->
   Sha256.hex content = expected) /\
  (Sha256.hex content <> expected ->
   verifyChecksum H filePath expected w
   = (Rejected (ChecksumMismatch (path_basename H filePath) (Js.slice0 12 expected)
                  (Js.slice0 12 (Sha256.hex content))), w)) /\
  String.length (Sha256.hex content) = 64%nat /\
  all_lower_hex (Sha256.hex content) /\
  String.length (Js.slice0 12 (Sha256.hex content)) = 12%nat.
Proof.
  intros Hf. unfold verifyChecksum. rewrite Hf.
  destruct (String.eqb_spec (Sha256.hex content) expected) as [E | E].
  - split; [split; auto |]. split; [intros Hne; contradiction |].
    pose proof (sha256_hex_format content) as [Hl Hh].
    split; [exact Hl |]. split; [exact Hh |]. apply slice0_length. lia.
  - split; [split; [discriminate | contradiction] |]. split; [reflexivity |].
    pose proof (sha256_hex_format content) as [Hl Hh].
    split; [exact Hl |]. split; [exact Hh |]. apply slice0_length. lia.
Qed.

(** The statement on the empty file and a hash that leaves its digest after
    12 characters. *)
Lemma verifyChecksum_resolves_iff_equal_witness :
  (verifyChecksum Fixture.host_offline
     (Fixture.join [userData Fixture.host_offline; "python-core.zip"])
     near_miss_sha256 zero_file_world = (Resolved true, zero_file_world) <->
   Sha256.hex "" = near_miss_sha256) /\
  (Sha256.hex "" <> near_miss_sha256 ->
   verifyChecksum Fixture.host_offline
     (Fixture.join [userData Fixture.host_offline; "python-core.zip"])
     near_miss_sha256 zero_file_world
   = (Rejected (ChecksumMismatch
                  (path_basename Fixture.host_offline
                     (Fixture.join [userData Fixture.host_offline; "python-core.zip"]))
                  (Js.slice0 12 near_miss_sha256)
                  (Js.slice0 12 (Sha256.hex ""))), zero_file_world)) /\
  String.length (Sha256.hex "") = 64%nat /\
  all_lower_hex (Sha256.hex "") /\
  String.length (Js.slice0 12 (Sha256.hex "")) = 12%nat.
Proof.
  apply (verifyChecksum_resolves_iff_equal Fixture.host_offline
           (Fixture.join [userData Fixture.host_offline; "python-core.zip"])
           near_miss_sha256 zero_file_world "").
  vm_compute. reflexivity.
Defined.

(** A missing file rejects with the error of the read stream. *)
Lemma verifyChecksum_missing (H : Host) (filePath expected : string) (w : World) :
  fs w !! filePath = None ->
  exists msg, verifyChecksum H filePath expected w = (Rejected (FsError msg), w).
Proof. intros Hf. unfold verifyChecksum. rewrite Hf. eauto. Qed.

(** ** Resumable download *)

Lemma string_app_empty_r (s : string) : s ++ "" = s.
Proof.
  induction s as [| c s IH]; [reflexivity |].
  rewrite string_app_cons. now rewrite IH.
Qed.

Lemma string_app_assoc (s t u : string) : (s ++ t) ++ u = s ++ (t ++ u).
Proof.
  induction s as [| c s IH]; [reflexivity |].
  rewrite !string_app_cons. now rewrite IH.
Qed.

Lemma partial_of_ne (destPath : string) : partial_of destPath <> destPath.
Proof.
  unfold partial_of. intros E. apply (f_equal String.length) in E.
  rewrite string_length_app in E. simpl in E. lia.
Qed.

Lemma pump_observed_fs cb total cs d w : fs (pump_observed cb total cs d w) = fs w.
Proof.
  revert d w. induction cs as [| c cs IH]; intros d w; simpl; [reflexivity |].
  rewrite IH. destruct cb, total; try reflexivity.
  destruct (truthy_number _); reflexivity.
Qed.

Lemma pump_observed_with_fs cb total cs d g w :
  pump_observed cb total cs d (with_fs g w) = with_fs g (pump_observed cb total cs d w).
Proof.
  revert d w. induction cs as [| c cs IH]; intros d w; simpl; [reflexivity |].
  rewrite <- IH. f_equal. destruct cb, total; try reflexivity.
  destruct (truthy_number _); reflexivity.
Qed.

Lemma with_fs_id (w : World) : with_fs (fs w) w = w.
Proof. destruct w; reflexivity. Qed.

(** [pump] always runs to the end of the chunks; the partial file gets
    the chunks appended in order. *)
Lemma pump_run (p : string) cb total (cs : list string) (d : Z) (w : World) (old : string) :
  fs w !! p = Some old ->
  pump p cb total cs d w
  = (Resolved tt,
     with_fs (<[p := old ++ Js.join_chunks cs]> (fs w)) (pump_observed cb total cs d w)).
Proof.
  revert d w old. induction cs as [| c cs IH]; intros d w old Hp; simpl.
  - rewrite string_app_empty_r, insert_id by exact Hp. unfold ret. now rewrite with_fs_id.
  - set (d' := d + Z.of_nat (String.length c)).
    set (w1 := match cb, total with
               | Some f, Some t =>
                   if truthy_number total
                   then with_progressCalls (progressCalls w ++ [(d', t)])
                          (with_ui (f d' t (ui w)) w)
                   else w
               | _, _ => w
               end).
    assert (Hw1 : fs w1 = fs w).
    { subst w1. destruct cb, total; try reflexivity. destruct (truthy_number _); reflexivity. }
    assert (Hstep : (match cb, total with
                     | Some f, Some t =>
                         if truthy_number total
                         then effect (fun w0 : World =>
                                with_progressCalls (progressCalls w0 ++ [(d', t)])
                                  (with_ui (f d' t (ui w0)) w0))
                         else ret tt
                     | _, _ => ret tt
                     end) w = (Resolved tt, w1)).
    { subst w1. destruct cb, total; try reflexivity. destruct (truthy_number _); reflexivity. }
    unfold bind at 1. rewrite Hstep.
    unfold bind at 1. unfold write_chunk, effect at 1.
    rewrite Hw1, Hp. simpl default.
    rewrite (IH d' _ (old ++ c)) by (simpl; apply lookup_insert_eq).
    f_equal. rewrite pump_observed_with_fs. unfold with_fs at 1 2 3; simpl.
    rewrite insert_insert_eq, string_app_assoc. reflexivity.
Qed.

Lemma createWriteStream_run (p : string) (flags : OpenFlags) (w : World) :
  createWriteStream p flags w
  = (Resolved tt, with_fs (<[p := opened_content p flags w]> (fs w)) w).
Proof.
  unfold createWriteStream, effect, opened_content.
  destruct flags, (fs w !! p) eqn:E; try reflexivity.
  now rewrite insert_id by exact E; rewrite with_fs_id.
Qed.

(** The ['finish'] handler moves the partial file over the destination. *)
Lemma on_finish_run (destPath : string) (w : World) (c : string) :
  fs w !! partial_of destPath = Some c ->
  on_finish (partial_of destPath) destPath w
  = (Resolved tt,
     with_fs (<[destPath := c]> (delete (partial_of destPath) (delete destPath (fs w)))) w).
Proof.
  intros Hp. unfold on_finish, bind, existsSync.
  destruct (fs w !! destPath) eqn:Ed.
  - unfold unlinkSync. rewrite Ed. unfold renameSync. simpl fs.
    rewrite lookup_delete_ne by (apply not_eq_sym, partial_of_ne). rewrite Hp.
    reflexivity.
  - unfold ret, renameSync. rewrite Hp. now rewrite (delete_id _ destPath) by exact Ed.
Qed.

Lemma receive_bad_status destPath expectedSize cb startByte res w :
  statusCode res <> 200 -> statusCode res <> 206 ->
  receive (partial_of destPath) destPath expectedSize cb startByte res w
  = (Rejected (DownloadHttpError (statusCode res)), w).
Proof.
  intros H200 H206. unfold receive.
  destruct (Z.eqb_spec (statusCode res) 200); [contradiction |].
  destruct (Z.eqb_spec (statusCode res) 206); [contradiction |]. reflexivity.
Qed.

Lemma receive_pumped destPath expectedSize cb startByte res w :
  statusCode res = 200 \/ statusCode res = 206 ->
  let p := partial_of destPath in
  let sb := startByte_after (statusCode res) startByte in
  let content := opened_content p (flags_for (statusCode res) sb) w
                 ++ Js.join_chunks (chunks res) in
  let w2 := with_fs (<[p := content]> (fs w))
              (pump_observed cb (totalSize_of expectedSize res sb) (chunks res) sb w) in
  receive p destPath expectedSize cb startByte res w
  = match ending res with
    | EndOk => on_finish p destPath w2
    | EndError msg => rejected_then (StreamError msg) (on_finish p destPath) w2
    | EndStall => rejected_then ConnectionTimedOut (on_finish p destPath) w2
    end.
Proof.
  intros Hst p sb content w2. unfold receive.
  assert (Hguard : negb (statusCode res =? 200) && negb (statusCode res =? 206) = false).
  { destruct Hst as [-> | ->]; reflexivity. }
  rewrite Hguard. fold sb. fold p.
  unfold bind at 1. rewrite createWriteStream_run.
  unfold bind at 1.
  rewrite (pump_run p _ _ _ _ _ (opened_content p (flags_for (statusCode res) sb) w))
    by (simpl; apply lookup_insert_eq).
  rewrite pump_observed_with_fs. unfold with_fs at 1 2; simpl.
  rewrite insert_insert_eq. fold content.
  replace (with_fs (<[p:=content]> (fs w))
             (pump_observed cb (totalSize_of expectedSize res sb) (chunks res) sb w))
    with w2 by reflexivity.
  replace {| fs := <[p:=content]> (fs w);
             ui := ui (pump_observed cb (totalSize_of expectedSize res sb) (chunks res) sb w);
             aborted := aborted (pump_observed cb (totalSize_of expectedSize res sb)
                                   (chunks res) sb w);
             progressCalls := progressCalls
                                (pump_observed cb (totalSize_of expectedSize res sb)
                                   (chunks res) sb w) |}
    with w2 by reflexivity.
  destruct (ending res); reflexivity.
Qed.

(** Whatever the end of the stream, the ['finish'] handler has the last
    word on the disk. *)
Lemma receive_settled destPath expectedSize cb startByte res w :
  statusCode res = 200 \/ statusCode res = 206 ->
  receive (partial_of destPath) destPath expectedSize cb startByte res w
  = (settled_by res, received_world destPath expectedSize cb startByte res w).
Proof.
  intros Hst. rewrite receive_pumped by exact Hst. unfold settled_by, rejected_then.
  destruct (ending res);
    erewrite on_finish_run by (simpl; apply lookup_insert_eq);
    unfold received_world, with_fs; simpl; reflexivity.
Qed.

Lemma receive_ok destPath expectedSize cb startByte res w :
  statusCode res = 200 \/ statusCode res = 206 ->
  ending res = EndOk ->
  receive (partial_of destPath) destPath expectedSize cb startByte res w
  = (Resolved tt, received_world destPath expectedSize cb startByte res w).
Proof.
  intros Hst Hend. rewrite receive_settled by exact Hst. unfold settled_by.
  now rewrite Hend.
Qed.

(** A response that is not complete never resolves the promise. *)
Lemma receive_resolved_inv destPath expectedSize cb startByte res w w' :
  receive (partial_of destPath) destPath expectedSize cb startByte res w
  = (Resolved tt, w') ->
  (statusCode res = 200 \/ statusCode res = 206) /\ ending res = EndOk /\
  w' = received_world destPath expectedSize cb startByte res w.
Proof.
  intros Hr.
  assert (Hok : statusCode res = 200 \/ statusCode res = 206).
  { destruct (Z.eq_dec (statusCode res) 200) as [E200 | N200]; [now left |].
    destruct (Z.eq_dec (statusCode res) 206) as [E206 | N206]; [now right |].
    rewrite receive_bad_status in Hr by auto. discriminate. }
  rewrite receive_settled in Hr by exact Hok. unfold settled_by in Hr.
  destruct (ending res); inversion Hr; auto.
Qed.

Lemma received_world_dest destPath expectedSize cb startByte res w :
  fs (received_world destPath expectedSize cb startByte res w) !! destPath
  = Some (opened_content (partial_of destPath)
            (flags_for (statusCode res) (startByte_after (statusCode res) startByte)) w
          ++ Js.join_chunks (chunks res)).
Proof. unfold received_world. simpl. apply lookup_insert_eq. Qed.

Lemma received_world_partial destPath expectedSize cb startByte res w :
  fs (received_world destPath expectedSize cb startByte res w) !! partial_of destPath = None.
Proof.
  unfold received_world. simpl.
  rewrite lookup_insert_ne by (apply not_eq_sym, partial_of_ne). apply lookup_delete_eq.
Qed.

Lemma received_world_other destPath expectedSize cb startByte res w q :
  q <> destPath -> q <> partial_of destPath ->
  fs (received_world destPath expectedSize cb startByte res w) !! q = fs w !! q.
Proof.
  intros H1 H2. unfold received_world. simpl.
  rewrite lookup_insert_ne by auto. rewrite lookup_delete_ne by auto.
  rewrite lookup_delete_ne by auto. now rewrite lookup_insert_ne by auto.
Qed.

(** The calls of [progressCb] that [pump] adds to the history. *)
Lemma pump_observed_calls cb total cs d w :
  progressCalls (pump_observed cb total cs d w)
  = (progressCalls w ++
     match cb, total with
     | Some _, Some t => if t =? 0 then [] else counted t cs d
     | _, _ => []
     end)%list.
Proof.
  revert d w. induction cs as [| c cs IH]; intros d w; simpl.
  - destruct cb, total as [t |]; try destruct (t =? 0); now rewrite app_nil_r.
  - rewrite IH. destruct cb as [f |], total as [t |]; try reflexivity.
    unfold truthy_number. destruct (t =? 0); simpl; [reflexivity |].
    now rewrite <- app_assoc.
Qed.

Lemma totalSize_of_zero (expectedSize : Z) (res : Response) :
  totalSize_of expectedSize res 0 = announced_total expectedSize res.
Proof.
  unfold totalSize_of, announced_total. destruct (expectedSize =? 0); [| reflexivity].
  destruct (content_length res) as [c |]; simpl; [| reflexivity]. now rewrite Z.add_0_r.
Qed.

Lemma string_length_zero (s : string) : String.length s = 0%nat -> s = "".
Proof. destruct s; [reflexivity | discriminate]. Qed.

(** What a response is appended to: the bytes kept from before for status
    206, nothing for status 200. *)
Lemma opened_content_kept (w : World) (destPath : string) (status : Z) :
  status = 200 \/ status = 206 ->
  opened_content (partial_of destPath)
    (flags_for status (startByte_after status (resume_point w destPath))) w
  = kept_prefix status w destPath.
Proof.
  unfold opened_content, flags_for, startByte_after, kept_prefix, resume_point.
  intros [-> | ->]; simpl; [reflexivity |].
  destruct (fs w !! partial_of destPath) as [partial |] eqn:Ep; simpl; [| reflexivity].
  destruct (Z.ltb_spec 0 (Z.of_nat (String.length partial))); simpl; [reflexivity |].
  symmetry. apply string_length_zero. lia.
Qed.

Lemma not_a_redirect (status : Z) :
  status = 200 \/ status = 206 -> is_redirect status = false.
Proof. intros [-> | ->]; reflexivity. Qed.

(** *** Redirects *)














Lemma downloadFileWithResume_requests (H : Host) fuel url destPath expectedSize cb w :
  issues_request w destPath expectedSize ->
  downloadFileWithResume H fuel url destPath expectedSize cb w
  = makeRequest H fuel (partial_of destPath) destPath expectedSize cb
      (range_header (resume_point w destPath)) (resume_point w destPath) None url w.
Proof.
  unfold issues_request, downloadFileWithResume, resume_point.
  destruct (fs w !! partial_of destPath) as [partial |] eqn:Ep; [| reflexivity].
  intros [Hn | [Hz | Hlt]]; [discriminate | |].
  - subst. reflexivity.
  - destruct (Z.eqb_spec expectedSize 0); [reflexivity |]. simpl.
    destruct (Z.leb_spec expectedSize (Z.of_nat (String.length partial))); [lia | reflexivity].
Qed.


(** C3: a partial file of [k > 0] bytes is on disk, a ranged request is
    made and answered with status 200 and a complete body.  The promise
    resolves; the destination holds exactly the body, so that the partial
    file was opened for overwriting, and the partial file is gone; the
    calls of [progressCb] count the bytes of the body from zero, so that
    [startByte] was reset, against a total of [expectedSize] or of the
    [content-length] alone; no other file is touched. *)
Theorem resume_answered_200_overwrites (H : Host) (fuel : nat) (url destPath : string)
    (expectedSize : Z) (progressCb : option (Z -> Z -> Ui -> Ui)) (w : World)
    (partial : string) (res : Response) :
  fs w !! partial_of destPath = Some partial ->
  (0 < String.length partial)%nat ->
  expectedSize = 0 \/ Z.of_nat (String.length partial) < expectedSize ->
  http_get H url (Some (Z.of_nat (String.length partial))) = Responded res ->
  statusCode res = 200 ->
  ending res = EndOk ->
  exists w',
    downloadFileWithResume H (S fuel) url destPath expectedSize progressCb w
    = (Resolved tt, w') /\
    fs w' !! destPath = Some (Js.join_chunks (chunks res)) /\
    fs w' !! partial_of destPath = None /\
    progressCalls w'
    = (progressCalls w ++ calls_from_zero progressCb expectedSize res)%list /\
    (forall q, q <> destPath -> q <> partial_of destPath -> fs w' !! q = fs w !! q).
Proof.
  intros Hp Hk Hsize Hget Hst Hend.
  exists (received_world destPath expectedSize progressCb
            (Z.of_nat (String.length partial)) res w).
  assert (Hrp : resume_point w destPath = Z.of_nat (String.length partial))
    by (unfold resume_point; now rewrite Hp).
  split; [| split; [| split; [| split]]].
  - rewrite downloadFileWithResume_requests
      by (right; rewrite Hrp; destruct Hsize; [left | right]; assumption).
    rewrite Hrp. unfold range_header.
    destruct (Z.ltb_spec 0 (Z.of_nat (String.length partial))); [| lia].
    simpl. rewrite Hget.
    assert (Hred : is_redirect (statusCode res) = false) by now rewrite Hst.
    rewrite Hred. apply receive_ok; auto.
  - rewrite received_world_dest. rewrite Hst. reflexivity.
  - apply received_world_partial.
  - unfold received_world. rewrite Hst. simpl.
    rewrite pump_observed_calls, totalSize_of_zero. reflexivity.
  - intros q Hq1 Hq2. now apply received_world_other.
Qed.

Lemma makeRequest_resolved_inv (H : Host) fuel destPath S cb range sb timer u w w' :
  makeRequest H fuel (partial_of destPath) destPath S cb range sb timer u w
  = (Resolved tt, w') ->
  exists u' res,
    http_get H u' range = Responded res /\
    receive (partial_of destPath) destPath S cb sb res w = (Resolved tt, w').
Proof.
  revert timer u. induction fuel as [| fuel IH]; intros timer u Hr; simpl in Hr;
    [discriminate |].
  assert (Hhop : match http_get H u range with
                 | ConnError msg => throw (StreamError msg)
                 | NoAnswer => throw ConnectionTimedOut
                 | Responded res =>
                     if is_redirect (statusCode res)
                     then makeRequest H fuel (partial_of destPath) destPath S cb range sb
                            (earliest (elapse timer) (idle_timeout H u)) (location res)
                     else match elapse timer with
                          | Some O => rejected_then ConnectionTimedOut
                                        (receive (partial_of destPath) destPath S cb sb res)
                          | _ => receive (partial_of destPath) destPath S cb sb res
                          end
                 end w = (Resolved tt, w') ->
                 exists u' res,
                   http_get H u' range = Responded res /\
                   receive (partial_of destPath) destPath S cb sb res w = (Resolved tt, w')).
  { intros Hr'. destruct (http_get H u range) as [msg | | res] eqn:Hget; try discriminate.
    destruct (is_redirect (statusCode res)); [now apply IH in Hr' |].
    destruct (elapse timer) as [[| t] |]; try discriminate; eauto. }
  destruct timer as [[| t] |]; now apply Hhop.
Qed.

(** C2 (amended): when [downloadFileWithResume] resolves, the destination
    holds either the partial file that was already on disk, of a length at
    least the expected size (promoted without a request), or what a complete
    response delivered: the body alone for status 200, the previous partial
    file followed by the body for status 206.  Neither the length nor the
    digest is compared with the manifest by the download itself; the digest
    is the declared one once [verifyChecksum] has resolved on that file. *)
Theorem download_result_characterised (H : Host) (fuel : nat) (url destPath : string)
    (expectedSize : Z) (progressCb : option (Z -> Z -> Ui -> Ui)) (w w' : World) :
  downloadFileWithResume H fuel url destPath expectedSize progressCb w = (Resolved tt, w') ->
  exists content,
    fs w' !! destPath = Some content /\
    ((fs w !! partial_of destPath = Some content /\
      expectedSize <> 0 /\ expectedSize <= Z.of_nat (String.length content)) \/
     (exists u res,
        http_get H u (range_header (resume_point w destPath)) = Responded res /\
        ending res = EndOk /\
        ((statusCode res = 200 /\ content = Js.join_chunks (chunks res)) \/
         (statusCode res = 206 /\
          content = default "" (fs w !! partial_of destPath)
                    ++ Js.join_chunks (chunks res))))) /\
    (forall sha w'',
        verifyChecksum H destPath sha w' = (Resolved true, w'') ->
        Sha256.hex content = sha).
Proof.
  intros Hr.
  assert (Hverify : forall content, fs w' !! destPath = Some content ->
            forall sha w'', verifyChecksum H destPath sha w' = (Resolved true, w'') ->
                            Sha256.hex content = sha).
  { intros content Hc sha w'' Hv. unfold verifyChecksum in Hv. rewrite Hc in Hv.
    destruct (String.eqb_spec (Sha256.hex content) sha); [assumption | discriminate]. }
  destruct (fs w !! partial_of destPath) as [partial |] eqn:Ep.
  - destruct (negb (expectedSize =? 0) && (expectedSize <=? Z.of_nat (String.length partial)))
      eqn:Epromote.
    + (* promoted *)
      unfold downloadFileWithResume in Hr. rewrite Ep, Epromote in Hr.
      unfold renameSync in Hr. rewrite Ep in Hr. inversion Hr; subst w'; clear Hr.
      exists partial. simpl in *. rewrite lookup_insert_eq in Hverify.
      split; [apply lookup_insert_eq |]. split; [| now apply Hverify].
      left. apply andb_true_iff in Epromote as [Hnz Hle].
      split; [reflexivity |]. split.
      * intros ->. discriminate.
      * now apply Z.leb_le.
    + (* requested *)
      assert (Hreq : issues_request w destPath expectedSize).
      { right. unfold resume_point. rewrite Ep.
        apply andb_false_iff in Epromote as [Hz | Hlt].
        - left. apply negb_false_iff, Z.eqb_eq in Hz. exact Hz.
        - right. now apply Z.leb_gt. }
      rewrite downloadFileWithResume_requests in Hr by exact Hreq.
      apply makeRequest_resolved_inv in Hr as (u & res & Hget & Hrecv).
      apply receive_resolved_inv in Hrecv as (Hst & Hend & ->).
      eexists. split; [apply received_world_dest |].
      split; [| apply Hverify, received_world_dest].
      right. exists u, res. split; [exact Hget |]. split; [exact Hend |].
      unfold resume_point. rewrite Ep. simpl default.
      destruct Hst as [Hst | Hst]; rewrite Hst; [left | right]; split; auto.
      unfold startByte_after, flags_for, opened_content. simpl.
      destruct (Z.ltb_spec 0 (Z.of_nat (String.length partial))) as [Hpos | Hzero]; simpl.
      * now rewrite Ep.
      * rewrite (string_length_zero partial) by lia. reflexivity.
  - assert (Hreq : issues_request w destPath expectedSize) by (now left).
    rewrite downloadFileWithResume_requests in Hr by exact Hreq.
    apply makeRequest_resolved_inv in Hr as (u & res & Hget & Hrecv).
    apply receive_resolved_inv in Hrecv as (Hst & Hend & ->).
    eexists. split; [apply received_world_dest |].
    split; [| apply Hverify, received_world_dest].
    right. exists u, res. split; [exact Hget |]. split; [exact Hend |].
    unfold resume_point. rewrite Ep. simpl default.
    destruct Hst as [Hst | Hst]; rewrite Hst; [left | right];
      (split; [reflexivity |]);
      unfold startByte_after, flags_for, opened_content; simpl; rewrite ?Ep; reflexivity.
Qed.

(** *** Examples of downloads *)



(** A partial file of two bytes and a server without [Range] support that
    sends [abc]: the two calls count 2 and 3 bytes of 3. *)
Lemma resume_answered_200_overwrites_witness :
  exists w',
    downloadFileWithResume host_ignores_range 1 archive_url zip_path 3 quiet_callback
      (world_partial "zz") = (Resolved tt, w') /\
    fs w' !! zip_path = Some "abc" /\ fs w' !! partial_of zip_path = None /\
    progressCalls w' = [(2, 3); (3, 3)].
Proof.
  destruct (resume_answered_200_overwrites host_ignores_range 0 archive_url zip_path 3
              quiet_callback (world_partial "zz") "zz"
              {| statusCode := 200; location := ""; content_length := None;
                 chunks := ["ab"; "c"]; ending := EndOk |})
    as (w' & Hrun & Hdest & Hpartial & Hcalls & _).
  - vm_compute; reflexivity.
  - simpl; lia.
  - right; reflexivity.
  - vm_compute; reflexivity.
  - reflexivity.
  - reflexivity.
  - exists w'. repeat split; assumption.
Defined.

(** C2 (as stated) fails: the manifest declares 3 bytes with the digest of
    [abc]; a partial file of 4 bytes is on disk.  Without any request (the
    host is offline) the download resolves and the destination holds the 4
    bytes, whose digest is not the declared one. *)
Lemma promoted_partial_is_not_checked :
  exists w',
    downloadFileWithResume Fixture.host_offline 1 archive_url zip_path 3 None
      (world_partial "abcd") = (Resolved tt, w') /\
    fs w' !! zip_path = Some "abcd" /\
    Z.of_nat (String.length "abcd") <> 3 /\
    Sha256.hex "abcd" <> Sha256.hex "abc".
Proof.
  eexists. split; [vm_compute; reflexivity |].
  split; [vm_compute; reflexivity |].
  split; [vm_compute; discriminate | vm_compute; discriminate].
Qed.

(** The same download: the destination holds the body of the 200 answer. *)
Lemma download_result_characterised_witness :
  exists content,
    fs (snd (downloadFileWithResume host_ignores_range 1 archive_url zip_path 3 None
               (world_partial "zz"))) !! zip_path = Some content /\
    ((fs (world_partial "zz") !! partial_of zip_path = Some content /\
      3 <> 0 /\ 3 <= Z.of_nat (String.length content)) \/
     (exists u res,
        http_get host_ignores_range u
          (range_header (resume_point (world_partial "zz") zip_path)) = Responded res /\
        ending res = EndOk /\
        ((statusCode res = 200 /\ content = Js.join_chunks (chunks res)) \/
         (statusCode res = 206 /\
          content = default "" (fs (world_partial "zz") !! partial_of zip_path)
                    ++ Js.join_chunks (chunks res))))) /\
    (forall sha w'',
        verifyChecksum host_ignores_range zip_path sha
          (snd (downloadFileWithResume host_ignores_range 1 archive_url zip_path 3 None
                  (world_partial "zz"))) = (Resolved true, w'') ->
        Sha256.hex content = sha).
Proof.
  apply (download_result_characterised host_ignores_range 1 archive_url zip_path 3 None
           (world_partial "zz")).
  vm_compute. reflexivity.
Defined.

(** ** Rounding *)

Lemma Qfloor_ge_iff (n : Z) (x : Q) : n <= Qfloor x <-> (inject_Z n <= x)%Q.
Proof.
  split; intros Hn.
  - apply Qle_trans with (inject_Z (Qfloor x)); [| apply Qfloor_le].
    rewrite <- Zle_Qle. exact Hn.
  - assert (Hlt : (inject_Z n < inject_Z (Qfloor x + 1))%Q)
      by (eapply Qle_lt_trans; [exact Hn | apply Qlt_floor]).
    rewrite <- Zlt_Qlt in Hlt. lia.
Qed.

Lemma Math_round_mono (x y : Q) : (x <= y)%Q -> Js.Math_round x <= Js.Math_round y.
Proof.
  intros Hxy. unfold Js.Math_round. apply Qfloor_resp_le.
  apply Qplus_le_l. exact Hxy.
Qed.

Lemma Math_round_int (n : Z) : Js.Math_round (inject_Z n) = n.
Proof.
  unfold Js.Math_round.
  assert (Hlo : n <= Qfloor (inject_Z n + (1 # 2))).
  { apply Qfloor_ge_iff. rewrite <- (Qplus_0_r (inject_Z n)) at 1.
    apply Qplus_le_r. discriminate. }
  assert (Hhi : ~ (n + 1 <= Qfloor (inject_Z n + (1 # 2)))).
  { rewrite Qfloor_ge_iff. rewrite inject_Z_plus. intros Hc.
    apply Qplus_le_r in Hc. revert Hc. unfold Qle; simpl. lia. }
  lia.
Qed.

(** The number of tenths printed for [freeBytes] bytes reaches 100 (the
    text [10.0]) from 9.95 GiB on. *)
Lemma freeGB_tenths_threshold (freeBytes n : Z) :
  0 < n ->
  n <= Js.toFixed_int 10 (inject_Z freeBytes / inject_Z (1024 * 1024 * 1024)) <->
  (2 * n - 1) * (1024 * 1024 * 1024) <= 20 * freeBytes.
Proof.
  intros Hn. unfold Js.toFixed_int.
  destruct (Qle_bool 0 (inject_Z freeBytes / inject_Z (1024 * 1024 * 1024))) eqn:Hs.
  - rewrite Qfloor_ge_iff. unfold Qle, Qdiv, Qmult, Qinv, Qplus, inject_Z; simpl. lia.
  - assert (Hneg : freeBytes < 0).
    { destruct (Z.lt_ge_cases freeBytes 0) as [Hlt | Hge]; [exact Hlt |].
      assert (Hle : Qle_bool 0 (inject_Z freeBytes / inject_Z (1024 * 1024 * 1024)) = true).
      { apply Qle_bool_iff. unfold Qle, Qdiv, Qmult, Qinv, inject_Z; simpl. lia. }
      congruence. }
    split; [| lia].
    intros Hle.
    assert (Hpos : 0 <= Qfloor (- (inject_Z freeBytes / inject_Z (1024 * 1024 * 1024))
                                * inject_Z 10 + (1 # 2))).
    { apply Qfloor_ge_iff. unfold Qle, Qdiv, Qmult, Qinv, Qplus, Qopp, inject_Z; simpl. lia. }
    lia.
Qed.

(** ** The system probe *)

Lemma attempt_check_python (H : Host) (pythonPath : option string) (i : SystemInfo) :
  attempt (check_python H pythonPath) i = (Resolved tt, after_python H pythonPath i).
Proof.
  unfold attempt, try_catch, check_python, after_python, exec, python_command.
  destruct pythonPath as [p |]; [| reflexivity].
  unfold bind at 1. destruct (execSync H _); reflexivity.
Qed.

Lemma attempt_check_gpu (H : Host) (i : SystemInfo) :
  attempt (check_gpu H) i = (Resolved tt, after_gpu H i).
Proof.
  unfold attempt, try_catch, check_gpu, after_gpu, exec, gpu_name_command, gpu_vram_command.
  destruct (String.eqb (platform H) "win32"); [| reflexivity].
  unfold bind at 1. destruct (execSync H _) as [nameResult | ?]; [| reflexivity].
  unfold ret at 1. destruct (negb (String.eqb (Js.trim nameResult) "")); [| reflexivity].
  unfold bind, effect. simpl.
  destruct (execSync H _); reflexivity.
Qed.

Lemma attempt_check_disk (H : Host) (enough : option Q -> bool) (i : SystemInfo) :
  attempt (check_disk H enough) i = (Resolved tt, after_disk H enough i).
Proof.
  unfold attempt, try_catch, check_disk, after_disk, exec, parse_free_bytes.
  destruct (String.eqb (platform H) "win32"); [| reflexivity].
  unfold bind at 1. destruct (execSync H _) as [result | ?]; [| reflexivity].
  unfold ret at 1. unfold bind at 1.
  destruct (List.nth_error (Js.split Js.newline result) 1); reflexivity.
Qed.

(** [checkSystem] always resolves, with the three blocks applied in order. *)
Lemma checkSystem_resolved (H : Host) (w : World) :
  checkSystem H w
  = Resolved (after_disk H (fun freeGB => at_least freeGB MIN_FREE_SPACE_GB)
                (after_gpu H (after_python H (findPython H w) (initial_info H)))).
Proof.
  unfold checkSystem, checkSystem_run.
  unfold bind at 1. rewrite attempt_check_python.
  unfold bind at 1. rewrite attempt_check_gpu.
  rewrite attempt_check_disk. reflexivity.
Qed.

Lemma legacy_checkSystem_resolved (H : Host) (w : World) :
  Legacy.checkSystem H w
  = Resolved (after_disk H Legacy.more_than_5
                (after_gpu H (after_python H (Legacy.findPython H w) (initial_info H)))).
Proof.
  unfold Legacy.checkSystem, Legacy.checkSystem_run.
  unfold bind at 1. rewrite attempt_check_python.
  unfold bind at 1. rewrite attempt_check_gpu.
  rewrite attempt_check_disk. reflexivity.
Qed.

(** Each block writes its own fields only. *)
Lemma after_python_frame (H : Host) p i :
  hasNvidiaGpu (after_python H p i) = hasNvidiaGpu i /\
  gpuName (after_python H p i) = gpuName i /\
  gpuVram (after_python H p i) = gpuVram i /\
  hasEnoughVram (after_python H p i) = hasEnoughVram i /\
  hasEnoughSpace (after_python H p i) = hasEnoughSpace i /\
  availableSpace (after_python H p i) = availableSpace i.
Proof.
  unfold after_python. destruct p; [| repeat split].
  destruct (execSync H _); repeat split.
Qed.

Lemma after_gpu_frame (H : Host) i :
  hasPython (after_gpu H i) = hasPython i /\
  pythonVersion (after_gpu H i) = pythonVersion i /\
  hasEnoughSpace (after_gpu H i) = hasEnoughSpace i /\
  availableSpace (after_gpu H i) = availableSpace i.
Proof.
  unfold after_gpu. destruct (String.eqb _ _); [| repeat split].
  destruct (execSync H gpu_name_command); [| repeat split].
  destruct (negb _); [| repeat split].
  destruct (execSync H gpu_vram_command); repeat split.
Qed.

Lemma after_disk_frame (H : Host) enough i :
  hasPython (after_disk H enough i) = hasPython i /\
  pythonVersion (after_disk H enough i) = pythonVersion i /\
  hasNvidiaGpu (after_disk H enough i) = hasNvidiaGpu i /\
  gpuName (after_disk H enough i) = gpuName i /\
  gpuVram (after_disk H enough i) = gpuVram i /\
  hasEnoughVram (after_disk H enough i) = hasEnoughVram i.
Proof.
  unfold after_disk. destruct (String.eqb _ _); [| repeat split].
  destruct (execSync H _); [| repeat split].
  destruct (List.nth_error _ _); repeat split.
Qed.

Lemma hasEnoughSpace_set (b : bool) (i : SystemInfo) :
  hasEnoughSpace (set_hasEnoughSpace b i) = b.
Proof. reflexivity. Qed.

Lemma at_least_tenths (t n : Z) :
  at_least (freeGB_number (Some t)) n = (10 * n <=? t).
Proof.
  unfold at_least, freeGB_number. simpl.
  destruct (Z.leb_spec (10 * n) t) as [Hle | Hgt].
  - apply Qle_bool_iff. unfold Qle, Qdiv, Qmult, Qinv, inject_Z; simpl. lia.
  - destruct (Qle_bool (inject_Z n) (inject_Z t / 10)) eqn:E; [| reflexivity].
    apply Qle_bool_iff in E. revert E.
    unfold Qle, Qdiv, Qmult, Qinv, inject_Z; simpl. lia.
Qed.

Lemma more_than_5_tenths (t : Z) :
  Legacy.more_than_5 (freeGB_number (Some t)) = (51 <=? t).
Proof.
  unfold Legacy.more_than_5, freeGB_number. simpl.
  destruct (Z.leb_spec 51 t) as [Hle | Hgt].
  - apply negb_true_iff. destruct (Qle_bool (inject_Z t / 10) 5) eqn:E; [| reflexivity].
    apply Qle_bool_iff in E. revert E.
    unfold Qle, Qdiv, Qmult, Qinv, inject_Z; simpl. lia.
  - apply negb_false_iff. apply Qle_bool_iff.
    unfold Qle, Qdiv, Qmult, Qinv, inject_Z; simpl. lia.
Qed.

(** *** Free disk space *)

(** C8 (as stated) fails: with 10 700 000 000 bytes free, less than 10 GiB,
    the probe prints [10.0 GB] and reports [hasEnoughSpace: true]; and with
    10 200 000 000 bytes free, more than ten thousand million bytes, it
    prints [9.5 GB] and reports [false]. *)
Lemma hasEnoughSpace_true_below_10GB :
  10700000000 < MIN_FREE_SPACE_GB * GiB /\
  (exists info,
     checkSystem (host_disk "10700000000") Fixture.world0 = Resolved info /\
     hasEnoughSpace info = true /\ availableSpace info = "10.0 GB") /\
  MIN_FREE_SPACE_GB * 1000000000 <= 10200000000 /\
  (exists info,
     checkSystem (host_disk "10200000000") Fixture.world0 = Resolved info /\
     hasEnoughSpace info = false /\ availableSpace info = "9.5 GB").
Proof.
  split; [reflexivity |]. split.
  - eexists. split; [vm_compute; reflexivity |]. split; reflexivity.
  - split; [discriminate |]. eexists. split; [vm_compute; reflexivity |].
    split; reflexivity.
Qed.

(** C8 (amended): on Windows, when [wmic] answers and its second line
    parses to [freeBytes], [checkSystem] reports [hasEnoughSpace] true
    exactly when the free space printed with one decimal is at least 10.0,
    that is from 9.95 GiB on ([20 * freeBytes >= 199 * 2^30]); the text
    reported is that rounded number followed by [GB]. *)
Theorem hasEnoughSpace_rounded_threshold (H : Host) (w : World) (result line : string)
    (freeBytes : Z) :
  platform H = "win32" ->
  execSync H (wmic_command H) = Stdout result ->
  List.nth_error (Js.split Js.newline result) 1 = Some line ->
  Js.parseInt (Js.trim line) = Some freeBytes ->
  exists info,
    checkSystem H w = Resolved info /\
    (hasEnoughSpace info = true <-> 199 * GiB <= 20 * freeBytes) /\
    availableSpace info
    = Js.show_fixed1 (Js.toFixed_int 10 (inject_Z freeBytes / inject_Z GiB)) ++ " GB".
Proof.
  intros Hwin Hexec Hline Hparse. eexists. split; [apply checkSystem_resolved |].
  unfold after_disk. rewrite Hwin, Hexec, Hline, Hparse. simpl String.eqb. cbv iota.
  unfold freeGB_tenths. simpl option_map. split; [| reflexivity].
  rewrite hasEnoughSpace_set, at_least_tenths, Z.leb_le.
  unfold MIN_FREE_SPACE_GB. change (10 * 10) with 100.
  rewrite (freeGB_tenths_threshold freeBytes 100) by lia. unfold GiB. lia.
Qed.

(** [wmic] reporting 3 GiB free. *)
Lemma hasEnoughSpace_rounded_threshold_witness :
  exists info,
    checkSystem (host_disk "3221225472") Fixture.world0 = Resolved info /\
    (hasEnoughSpace info = true <-> 199 * GiB <= 20 * 3221225472) /\
    availableSpace info
    = Js.show_fixed1 (Js.toFixed_int 10 (inject_Z 3221225472 / inject_Z GiB)) ++ " GB".
Proof.
  apply (hasEnoughSpace_rounded_threshold (host_disk "3221225472") Fixture.world0
           (wmic_output "3221225472") "3221225472  " 3221225472).
  - reflexivity.
  - vm_compute; reflexivity.
  - vm_compute; reflexivity.
  - vm_compute; reflexivity.
Defined.

(** With 3 GiB free the answer is [false] and the text is [3.0 GB]. *)
Example three_GB_is_not_enough :
  exists info,
    checkSystem (host_disk "3221225472") Fixture.world0 = Resolved info /\
    hasEnoughSpace info = false /\ availableSpace info = "3.0 GB".
Proof. eexists. split; [vm_compute; reflexivity |]. split; reflexivity. Qed.

(** The probe of [electron/setup.js] asks for more than 5.0 after rounding,
    that is from 5.05 GiB on. *)
Lemma legacy_hasEnoughSpace_threshold (H : Host) (w : World) (result line : string)
    (freeBytes : Z) :
  platform H = "win32" ->
  execSync H (wmic_command H) = Stdout result ->
  List.nth_error (Js.split Js.newline result) 1 = Some line ->
  Js.parseInt (Js.trim line) = Some freeBytes ->
  exists info,
    Legacy.checkSystem H w = Resolved info /\
    (hasEnoughSpace info = true <-> 101 * GiB <= 20 * freeBytes).
Proof.
  intros Hwin Hexec Hline Hparse. eexists. split; [apply legacy_checkSystem_resolved |].
  unfold after_disk. rewrite Hwin, Hexec, Hline, Hparse. simpl String.eqb. cbv iota.
  unfold freeGB_tenths. simpl option_map.
  rewrite hasEnoughSpace_set, more_than_5_tenths, Z.leb_le.
  rewrite (freeGB_tenths_threshold freeBytes 51) by lia. unfold GiB. lia.
Qed.

(** C9 (as stated) fails: the GPU block throws (the memory query fails
    after the name query has answered), and the info object keeps
    [hasNvidiaGpu: true] and the name instead of the defaults. *)
Lemma gpu_check_failure_keeps_name :
  (exists e i, check_gpu host_gpu_name_only (initial_info host_gpu_name_only)
               = (Rejected e, i)) /\
  exists info,
    checkSystem host_gpu_name_only Fixture.world0 = Resolved info /\
    hasNvidiaGpu info = true /\
    gpuName info = Some "NVIDIA GeForce RTX 3060" /\
    hasNvidiaGpu (initial_info host_gpu_name_only) = false.
Proof.
  split.
  - eexists. eexists. vm_compute. reflexivity.
  - eexists. split; [vm_compute; reflexivity |]. repeat split.
Qed.

(** C9 (amended): [checkSystem] always resolves.  When no Python is found
    or its version command throws, [hasPython] and [pythonVersion] keep
    their defaults; when the GPU name query throws, all four GPU fields keep
    their defaults; when only the memory query throws, [gpuVram] and
    [hasEnoughVram] keep their defaults (the name already found stays);
    when [wmic] throws or prints a single line, [hasEnoughSpace] stays
    [true] and [availableSpace] stays [Unknown]; off Windows the GPU and
    disk fields are never touched. *)
Theorem checkSystem_never_raises (H : Host) (w : World) :
  exists info,
    checkSystem H w = Resolved info /\
    ((findPython H w = None \/
      exists p msg, findPython H w = Some p /\
                    execSync H (python_command p) = ExecThrows msg) ->
     hasPython info = false /\ pythonVersion info = None) /\
    ((exists msg, execSync H gpu_name_command = ExecThrows msg) ->
     hasNvidiaGpu info = false /\ gpuName info = None /\
     gpuVram info = Some 0%Q /\ hasEnoughVram info = false) /\
    ((exists msg, execSync H gpu_vram_command = ExecThrows msg) ->
     gpuVram info = Some 0%Q /\ hasEnoughVram info = false) /\
    (((exists msg, execSync H (wmic_command H) = ExecThrows msg) \/
      (exists result, execSync H (wmic_command H) = Stdout result /\
                      List.nth_error (Js.split Js.newline result) 1 = None)) ->
     hasEnoughSpace info = true /\ availableSpace info = "Unknown") /\
    (platform H <> "win32" ->
     hasNvidiaGpu info = false /\ gpuName info = None /\
     gpuVram info = Some 0%Q /\ hasEnoughVram info = false /\
     hasEnoughSpace info = true /\ availableSpace info = "Unknown").
Proof.
  eexists. split; [apply checkSystem_resolved |].
  set (i1 := after_python H (findPython H w) (initial_info H)).
  set (i2 := after_gpu H i1).
  pose proof (after_python_frame H (findPython H w) (initial_info H))
    as (Pg & Pn & Pv & Pe & Ps & Pa). fold i1 in Pg, Pn, Pv, Pe, Ps, Pa.
  pose proof (after_gpu_frame H i1) as (Gp & Gv & Gs & Ga). fold i2 in Gp, Gv, Gs, Ga.
  pose proof (after_disk_frame H (fun freeGB => at_least freeGB MIN_FREE_SPACE_GB) i2)
    as (Dp & Dv & Dg & Dn & Dr & De).
  rewrite Dp, Dv, Dg, Dn, Dr, De, Gp, Gv.
  split; [| split; [| split; [| split]]].
  - intros Hpy. subst i1. unfold after_python.
    destruct Hpy as [-> | (p & msg & -> & ->)]; split; reflexivity.
  - intros [msg Hname]. subst i2. unfold after_gpu. rewrite Hname.
    destruct (String.eqb (platform H) "win32"); rewrite Pg, Pn, Pv, Pe; repeat split.
  - intros [msg Hvram]. subst i2. unfold after_gpu. rewrite Hvram.
    destruct (String.eqb (platform H) "win32"); [| rewrite Pv, Pe; split; reflexivity].
    destruct (execSync H gpu_name_command); [| rewrite Pv, Pe; split; reflexivity].
    destruct (negb _); simpl; rewrite Pv, Pe; split; reflexivity.
  - intros Hdisk. unfold after_disk.
    destruct (String.eqb (platform H) "win32");
      [| rewrite Gs, Ga, Ps, Pa; split; reflexivity].
    destruct Hdisk as [[msg ->] | (result & -> & ->)];
      rewrite Gs, Ga, Ps, Pa; split; reflexivity.
  - intros Hplat.
    assert (Hneq : String.eqb (platform H) "win32" = false)
      by (apply String.eqb_neq; exact Hplat).
    unfold after_disk. subst i2. unfold after_gpu. rewrite Hneq.
    rewrite Pg, Pn, Pv, Pe, Ps, Pa. repeat split.
Qed.

(** ** Reasoning about promises *)

Lemma bind_resolved_inv {A B} (m : Promise A) (k : A -> Promise B) w b w' :
  bind m k w = (Resolved b, w') ->
  exists a w1, m w = (Resolved a, w1) /\ k a w1 = (Resolved b, w').
Proof.
  unfold bind. destruct (m w) as [[a | e | |] w1]; try discriminate. eauto.
Qed.

Lemma bind_inv {A B} (m : Promise A) (k : A -> Promise B) w r w' :
  bind m k w = (r, w') ->
  (exists a w1, m w = (Resolved a, w1) /\ k a w1 = (r, w')) \/
  (exists r0, m w = (r0, w') /\ forall b, r <> Resolved b).
Proof.
  unfold bind. destruct (m w) as [[a | e | |] w1]; intros E.
  - left; eauto.
  - right; inversion E; subst; eexists; split; [reflexivity | discriminate].
  - right; inversion E; subst; eexists; split; [reflexivity | discriminate].
  - right; inversion E; subst; eexists; split; [reflexivity | discriminate].
Qed.

Lemma bind_ext {A B} (m : Promise A) (k k' : A -> Promise B) w :
  (forall a w1, k a w1 = k' a w1) -> bind m k w = bind m k' w.
Proof. intros Hk. unfold bind. destruct (m w) as [[a | e | |] w1]; auto. Qed.

Lemma try_catch_inv {A} (m : Promise A) (h : JsError -> Promise A) w r w' :
  try_catch m h w = (r, w') ->
  (exists e w1, m w = (Rejected e, w1) /\ h e w1 = (r, w')) \/
  (m w = (r, w') /\ forall e, r <> Rejected e).
Proof.
  unfold try_catch. destruct (m w) as [[a | e | |] w1]; intros E.
  - right; inversion E; subst; split; [reflexivity | discriminate].
  - left; eauto.
  - right; inversion E; subst; split; [reflexivity | discriminate].
  - right; inversion E; subst; split; [reflexivity | discriminate].
Qed.

Section Always.

Context (R : World -> World -> Prop).
Hypothesis R_refl : forall w, R w w.
Hypothesis R_trans : forall w1 w2 w3, R w1 w2 -> R w2 w3 -> R w1 w3.

Lemma always_ret {A} (a : A) : always R (ret a).
Proof. intros w r w' E. inversion E; subst. apply R_refl. Qed.

Lemma always_throw {A} (e : JsError) : always R (@throw World A e).
Proof. intros w r w' E. inversion E; subst. apply R_refl. Qed.

Lemma always_effect (f : World -> World) :
  (forall w, R w (f w)) -> always R (effect f).
Proof. intros Hf w r w' E. inversion E; subst. apply Hf. Qed.

Lemma always_bind {A B} (m : Promise A) (k : A -> Promise B) :
  always R m -> (forall a, always R (k a)) -> always R (bind m k).
Proof.
  intros Hm Hk w r w' E.
  apply bind_inv in E as [(a & w1 & E1 & E2) | (r0 & E1 & _)].
  - eapply R_trans; [eapply Hm, E1 | eapply Hk, E2].
  - eapply Hm, E1.
Qed.

Lemma always_rejected_then {A B} (e : JsError) (m : Promise B) :
  always R m -> always R (@rejected_then World A B e m).
Proof.
  intros Hm w r w' E. unfold rejected_then in E. inversion E.
  apply (Hm w (fst (m w))). now destruct (m w).
Qed.

Lemma always_try_catch {A} (m : Promise A) (h : JsError -> Promise A) :
  always R m -> (forall e, always R (h e)) -> always R (try_catch m h).
Proof.
  intros Hm Hh w r w' E.
  apply try_catch_inv in E as [(e & w1 & E1 & E2) | (E1 & _)].
  - eapply R_trans; [eapply Hm, E1 | eapply Hh, E2].
  - eapply Hm, E1.
Qed.

End Always.

(** *** Files a step leaves alone *)

Lemma keeps_refl q w : keeps q w w.
Proof. reflexivity. Qed.

Lemma keeps_trans q w1 w2 w3 : keeps q w1 w2 -> keeps q w2 w3 -> keeps q w1 w3.
Proof. unfold keeps. congruence. Qed.

Lemma keeps_ret {A} q (a : A) : always (keeps q) (ret a).
Proof. apply always_ret, keeps_refl. Qed.

Lemma keeps_throw {A} q (e : JsError) : always (keeps q) (@throw World A e).
Proof. apply always_throw, keeps_refl. Qed.

Lemma keeps_bind {A B} q (m : Promise A) (k : A -> Promise B) :
  always (keeps q) m -> (forall a, always (keeps q) (k a)) -> always (keeps q) (bind m k).
Proof. apply always_bind, keeps_trans. Qed.

Lemma keeps_try_catch {A} q (m : Promise A) (h : JsError -> Promise A) :
  always (keeps q) m -> (forall e, always (keeps q) (h e)) ->
  always (keeps q) (try_catch m h).
Proof. apply always_try_catch, keeps_trans. Qed.

Lemma sendProgress_keeps q stg pct msg lg : always (keeps q) (sendProgress stg pct msg lg).
Proof. apply always_effect. intros w. reflexivity. Qed.

Lemma unlinkSync_keeps q p : q <> p -> always (keeps q) (unlinkSync p).
Proof.
  intros Hne w r w' E. unfold unlinkSync in E.
  destruct (fs w !! p); inversion E; subst; unfold keeps; simpl; [| reflexivity].
  now rewrite lookup_delete_ne by auto.
Qed.

Lemma unlink_quietly_keeps q p : q <> p -> always (keeps q) (unlink_quietly p).
Proof.
  intros Hne. apply keeps_try_catch.
  - now apply unlinkSync_keeps.
  - intros e. apply keeps_ret.
Qed.

Lemma renameSync_keeps q src dst :
  q <> src -> q <> dst -> always (keeps q) (renameSync src dst).
Proof.
  intros H1 H2 w r w' E. unfold renameSync in E.
  destruct (fs w !! src); inversion E; subst; unfold keeps; simpl; [| reflexivity].
  rewrite lookup_insert_ne by auto. now rewrite lookup_delete_ne by auto.
Qed.

Lemma verifyChecksum_same_world (H : Host) p sha w r w' :
  verifyChecksum H p sha w = (r, w') -> w' = w.
Proof.
  unfold verifyChecksum. destruct (fs w !! p); [| intros E; now inversion E].
  destruct (String.eqb _ _); intros E; now inversion E.
Qed.

(** [abort()] arriving during an [await] changes the flag only. *)
Lemma always_awaited {A} (R : World -> World -> Prop) (H : Host) (n : nat) (m : Promise A) :
  (forall w w' b, R w w' -> R w (with_aborted b w')) ->
  always R m -> always R (awaited H n m).
Proof.
  intros Hflag Hm w r w' E. unfold awaited in E.
  destruct (m w) as [r0 w0] eqn:Em. inversion E. apply Hflag. exact (Hm w r0 w0 Em).
Qed.

Lemma on_success_awaited {A} (R : World -> World -> Prop) (H : Host) (n : nat)
    (m : Promise A) :
  (forall w w' b, R w w' -> R w (with_aborted b w')) ->
  on_success R m -> on_success R (awaited H n m).
Proof.
  intros Hflag Hm w a w' E. unfold awaited in E.
  destruct (m w) as [r0 w0] eqn:Em. inversion E as [[Hr Hw]]. apply Hflag.
  rewrite Hr in Em. exact (Hm w a w0 Em).
Qed.

Lemma keeps_awaited {A} q (H : Host) (n : nat) (m : Promise A) :
  always (keeps q) m -> always (keeps q) (awaited H n m).
Proof. apply always_awaited. intros w w' b Hk. exact Hk. Qed.

(** What holds of every response handling holds of the whole chain. *)
Lemma makeRequest_always (H : Host) (R : World -> World -> Prop) fuel p d S cb range sb :
  (forall w, R w w) ->
  (forall res, always R (receive p d S cb sb res)) ->
  forall timer u, always R (makeRequest H fuel p d S cb range sb timer u).
Proof.
  intros Hrefl Hrecv. induction fuel as [| fuel IH]; intros timer u.
  - intros w r w' E. inversion E; subst. apply Hrefl.
  - assert (Hhop : always R
              (match http_get H u range with
               | ConnError msg => throw (StreamError msg)
               | NoAnswer => throw ConnectionTimedOut
               | Responded res =>
                   if is_redirect (statusCode res)
                   then makeRequest H fuel p d S cb range sb
                          (earliest (elapse timer) (idle_timeout H u)) (location res)
                   else match elapse timer with
                        | Some O => rejected_then ConnectionTimedOut
                                      (receive p d S cb sb res)
                        | _ => receive p d S cb sb res
                        end
               end)).
    { destruct (http_get H u range) as [msg | | res].
      - intros w r w' E. inversion E; subst. apply Hrefl.
      - intros w r w' E. inversion E; subst. apply Hrefl.
      - destruct (is_redirect (statusCode res)); [apply IH |].
        destruct (elapse timer) as [[| t] |]; try apply Hrecv.
        apply always_rejected_then, Hrecv. }
    cbn [makeRequest]. destruct timer as [[| t] |]; try exact Hhop.
    apply always_rejected_then, IH.
Qed.

Lemma receive_keeps q destPath S cb sb res :
  q <> destPath -> q <> partial_of destPath ->
  always (keeps q) (receive (partial_of destPath) destPath S cb sb res).
Proof.
  intros H1 H2 w r w' E.
  destruct (Z.eq_dec (statusCode res) 200) as [E200 | N200];
    [| destruct (Z.eq_dec (statusCode res) 206) as [E206 | N206]].
  3: { rewrite receive_bad_status in E by auto. inversion E; subst. reflexivity. }
  all: rewrite receive_settled in E by auto; inversion E; subst;
    unfold keeps; now apply received_world_other.
Qed.

Lemma makeRequest_keeps (H : Host) q fuel destPath S cb range sb timer u :
  q <> destPath -> q <> partial_of destPath ->
  always (keeps q)
    (makeRequest H fuel (partial_of destPath) destPath S cb range sb timer u).
Proof.
  intros H1 H2. apply makeRequest_always; [apply keeps_refl |].
  intros res. now apply receive_keeps.
Qed.

(** A download touches its destination and its partial file only. *)
Lemma downloadFileWithResume_keeps (H : Host) q fuel url destPath S cb :
  q <> destPath -> q <> partial_of destPath ->
  always (keeps q) (downloadFileWithResume H fuel url destPath S cb).
Proof.
  intros H1 H2 w r w' E. unfold downloadFileWithResume in E.
  destruct (fs w !! partial_of destPath) as [partial |].
  - destruct (negb (S =? 0) && (S <=? Z.of_nat (String.length partial))).
    + exact (renameSync_keeps q _ _ H2 H1 w r w' E).
    + exact (makeRequest_keeps H q fuel destPath S cb _ _ _ url H1 H2 w r w' E).
  - exact (makeRequest_keeps H q fuel destPath S cb _ _ _ url H1 H2 w r w' E).
Qed.

Lemma fold_insert_lookup (H : Host) (destDir q : string) (es : list (string * string))
    (m : gmap string string) :
  (forall e, In e es -> path_join H [destDir; fst e] <> q) ->
  List.fold_left (fun m e => <[path_join H [destDir; fst e] := snd e]> m) es m !! q = m !! q.
Proof.
  revert m. induction es as [| e es IH]; intros m Hes; simpl; [reflexivity |].
  rewrite IH by (intros e' He'; apply Hes; now right).
  apply lookup_insert_ne. apply Hes. now left.
Qed.

(** The archive itself after a tool has written its entries. *)
Lemma fold_insert_archive (H : Host) (destDir zipPath : string)
    (es : list (string * string)) (m : gmap string string) (zip : string) :
  m !! zipPath = Some zip ->
  List.fold_left (fun m e => <[path_join H [destDir; fst e] := snd e]> m) es m !! zipPath
  = Some (List.fold_left
            (fun kept e =>
               if String.eqb (path_join H [destDir; fst e]) zipPath then snd e else kept)
            es zip).
Proof.
  revert m zip. induction es as [| e es IH]; intros m zip Hm; simpl; [exact Hm |].
  apply IH. destruct (String.eqb_spec (path_join H [destDir; fst e]) zipPath) as [-> | Hne].
  - apply lookup_insert_eq.
  - now rewrite lookup_insert_ne by exact Hne.
Qed.

(** A tool always writes its entries, and fails or not afterwards. *)
Lemma run_tool_unpacks (H : Host) (tool : string -> Unpacked) (zipPath destDir zip : string)
    (w : World) :
  fs w !! zipPath = Some zip ->
  run_tool H tool zipPath destDir w
  = (match failure (tool zip) with
     | None => Resolved tt
     | Some msg => Rejected (ExecError msg)
     end, unpacked H destDir (tool zip) w).
Proof.
  intros Hz. unfold run_tool. rewrite Hz. unfold bind, unpack_into, effect, unpacked.
  destruct (failure (tool zip)); reflexivity.
Qed.

(** The extraction of the archive [zip] leaves alone every file that it
    does not unpack onto. *)
Lemma extractZip_keeps (H : Host) q zipPath destDir zip w r w' :
  fs w !! zipPath = Some zip ->
  ~ unpacks_onto H destDir zipPath zip q ->
  extractZip H zipPath destDir w = (r, w') ->
  keeps q w w'.
Proof.
  intros Hz Hclear E. unfold extractZip, try_catch in E.
  rewrite (run_tool_unpacks H (tar_exe H) zipPath destDir zip w Hz) in E.
  set (w1 := unpacked _ _ _ w) in E.
  assert (K1 : keeps q w w1).
  { unfold keeps, w1, unpacked; simpl. apply fold_insert_lookup. intros e He Heq.
    apply Hclear. left. eauto. }
  destruct (failure (tar_exe H zip)) as [msg |] eqn:Ef; [| inversion E; subst; exact K1].
  assert (Hz1 : fs w1 !! zipPath
                = Some (archive_after H destDir zipPath (tar_exe H zip) zip)).
  { unfold w1, archive_after, unpacked; simpl. now apply fold_insert_archive. }
  rewrite (run_tool_unpacks H (Expand_Archive H) zipPath destDir _ w1 Hz1) in E.
  eapply keeps_trans; [exact K1 |].
  assert (K2 : keeps q w1 w').
  { destruct (failure (Expand_Archive H _)); inversion E; subst;
      unfold keeps, unpacked; simpl; apply fold_insert_lookup; intros e He Heq;
      apply Hclear; right; (split; [rewrite Ef; discriminate | eauto]). }
  exact K2.
Qed.

(** ** The completion marker *)

Lemma verifyChecksum_keeps (H : Host) q p sha : always (keeps q) (verifyChecksum H p sha).
Proof.
  intros w r w' E. apply verifyChecksum_same_world in E. subst. apply keeps_refl.
Qed.

(** Past the checksum, the archive on disk carries the declared digest. *)
Lemma verified_archive (H : Host) (p sha : string) (w : World) (b : bool) (w' : World) :
  try_catch (verifyChecksum H p sha)
    (fun checksumErr => unlink_quietly p ;; throw checksumErr) w = (Resolved b, w') ->
  w' = w /\ exists zip, fs w !! p = Some zip /\ Sha256.hex zip = sha.
Proof.
  unfold try_catch, verifyChecksum. destruct (fs w !! p) as [zip |] eqn:Ez.
  - destruct (String.eqb_spec (Sha256.hex zip) sha) as [Heq | Hne].
    + intros E. inversion E; subst. eauto.
    + unfold bind. destruct (unlink_quietly p w) as [[[] | | |] w1]; discriminate.
  - unfold bind. destruct (unlink_quietly p w) as [[[] | | |] w1]; discriminate.
Qed.

Lemma downloadAndInstallArchive_keeps (H : Host) q fuel info key pS pE stg :
  archive_clear_of H info q ->
  always (keeps q) (downloadAndInstallArchive H fuel info key pS pE stg).
Proof.
  intros (Hzip & Hpartial & Hclear) w r w' E. unfold downloadAndInstallArchive in E.
  apply bind_inv in E as [([] & w1 & E1 & E) | (r0 & E1 & _)];
    [| eapply sendProgress_keeps, E1].
  assert (K1 : keeps q w w1) by (eapply sendProgress_keeps, E1).
  apply bind_inv in E as [([] & w2 & E2 & E) | (r0 & E2 & _)];
    [| eapply keeps_trans;
       [exact K1 | exact (downloadFileWithResume_keeps H q fuel _ _ _ _ Hzip Hpartial _ _ _ E2)]].
  assert (K2 : keeps q w w2)
    by (eapply keeps_trans;
        [exact K1
        | exact (downloadFileWithResume_keeps H q fuel _ _ _ _ Hzip Hpartial _ _ _ E2)]).
  apply bind_inv in E as [([] & w3 & E3 & E) | (r0 & E3 & _)];
    [| eapply keeps_trans; [exact K2 | eapply sendProgress_keeps, E3]].
  assert (K3 : keeps q w w3)
    by (eapply keeps_trans; [exact K2 | eapply sendProgress_keeps, E3]).
  apply bind_inv in E as [(b & w4 & E4 & E) | (r0 & E4 & _)].
  2: { eapply keeps_trans; [exact K3 |]. revert E4.
       apply keeps_try_catch; [apply verifyChecksum_keeps | intros e].
       apply keeps_bind; [now apply unlink_quietly_keeps | intros _; apply keeps_throw]. }
  apply verified_archive in E4 as (-> & zip & Hz & Hsha).
  apply bind_inv in E as [([] & w5 & E5 & E) | (r0 & E5 & _)];
    [| eapply keeps_trans; [exact K3 | eapply sendProgress_keeps, E5]].
  assert (K5 : keeps q w w5)
    by (eapply keeps_trans; [exact K3 | eapply sendProgress_keeps, E5]).
  assert (Hz5 : fs w5 !! path_join H [dataDir H; filename info] = Some zip).
  { unfold sendProgress, effect in E5. inversion E5; subst. exact Hz. }
  apply bind_inv in E as [([] & w6 & E6 & E) | (r0 & E6 & _)];
    [| eapply keeps_trans;
       [exact K5 | eapply extractZip_keeps; [exact Hz5 | now apply Hclear | exact E6]]].
  assert (K6 : keeps q w w6).
  { eapply keeps_trans;
      [exact K5 | eapply extractZip_keeps; [exact Hz5 | now apply Hclear | exact E6]]. }
  eapply keeps_trans; [exact K6 |]. revert E.
  apply keeps_bind; [now apply unlink_quietly_keeps | intros _].
  apply sendProgress_keeps.
Qed.

Lemma install_from_keeps (H : Host) q fuel manifest keys :
  (forall key info,
      In key keys -> archives manifest !! key = Some info -> archive_clear_of H info q) ->
  forall i, always (keeps q) (install_from H fuel manifest i keys).
Proof.
  induction keys as [| key rest IH]; intros Hclear i; simpl.
  - apply keeps_ret.
  - apply keeps_bind.
    { intros w r w' E. destruct (aborted w); inversion E; subst; apply keeps_refl. }
    intros _. destruct (archives manifest !! key) as [info |] eqn:Ek; [| apply keeps_throw].
    apply keeps_bind.
    + apply keeps_awaited. apply downloadAndInstallArchive_keeps.
      apply (Hclear key info); [now left | exact Ek].
    + intros _. apply IH. intros key' info' Hin. apply Hclear. now right.
Qed.

Lemma validate_same_world manifest keys w r w' :
  validate manifest keys w = (r, w') -> w' = w.
Proof.
  induction keys as [| key rest IH]; simpl; intros E.
  - now inversion E.
  - destruct (archives manifest !! key); [now apply IH | now inversion E].
Qed.

(** What follows the last archive always runs to the end, and leaves the
    marker written. *)
Lemma finalize_resolves (H : Host) (options : Options) (manifest : Manifest) (w : World) :
  exists w',
    (sendProgress "model" 96 "Finalizing installation..." (Some "Writing setup config") ;;
     enable_site_packages H ;;
     writeFileSync (setupFlagPath H) (JSON_stringify H (marker_object H options manifest)) ;;
     sendProgress "complete" 100 "Setup complete!" (Some "VoiceCraft is ready to use") ;;
     ret true) w = (Resolved true, w') /\
    fs w' !! setupFlagPath H = Some (JSON_stringify H (marker_object H options manifest)).
Proof.
  unfold bind at 1. unfold sendProgress at 1, effect at 1.
  set (w1 := with_ui _ w).
  assert (Hen : exists w2, enable_site_packages H w1 = (Resolved tt, w2)).
  { unfold enable_site_packages, existsSync.
    destruct (fs w1 !! path_join H [pythonDir H; "python310._pth"]) as [content |] eqn:Ep;
      [| eexists; reflexivity].
    unfold bind, readFileSync. rewrite Ep.
    destruct (Js.includes "#import site" content); eexists; reflexivity. }
  destruct Hen as [w2 Hen].
  unfold bind at 1. rewrite Hen.
  eexists. split; [reflexivity |]. simpl. apply lookup_insert_eq.
Qed.

(** [runSetup_body], cut where the last archive is done. *)
Lemma runSetup_body_unfold (H : Host) fuel options w :
  runSetup_body H fuel options w
  = (effect (with_aborted false) ;;
     sendProgress "python" 2 "Fetching package manifest..."
       (Some "Connecting to download server") ;;
     let* manifest :=
       try_catch (awaited H 0 (fetchManifest H))
         (fun err => throw (CannotReachServer (message err))) in
     install_phase H fuel options manifest ;;
     sendProgress "model" 96 "Finalizing installation..." (Some "Writing setup config") ;;
     enable_site_packages H ;;
     writeFileSync (setupFlagPath H) (JSON_stringify H (marker_object H options manifest)) ;;
     sendProgress "complete" 100 "Setup complete!" (Some "VoiceCraft is ready to use") ;;
     ret true) w.
Proof.
  unfold runSetup_body, install_phase.
  apply bind_ext; intros [] w1. apply bind_ext; intros [] w2.
  apply bind_ext; intros manifest w3.
  unfold bind. destruct (validate manifest _ w3) as [[[] | | |] w4]; reflexivity.
Qed.

(** The fetch changes nothing but the flag that [abort()] sets. *)
Lemma fetch_or_wrap_inv (H : Host) w r w' :
  try_catch (awaited H 0 (fetchManifest H))
    (fun err => throw (CannotReachServer (message err))) w = (r, w') ->
  w' = with_aborted (aborted w || abort_called H 0) w /\
  (forall m, r = Resolved m -> fetchManifest_outcome H = Resolved m).
Proof.
  unfold try_catch, awaited, fetchManifest, settle, throw.
  destruct (fetchManifest_outcome H); intros E; inversion E; subst; split; auto;
    intros m' Hm; inversion Hm; reflexivity || discriminate.
Qed.

Lemma install_phase_keeps (H : Host) fuel options manifest :
  run_clear_of H options manifest (setupFlagPath H) ->
  always (keeps (setupFlagPath H)) (install_phase H fuel options manifest).
Proof.
  intros Hclear. unfold install_phase.
  apply keeps_bind.
  { intros w r w' E. apply validate_same_world in E. subst. apply keeps_refl. }
  intros _. now apply install_from_keeps.
Qed.

Lemma runSetup_body_cases (H : Host) fuel options w r w' :
  runSetup_body H fuel options w = (r, w') ->
  (exists manifest,
      r = Resolved true /\ fetchManifest_outcome H = Resolved manifest /\
      fs w' !! setupFlagPath H
      = Some (JSON_stringify H (marker_object H options manifest))) \/
  ((forall b, r <> Resolved b) /\
   (marker_clear H options -> keeps (setupFlagPath H) w w')).
Proof.
  intros E. rewrite runSetup_body_unfold in E.
  apply bind_inv in E as [([] & w1 & E1 & E) | (r0 & E1 & Hr)].
  2: { right. split; [exact Hr |]. intros _. inversion E1; subst. reflexivity. }
  assert (K1 : keeps (setupFlagPath H) w w1) by (inversion E1; subst; reflexivity).
  apply bind_inv in E as [([] & w2 & E2 & E) | (r0 & E2 & Hr)].
  2: { right. split; [exact Hr |]. intros _. eapply keeps_trans; [exact K1 |].
       eapply sendProgress_keeps, E2. }
  assert (K2 : keeps (setupFlagPath H) w w2).
  { eapply keeps_trans; [exact K1 | eapply sendProgress_keeps, E2]. }
  apply bind_inv in E as [(manifest & w3 & E3 & E) | (r0 & E3 & Hr)].
  2: { right. split; [exact Hr |]. intros _.
       apply fetch_or_wrap_inv in E3 as [-> _]. exact K2. }
  apply fetch_or_wrap_inv in E3 as [-> Hm]. specialize (Hm manifest eq_refl).
  apply bind_inv in E as [([] & w4 & E4 & E) | (r0 & E4 & Hr)].
  2: { right. split; [exact Hr |]. intros Hclear.
       eapply keeps_trans; [exact K2 |].
       exact (install_phase_keeps H fuel options manifest (Hclear manifest Hm) _ _ _ E4). }
  left. exists manifest.
  destruct (finalize_resolves H options manifest w4) as (w5 & E5 & Hmarker).
  rewrite E5 in E. inversion E; subst. auto.
Qed.


(** ** Progress percentages *)

Lemma Qdiv_le_total (a b t : Z) :
  0 < t -> a <= b -> (inject_Z a / inject_Z t <= inject_Z b / inject_Z t)%Q.
Proof.
  intros Ht Hab. unfold Qdiv. apply Qmult_le_compat_r.
  - rewrite <- Zle_Qle. exact Hab.
  - apply Qinv_le_0_compat. change 0%Q with (inject_Z 0). rewrite <- Zle_Qle. lia.
Qed.

Lemma download_pct_mono (pS pE d1 d2 t : Z) :
  0 < t -> pS <= pE -> d1 <= d2 ->
  (download_pct pS pE d1 t <= download_pct pS pE d2 t)%Q.
Proof.
  intros Ht Hp Hd. unfold download_pct. apply Qplus_le_r.
  apply Qmult_le_compat_r; [| discriminate].
  apply Qmult_le_compat_r; [now apply Qdiv_le_total |].
  change 0%Q with (inject_Z 0). rewrite <- Zle_Qle. lia.
Qed.

Lemma download_pct_zero (pS pE t : Z) :
  0 < t -> (download_pct pS pE 0 t == inject_Z pS)%Q.
Proof.
  intros Ht. unfold download_pct, Qdiv.
  assert (Hz : (inject_Z 0 * / inject_Z t * inject_Z (pE - pS) * (7 # 10) == 0)%Q).
  { change (inject_Z 0) with 0%Q. rewrite !Qmult_0_l. reflexivity. }
  rewrite Hz. apply Qplus_0_r.
Qed.

Lemma download_pct_full (pS pE t : Z) :
  0 < t -> (download_pct pS pE t t == verifyStart pS pE)%Q.
Proof.
  intros Ht. unfold download_pct, verifyStart, Qdiv.
  rewrite Qmult_inv_r.
  - now rewrite Qmult_1_l.
  - intros Hc. revert Hc. unfold Qeq; simpl. lia.
Qed.

Lemma Math_round_proper (x y : Q) : (x == y)%Q -> Js.Math_round x = Js.Math_round y.
Proof.
  intros Hxy. apply Z.le_antisymm; apply Math_round_mono; rewrite Hxy; apply Qle_refl.
Qed.

Lemma round_pct_ge_start (pS pE d t : Z) :
  0 < t -> pS <= pE -> 0 <= d -> pS <= Js.Math_round (download_pct pS pE d t).
Proof.
  intros Ht Hp Hd. rewrite <- (Math_round_int pS) at 1.
  rewrite <- (Math_round_proper _ _ (download_pct_zero pS pE t Ht)).
  apply Math_round_mono. now apply download_pct_mono.
Qed.

Lemma round_pct_le_verify (pS pE d t : Z) :
  0 < t -> pS <= pE -> d <= t ->
  Js.Math_round (download_pct pS pE d t) <= Js.Math_round (verifyStart pS pE).
Proof.
  intros Ht Hp Hd.
  rewrite <- (Math_round_proper _ _ (download_pct_full pS pE t Ht)).
  apply Math_round_mono. now apply download_pct_mono.
Qed.

Lemma start_le_verify (pS pE : Z) :
  pS <= pE -> pS <= Js.Math_round (verifyStart pS pE).
Proof.
  intros Hp. rewrite <- (Math_round_int pS) at 1. apply Math_round_mono.
  unfold verifyStart. rewrite <- (Qplus_0_r (inject_Z pS)) at 1. apply Qplus_le_r.
  apply Qmult_le_0_compat; [| discriminate].
  change 0%Q with (inject_Z 0). rewrite <- Zle_Qle. lia.
Qed.

Lemma verify_le_extract (pS pE : Z) :
  pS <= pE -> Js.Math_round (verifyStart pS pE) <= Js.Math_round (extractStart pS pE).
Proof.
  intros Hp. apply Math_round_mono. unfold verifyStart, extractStart.
  apply Qplus_le_r. rewrite !(Qmult_comm (inject_Z (pE - pS))).
  apply Qmult_le_compat_r; [discriminate |].
  change 0%Q with (inject_Z 0). rewrite <- Zle_Qle. lia.
Qed.

Lemma extract_le_end (pS pE : Z) :
  pS <= pE -> Js.Math_round (extractStart pS pE) <= Js.Math_round (inject_Z pE).
Proof.
  intros Hp. apply Math_round_mono. unfold extractStart.
  assert (Hr : (inject_Z (pE - pS) * (8 # 10) <= inject_Z (pE - pS))%Q).
  { rewrite <- (Qmult_1_r (inject_Z (pE - pS))) at 2.
    rewrite !(Qmult_comm (inject_Z (pE - pS))).
    apply Qmult_le_compat_r; [discriminate |].
    change 0%Q with (inject_Z 0). rewrite <- Zle_Qle. lia. }
  apply Qle_trans with (inject_Z pS + inject_Z (pE - pS))%Q.
  - apply Qplus_le_r. exact Hr.
  - rewrite <- inject_Z_plus. rewrite <- Zle_Qle. lia.
Qed.

Lemma climbs_bounds lo hi l : climbs lo hi l -> lo <= hi.
Proof.
  revert lo. induction l as [| x l IH]; simpl; intros lo Hc; [exact Hc |].
  destruct Hc as [Hx Hrest]. apply IH in Hrest. lia.
Qed.

Lemma climbs_weaken lo lo' hi hi' l :
  lo' <= lo -> hi <= hi' -> climbs lo hi l -> climbs lo' hi' l.
Proof.
  revert lo lo'. induction l as [| x l IH]; simpl; intros lo lo' Hlo Hhi Hc; [lia |].
  destruct Hc as [Hx Hrest]. split; [lia |]. eapply IH; [| exact Hhi | exact Hrest]. lia.
Qed.

Lemma climbs_app lo mid hi l1 l2 :
  climbs lo mid l1 -> climbs mid hi l2 -> climbs lo hi (l1 ++ l2).
Proof.
  revert lo. induction l1 as [| x l1 IH]; simpl; intros lo H1 H2.
  - eapply climbs_weaken; [exact H1 | | exact H2]. lia.
  - destruct H1 as [Hx Hrest]. split; [exact Hx |]. now apply IH.
Qed.

Lemma silent_refl w : silent w w.
Proof. split; reflexivity. Qed.

Lemma silent_trans w1 w2 w3 : silent w1 w2 -> silent w2 w3 -> silent w1 w3.
Proof. unfold silent. intros [? ?] [? ?]. split; congruence. Qed.

Lemma silent_emits lo hi w w' : lo <= hi -> silent w w' -> emits lo hi w w'.
Proof.
  intros Hb [Hu Hc] Hopen. rewrite Hu. split; [exact Hopen |].
  exists [], []. rewrite !app_nil_r. repeat split; auto.
Qed.

Lemma emits_weaken lo lo' hi hi' w w' :
  lo' <= lo -> hi <= hi' -> emits lo hi w w' -> emits lo' hi' w w'.
Proof.
  intros Hlo Hhi He Hopen. destruct (He Hopen) as (Ho & evs & calls & Hs & Hc & Hcl).
  split; [exact Ho |]. exists evs, calls. repeat split; auto.
  intros Hw. eapply climbs_weaken; eauto.
Qed.

Lemma emits_compose lo mid hi w w1 w2 :
  emits lo mid w w1 -> emits mid hi w1 w2 -> emits lo hi w w2.
Proof.
  intros H1 H2 Hopen.
  destruct (H1 Hopen) as (Ho1 & evs1 & calls1 & Hs1 & Hc1 & Hcl1).
  destruct (H2 Ho1) as (Ho2 & evs2 & calls2 & Hs2 & Hc2 & Hcl2).
  split; [exact Ho2 |]. exists (evs1 ++ evs2)%list, (calls1 ++ calls2)%list.
  rewrite Hs2, Hs1, Hc2, Hc1, !app_assoc. repeat split; auto.
  intros Hw. apply Forall_app in Hw as [Hw1 Hw2].
  rewrite map_app. eapply climbs_app; eauto.
Qed.

Lemma on_success_bind_emits {A B} lo mid hi (m : Promise A) (k : A -> Promise B) :
  on_success (emits lo mid) m -> (forall a, on_success (emits mid hi) (k a)) ->
  on_success (emits lo hi) (bind m k).
Proof.
  intros Hm Hk w b w' E. apply bind_resolved_inv in E as (a & w1 & E1 & E2).
  eapply emits_compose; [eapply Hm, E1 | eapply Hk, E2].
Qed.

Lemma on_success_weaken {A} lo lo' hi hi' (m : Promise A) :
  lo' <= lo -> hi <= hi' -> on_success (emits lo hi) m -> on_success (emits lo' hi') m.
Proof. intros Hlo Hhi Hm w a w' E. eapply emits_weaken; eauto. Qed.

Lemma always_silent_emits {A} lo hi (m : Promise A) :
  lo <= hi -> always silent m -> on_success (emits lo hi) m.
Proof. intros Hb Hm w a w' E. apply silent_emits; [exact Hb | eapply Hm, E]. Qed.

Lemma post_open ev u :
  windowOpen u = true ->
  windowOpen (post ev u) = true /\ sent (post ev u) = (sent u ++ [ev])%list.
Proof. intros Ho. unfold post. rewrite Ho. simpl. auto. Qed.

Lemma sendProgress_emits stg pct msg lg :
  on_success (emits pct pct) (sendProgress stg pct msg lg).
Proof.
  intros w a w' E. unfold sendProgress, effect in E. inversion E; subst; clear E.
  intros Hopen. simpl.
  destruct (post_open {| stage := stg; percent := pct; text := msg; log := lg |}
              (ui w) Hopen) as [Ho Hs].
  split; [exact Ho |].
  exists [ {| stage := stg; percent := pct; text := msg; log := lg |} ], [].
  rewrite Hs, app_nil_r. split; [reflexivity |]. split; [reflexivity |].
  intros _. simpl. lia.
Qed.

(** *** Silent steps *)

Lemma silent_ret {A} (a : A) : always silent (ret a).
Proof. apply always_ret, silent_refl. Qed.

Lemma silent_throw {A} (e : JsError) : always silent (@throw World A e).
Proof. apply always_throw, silent_refl. Qed.

Lemma silent_bind {A B} (m : Promise A) (k : A -> Promise B) :
  always silent m -> (forall a, always silent (k a)) -> always silent (bind m k).
Proof. apply always_bind, silent_trans. Qed.

Lemma silent_try_catch {A} (m : Promise A) (h : JsError -> Promise A) :
  always silent m -> (forall e, always silent (h e)) -> always silent (try_catch m h).
Proof. apply always_try_catch, silent_trans. Qed.

Lemma unlinkSync_silent p : always silent (unlinkSync p).
Proof.
  intros w r w' E. unfold unlinkSync in E.
  destruct (fs w !! p); inversion E; subst; split; reflexivity.
Qed.

Lemma unlink_quietly_silent p : always silent (unlink_quietly p).
Proof. apply silent_try_catch; [apply unlinkSync_silent | intros; apply silent_ret]. Qed.

Lemma renameSync_silent src dst : always silent (renameSync src dst).
Proof.
  intros w r w' E. unfold renameSync in E.
  destruct (fs w !! src); inversion E; subst; split; reflexivity.
Qed.

Lemma verifyChecksum_silent (H : Host) p sha : always silent (verifyChecksum H p sha).
Proof.
  intros w r w' E. apply verifyChecksum_same_world in E. subst. apply silent_refl.
Qed.

Lemma run_tool_silent (H : Host) tool zipPath destDir :
  always silent (run_tool H tool zipPath destDir).
Proof.
  intros w r w' E. unfold run_tool in E.
  destruct (fs w !! zipPath) as [zip |]; [| inversion E; subst; apply silent_refl].
  unfold bind, unpack_into, effect in E.
  destruct (failure (tool zip)); inversion E; subst; split; reflexivity.
Qed.

Lemma extractZip_silent (H : Host) zipPath destDir :
  always silent (extractZip H zipPath destDir).
Proof. apply silent_try_catch; [| intros _]; apply run_tool_silent. Qed.

Lemma validate_silent manifest keys : always silent (validate manifest keys).
Proof.
  intros w r w' E. apply validate_same_world in E. subst. apply silent_refl.
Qed.

(** *** The events of one download *)

Lemma pump_observed_progress stg label pS pE total cs :
  pS <= pE ->
  forall d w,
    0 <= d ->
    windowOpen (ui w) = true ->
    let w' := pump_observed (Some (download_progress stg label pS pE)) total cs d w in
    windowOpen (ui w') = true /\
    exists (evs : list ProgressEvent) (calls : list (Z * Z)),
      sent (ui w') = (sent (ui w) ++ evs)%list /\
      progressCalls w' = (progressCalls w ++ calls)%list /\
      (List.Forall within calls ->
       forall lo,
         lo <= Js.Math_round (verifyStart pS pE) ->
         (forall t, total = Some t -> 0 < t ->
                    lo <= Js.Math_round (download_pct pS pE d t)) ->
         climbs lo (Js.Math_round (verifyStart pS pE)) (List.map percent evs)).
Proof.
  intros Hp. induction cs as [| c cs IH]; intros d w Hd Hopen; simpl.
  - split; [exact Hopen |]. exists [], []. rewrite !app_nil_r.
    repeat split. intros _ lo Hlo _. exact Hlo.
  - set (d' := d + Z.of_nat (String.length c)).
    assert (Hd' : 0 <= d') by (subst d'; lia).
    assert (Hdd : d <= d') by (subst d'; lia).
    destruct total as [t |].
    + destruct (truthy_number (Some t)) eqn:Etruthy.
      * set (ev := {| stage := stg;
                      percent := Js.Math_round (download_pct pS pE d' t);
                      text := "Downloading " ++ label ++ "... " ++
                              Js.show_Z (Js.toFixed_int 1
                                (inject_Z d' / inject_Z (1024 * 1024))) ++ "/" ++
                              Js.show_Z (Js.toFixed_int 1
                                (inject_Z t / inject_Z (1024 * 1024))) ++ " MB";
                      log := None |}).
        set (w1 := with_progressCalls (progressCalls w ++ [(d', t)])
                     (with_ui (download_progress stg label pS pE d' t (ui w)) w)).
        destruct (post_open ev (ui w) Hopen) as [Ho1 Hs1].
        assert (Hopen1 : windowOpen (ui w1) = true) by exact Ho1.
        destruct (IH d' w1 Hd' Hopen1) as (Ho & evs & calls & Hs & Hc & Hcl).
        split; [exact Ho |]. exists (ev :: evs), ((d', t) :: calls).
        split; [| split].
        { rewrite Hs. change (sent (ui w1)) with (sent (post ev (ui w))).
          rewrite Hs1, <- app_assoc. reflexivity. }
        { rewrite Hc. simpl. rewrite <- app_assoc. reflexivity. }
        intros Hw lo Hlo Hstart. inversion Hw as [| ? ? Hhead Htail]; subst.
        unfold within in Hhead; simpl in Hhead.
        assert (Ht : 0 < t).
        { simpl in Etruthy. apply negb_true_iff, Z.eqb_neq in Etruthy. lia. }
        simpl. split.
        { eapply Z.le_trans; [apply (Hstart t eq_refl Ht) |].
          apply Math_round_mono. now apply download_pct_mono. }
        apply Hcl; [exact Htail | now apply round_pct_le_verify |].
        intros t0 Et0 _. inversion Et0; subst. lia.
      * destruct (IH d' w Hd' Hopen) as (Ho & evs & calls & Hs & Hc & Hcl).
        split; [exact Ho |]. exists evs, calls. repeat split; auto.
        intros Hw lo Hlo Hstart. apply Hcl; auto.
        intros t0 Et0 Ht0. eapply Z.le_trans; [apply (Hstart t0 Et0 Ht0) |].
        apply Math_round_mono. now apply download_pct_mono.
    + destruct (IH d' w Hd' Hopen) as (Ho & evs & calls & Hs & Hc & Hcl).
      split; [exact Ho |]. exists evs, calls. repeat split; auto.
      intros Hw lo Hlo Hstart. apply Hcl; auto. intros t0 Et0; discriminate.
Qed.

Lemma pump_observed_emits stg label pS pE total cs d w :
  pS <= pE -> 0 <= d ->
  emits pS (Js.Math_round (verifyStart pS pE)) w
    (pump_observed (Some (download_progress stg label pS pE)) total cs d w).
Proof.
  intros Hp Hd Hopen.
  destruct (pump_observed_progress stg label pS pE total cs Hp d w Hd Hopen)
    as (Ho & evs & calls & Hs & Hc & Hcl).
  split; [exact Ho |]. exists evs, calls. repeat split; auto.
  intros Hw. apply Hcl; [exact Hw | now apply start_le_verify |].
  intros t _ Ht. now apply round_pct_ge_start.
Qed.

Lemma emits_same_observations lo hi w w1 w2 :
  ui w2 = ui w1 -> progressCalls w2 = progressCalls w1 ->
  emits lo hi w w1 -> emits lo hi w w2.
Proof. unfold emits. intros -> ->. auto. Qed.

(** How a download can resolve: by promoting the partial file, or through
    a complete response. *)
Lemma downloadFileWithResume_resolved (H : Host) fuel url destPath S cb w w' :
  downloadFileWithResume H fuel url destPath S cb w = (Resolved tt, w') ->
  renameSync (partial_of destPath) destPath w = (Resolved tt, w') \/
  exists res, w' = received_world destPath S cb (resume_point w destPath) res w.
Proof.
  intros Hr. unfold downloadFileWithResume in Hr. unfold resume_point.
  destruct (fs w !! partial_of destPath) as [partial |] eqn:Ep.
  - destruct (negb (S =? 0) && (S <=? Z.of_nat (String.length partial)));
      [left; exact Hr |].
    apply makeRequest_resolved_inv in Hr as (u & res & _ & Hrecv).
    apply receive_resolved_inv in Hrecv as (_ & _ & ->). right. now exists res.
  - apply makeRequest_resolved_inv in Hr as (u & res & _ & Hrecv).
    apply receive_resolved_inv in Hrecv as (_ & _ & ->). right. now exists res.
Qed.

Lemma resume_point_nonneg w destPath : 0 <= resume_point w destPath.
Proof. unfold resume_point. destruct (fs w !! partial_of destPath); lia. Qed.

Lemma downloadFileWithResume_emits (H : Host) fuel url destPath S stg label pS pE :
  pS <= pE ->
  on_success (emits pS (Js.Math_round (verifyStart pS pE)))
    (downloadFileWithResume H fuel url destPath S
       (Some (download_progress stg label pS pE))).
Proof.
  intros Hp w [] w' E.
  apply downloadFileWithResume_resolved in E as [E | [res ->]].
  - apply silent_emits; [now apply start_le_verify |].
    eapply renameSync_silent, E.
  - eapply emits_same_observations;
      [| | apply (pump_observed_emits stg label pS pE
                    (totalSize_of S res
                       (startByte_after (statusCode res) (resume_point w destPath)))
                    (chunks res)
                    (startByte_after (statusCode res) (resume_point w destPath)) w Hp)].
    + reflexivity.
    + reflexivity.
    + unfold startByte_after. pose proof (resume_point_nonneg w destPath).
      destruct (statusCode res =? 200); lia.
Qed.

(** *** The events of one archive and of the whole loop *)

Lemma downloadAndInstallArchive_emits (H : Host) fuel info key pS pE stg :
  pS <= pE ->
  on_success (emits pS pE) (downloadAndInstallArchive H fuel info key pS pE stg).
Proof.
  intros Hp. unfold downloadAndInstallArchive.
  pose proof (start_le_verify pS pE Hp) as Hsv.
  pose proof (verify_le_extract pS pE Hp) as Hve.
  pose proof (extract_le_end pS pE Hp) as Hee.
  rewrite Math_round_int in *.
  set (vS := Js.Math_round (verifyStart pS pE)) in *.
  set (eS := Js.Math_round (extractStart pS pE)) in *.
  apply (on_success_bind_emits pS pS pE); [apply sendProgress_emits | intros _].
  apply (on_success_bind_emits pS vS pE);
    [now apply downloadFileWithResume_emits | intros _].
  apply (on_success_bind_emits vS vS pE); [apply sendProgress_emits | intros _].
  apply (on_success_bind_emits vS vS pE).
  { apply always_silent_emits; [lia |].
    apply silent_try_catch; [apply verifyChecksum_silent | intros e].
    apply silent_bind; [apply unlink_quietly_silent | intros _; apply silent_throw]. }
  intros _.
  apply (on_success_bind_emits vS eS pE).
  { apply (on_success_weaken eS vS eS eS); [lia | lia | apply sendProgress_emits]. }
  intros _.
  apply (on_success_bind_emits eS eS pE).
  { apply always_silent_emits; [lia | apply extractZip_silent]. }
  intros _.
  apply (on_success_bind_emits eS eS pE).
  { apply always_silent_emits; [lia | apply unlink_quietly_silent]. }
  intros _.
  apply (on_success_weaken pE eS pE pE); [lia | lia | apply sendProgress_emits].
Qed.

Lemma install_from_nil_emits (H : Host) fuel manifest i hi :
  on_success (emits hi hi) (install_from H fuel manifest i []).
Proof. apply always_silent_emits; [lia | apply silent_ret]. Qed.

Lemma install_from_cons_emits (H : Host) fuel manifest i key rest hi :
  pStart (archiveStageMap key) <= pEnd (archiveStageMap key) ->
  on_success (emits (pEnd (archiveStageMap key)) hi)
    (install_from H fuel manifest (S i) rest) ->
  on_success (emits (pStart (archiveStageMap key)) hi)
    (install_from H fuel manifest i (key :: rest)).
Proof.
  intros Hp Hrest. simpl.
  set (lo := pStart (archiveStageMap key)) in *.
  set (mid := pEnd (archiveStageMap key)) in *.
  apply (on_success_bind_emits lo lo hi).
  { apply always_silent_emits; [lia |].
    intros w r w' E. destruct (aborted w); inversion E; subst; apply silent_refl. }
  intros _. destruct (archives manifest !! key) as [info |].
  2: { intros w a w' E. discriminate. }
  apply (on_success_bind_emits lo mid hi); [| intros _; exact Hrest].
  apply on_success_awaited; [intros w w' b He; exact He |].
  now apply downloadAndInstallArchive_emits.
Qed.

(** The four archives of a run take the percentages from 5 to 95. *)
Lemma install_from_emits (H : Host) fuel manifest useGpu :
  on_success (emits 5 95) (install_from H fuel manifest 0 (archiveKeys useGpu manifest)).
Proof.
  assert (Hgpu : on_success (emits 5 95)
            (install_from H fuel manifest 0
               ["python-core"; "pytorch-nvidia-cu121"; "packages"; "models-turbo"])).
  { apply (install_from_cons_emits H fuel manifest 0 "python-core"); [vm_compute; discriminate |].
    apply (install_from_cons_emits H fuel manifest 1 "pytorch-nvidia-cu121");
      [vm_compute; discriminate |].
    apply (install_from_cons_emits H fuel manifest 2 "packages"); [vm_compute; discriminate |].
    apply (install_from_cons_emits H fuel manifest 3 "models-turbo");
      [vm_compute; discriminate |].
    apply install_from_nil_emits. }
  assert (Hcpu : on_success (emits 5 95)
            (install_from H fuel manifest 0
               ["python-core"; "pytorch-cpu"; "packages"; "models-turbo"])).
  { apply (install_from_cons_emits H fuel manifest 0 "python-core"); [vm_compute; discriminate |].
    apply (install_from_cons_emits H fuel manifest 1 "pytorch-cpu");
      [vm_compute; discriminate |].
    apply (install_from_cons_emits H fuel manifest 2 "packages"); [vm_compute; discriminate |].
    apply (install_from_cons_emits H fuel manifest 3 "models-turbo");
      [vm_compute; discriminate |].
    apply install_from_nil_emits. }
  unfold archiveKeys. destruct useGpu; [exact Hgpu |].
  destruct (archives manifest !! "pytorch-cpu"); [exact Hcpu | exact Hgpu].
Qed.

Lemma install_phase_emits (H : Host) fuel options manifest :
  on_success (emits 2 95) (install_phase H fuel options manifest).
Proof.
  unfold install_phase.
  apply (on_success_bind_emits 2 2 95).
  { apply always_silent_emits; [lia | apply validate_silent]. }
  intros _.
  apply (on_success_weaken 5 2 95 95); [lia | lia | apply install_from_emits].
Qed.

Lemma enable_site_packages_silent (H : Host) : always silent (enable_site_packages H).
Proof.
  intros w r w' E. unfold enable_site_packages, existsSync in E.
  destruct (fs w !! path_join H [pythonDir H; "python310._pth"]) as [content |] eqn:Ep.
  - unfold bind, readFileSync in E. rewrite Ep in E.
    destruct (Js.includes "#import site" content); inversion E; subst; split; reflexivity.
  - inversion E; subst. apply silent_refl.
Qed.

Lemma climbs_Sorted lo hi l : climbs lo hi l -> Sorted Z.le l.
Proof.
  revert lo. induction l as [| x l IH]; intros lo Hc; [constructor |].
  destruct Hc as [_ Hrest]. constructor; [eapply IH, Hrest |].
  destruct l as [| y l]; constructor. destruct Hrest as [Hxy _]. exact Hxy.
Qed.

(** C4 (amended): in every run of [runSetup] that resolves with the window
    open, and in which every call of the progress callback reports a byte
    count not above the total it is given, the percentages of the events
    sent by the run never decrease and the last event carries 100. *)
Theorem progress_nondecreasing (H : Host) (fuel : nat) (options : Options)
    (w : World) (b : bool) (w' : World) :
  runSetup H fuel options w = (Resolved b, w') ->
  windowOpen (ui w) = true ->
  List.Forall within (new_calls w w') ->
  Sorted Z.le (List.map percent (new_events w w')) /\
  List.last (List.map percent (new_events w w')) 0 = 100.
Proof.
  intros E Hopen Hwithin. unfold runSetup in E.
  apply try_catch_inv in E as [(e & w1 & _ & E2) | (E & _)].
  { unfold bind, sendProgress, effect, throw in E2. discriminate. }
  rewrite runSetup_body_unfold in E.
  apply bind_resolved_inv in E as ([] & w1 & E1 & E).
  apply bind_resolved_inv in E as ([] & w2 & E2 & E).
  apply bind_resolved_inv in E as (manifest & w3 & E3 & E).
  apply bind_resolved_inv in E as ([] & w4 & E4 & E).
  apply bind_resolved_inv in E as ([] & w5 & E5 & E).
  apply bind_resolved_inv in E as ([] & w6 & E6 & E).
  apply bind_resolved_inv in E as ([] & w7 & E7 & E).
  apply bind_resolved_inv in E as ([] & w8 & E8 & E).
  inversion E; subst w8 b; clear E.
  assert (S1 : emits 2 2 w w1).
  { apply silent_emits; [lia |]. inversion E1; subst. split; reflexivity. }
  assert (S2 : emits 2 2 w1 w2) by (eapply sendProgress_emits, E2).
  assert (S3 : emits 2 2 w2 w3).
  { apply silent_emits; [lia |]. apply fetch_or_wrap_inv in E3 as [-> _].
    split; reflexivity. }
  assert (S4 : emits 2 95 w3 w4) by (eapply install_phase_emits, E4).
  assert (S5 : emits 95 96 w4 w5).
  { eapply emits_weaken; [| | eapply sendProgress_emits, E5]; lia. }
  assert (S6 : emits 96 96 w5 w6).
  { apply silent_emits; [lia |]. eapply enable_site_packages_silent, E6. }
  assert (S7 : emits 96 96 w6 w7).
  { apply silent_emits; [lia |]. inversion E7; subst. split; reflexivity. }
  assert (S8 : emits 96 100 w7 w').
  { eapply emits_weaken; [| | eapply sendProgress_emits, E8]; lia. }
  pose proof (emits_compose _ _ _ _ _ _ S1
               (emits_compose _ _ _ _ _ _ S2
                  (emits_compose _ _ _ _ _ _ S3
                     (emits_compose _ _ _ _ _ _ S4
                        (emits_compose _ _ _ _ _ _ S5
                           (emits_compose _ _ _ _ _ _ S6 S7)))))) as Sall.
  destruct (Sall Hopen) as (Hopen7 & evs & calls & Hs & Hc & Hcl).
  unfold sendProgress, effect in E8. inversion E8; subst w'; clear E8.
  set (done := {| stage := "complete"; percent := 100; text := "Setup complete!";
                  log := Some "VoiceCraft is ready to use" |}) in *.
  destruct (post_open done (ui w7) Hopen7) as [_ Hs8].
  assert (Hev : new_events w (with_ui (post done (ui w7)) w7) = (evs ++ [done])%list).
  { unfold new_events. simpl ui. rewrite Hs8, Hs, <- app_assoc.
    apply drop_app_length. }
  assert (Hcalls : new_calls w (with_ui (post done (ui w7)) w7) = calls).
  { unfold new_calls. simpl progressCalls. rewrite Hc. apply drop_app_length. }
  rewrite Hev, map_app. rewrite Hcalls in Hwithin. specialize (Hcl Hwithin).
  split.
  - apply (climbs_Sorted 2 100). eapply climbs_app; [exact Hcl |]. simpl. lia.
  - simpl. apply last_last.
Qed.

(** *** Whole runs against a small download server *)

(** C4 (as stated) fails: the manifest declares one byte for an archive of
    three bytes whose digest it gives correctly.  The run resolves, and the
    events go 2, 5, 33, 47 and then back to 19. *)
Lemma declared_size_too_small_breaks_monotonicity :
  exists w',
    runSetup (host_cdn keyed_small_size Fixture.unpack_ok) 3 gpu_options Fixture.world0
    = (Resolved true, w') /\
    List.map percent (new_events Fixture.world0 w')
    = [2; 5; 33; 47; 19; 21; 25; 25; 39; 46; 46; 49; 55; 55; 62; 66; 66; 67;
       70; 70; 82; 88; 88; 90; 95; 96; 100] /\
    ~ Sorted Z.le (List.map percent (new_events Fixture.world0 w')).
Proof.
  eexists. split; [vm_compute; reflexivity |].
  assert (Hev : List.map percent
                  (new_events Fixture.world0
                     (snd (runSetup (host_cdn keyed_small_size Fixture.unpack_ok) 3
                             gpu_options Fixture.world0)))
                = [2; 5; 33; 47; 19; 21; 25; 25; 39; 46; 46; 49; 55; 55; 62; 66; 66; 67;
                   70; 70; 82; 88; 88; 90; 95; 96; 100])
    by (vm_compute; reflexivity).
  split; [exact Hev |].
  intros Hs. change (Sorted Z.le
                       (List.map percent
                          (new_events Fixture.world0
                             (snd (runSetup (host_cdn keyed_small_size Fixture.unpack_ok) 3
                                     gpu_options Fixture.world0))))) in Hs.
  rewrite Hev in Hs.
  apply Sorted_inv in Hs as [Hs _]. apply Sorted_inv in Hs as [Hs _].
  apply Sorted_inv in Hs as [Hs _]. apply Sorted_inv in Hs as [_ Hd].
  inversion Hd; subst. lia.
Qed.

(** A run over four archives of the declared size. *)
Lemma progress_nondecreasing_witness :
  Sorted Z.le
    (List.map percent
       (new_events Fixture.world0
          (snd (runSetup (host_cdn keyed_good Fixture.unpack_ok) 3 gpu_options
                  Fixture.world0)))) /\
  List.last
    (List.map percent
       (new_events Fixture.world0
          (snd (runSetup (host_cdn keyed_good Fixture.unpack_ok) 3 gpu_options
                  Fixture.world0)))) 0 = 100.
Proof.
  apply (progress_nondecreasing (host_cdn keyed_good Fixture.unpack_ok) 3 gpu_options
           Fixture.world0 true).
  - vm_compute; reflexivity.
  - reflexivity.
  - vm_compute. repeat (constructor; [discriminate |]). constructor.
Defined.







(** The same host with working tools: the run resolves and the marker
    holds [setupVersion] 2. *)
Example successful_run_writes_marker :
  exists w',
    runSetup (host_cdn keyed_good Fixture.unpack_ok) 3 gpu_options Fixture.world0
    = (Resolved true, w') /\
    fs w' !! setupFlagPath (host_cdn keyed_good Fixture.unpack_ok)
    = Some (Fixture.json_text
              (JObj [ ("setupVersion", JNum 2); ("model", JStr "turbo");
                      ("useGpu", JBool true); ("manifestVersion", JNum 1);
                      ("buildDate", JStr "2026-01-01");
                      ("timestamp", JStr "2026-01-01T00:00:00.000Z") ])).
Proof. eexists. split; vm_compute; reflexivity. Qed.

(** *** Cancellation *)

(** The flag is read at the top of each iteration: with [this.aborted] set
    the loop throws before touching the next archive. *)
Lemma install_from_cancelled (H : Host) fuel manifest i key rest w :
  aborted w = true ->
  install_from H fuel manifest i (key :: rest) w = (Rejected SetupCancelled, w).
Proof. intros Ha. simpl. unfold bind. rewrite Ha. reflexivity. Qed.

(** [abort()] during the first archive: the run stops before the second
    one, rejected with [Setup cancelled], and no marker is written. *)
Example cancelled_run_writes_no_marker :
  exists w',
    runSetup (with_abort (host_cdn keyed_good Fixture.unpack_ok) (Nat.eqb 1)) 3
      gpu_options Fixture.world0 = (Rejected SetupCancelled, w') /\
    fs w' !! setupFlagPath (host_cdn keyed_good Fixture.unpack_ok) = None /\
    List.map percent (sent (ui w')) = [2; 5; 14; 19; 19; 21; 25; 0].
Proof. eexists. split; [vm_compute; reflexivity |]. split; vm_compute; reflexivity. Qed.

(** * Further properties of the installer *)

(** ** Downloads that resume, break off or are refused *)

(** X1: a partial file of [k > 0] bytes is on disk and the ranged request
    is answered with status 206 and a complete body: the body is appended
    to the partial file, the promise resolves, the destination holds the
    old bytes followed by the new ones, the partial file is gone and no
    other file has changed. *)
Theorem resume_answered_206_appends (H : Host) (fuel : nat) (url destPath : string)
    (expectedSize : Z) (progressCb : option (Z -> Z -> Ui -> Ui)) (w : World)
    (partial : string) (res : Response) :
  fs w !! partial_of destPath = Some partial ->
  (0 < String.length partial)%nat ->
  expectedSize = 0 \/ Z.of_nat (String.length partial) < expectedSize ->
  http_get H url (Some (Z.of_nat (String.length partial))) = Responded res ->
  statusCode res = 206 ->
  ending res = EndOk ->
  exists w',
    downloadFileWithResume H (S fuel) url destPath expectedSize progressCb w
    = (Resolved tt, w') /\
    fs w' !! destPath = Some (partial ++ Js.join_chunks (chunks res)) /\
    fs w' !! partial_of destPath = None /\
    (forall q, q <> destPath -> q <> partial_of destPath -> fs w' !! q = fs w !! q).
Proof.
  intros Hp Hk Hsize Hget Hst Hend.
  assert (Hrp : resume_point w destPath = Z.of_nat (String.length partial))
    by (unfold resume_point; now rewrite Hp).
  exists (received_world destPath expectedSize progressCb (resume_point w destPath) res w).
  split; [| split; [| split]].
  - rewrite downloadFileWithResume_requests
      by (right; rewrite Hrp; destruct Hsize; [left | right]; assumption).
    rewrite Hrp. unfold range_header.
    destruct (Z.ltb_spec 0 (Z.of_nat (String.length partial))); [| lia].
    simpl. rewrite Hget, (not_a_redirect (statusCode res)) by auto.
    apply receive_ok; auto.
  - rewrite received_world_dest, opened_content_kept by auto.
    unfold kept_prefix. now rewrite Hst, Hp.
  - apply received_world_partial.
  - intros q Hq1 Hq2. now apply received_world_other.
Qed.

(** A partial file [ab] and a server that honours the range with [c]. *)
Lemma resume_answered_206_appends_witness :
  exists w',
    downloadFileWithResume (host_answers 206 ["c"] EndOk) 1 archive_url zip_path 3 None
      (world_partial "ab") = (Resolved tt, w') /\
    fs w' !! zip_path = Some ("ab" ++ Js.join_chunks ["c"]) /\
    fs w' !! partial_of zip_path = None /\
    (forall q, q <> zip_path -> q <> partial_of zip_path ->
               fs w' !! q = fs (world_partial "ab") !! q).
Proof.
  apply (resume_answered_206_appends (host_answers 206 ["c"] EndOk) 0 archive_url zip_path 3
           None (world_partial "ab") "ab"
           {| statusCode := 206; location := ""; content_length := None;
              chunks := ["c"]; ending := EndOk |}).
  - vm_compute; reflexivity.
  - simpl; lia.
  - right; reflexivity.
  - vm_compute; reflexivity.
  - reflexivity.
  - reflexivity.
Defined.

(** X2: a response with status 200 or 206 whose body breaks off (a stream
    error, or silence until the 30-second timer fires) rejects the promise,
    with the error of the stream or [Connection timed out].  The handler of
    the error closes the write stream all the same, whose ['finish'] handler
    then moves what was received to the destination, after the bytes kept
    from before for 206: the destination holds a truncated file, no
    partial file is left, so that the next call starts from zero, and no
    other file has changed. *)
Theorem interrupted_download_reaches_the_destination (H : Host) (fuel : nat)
    (url destPath : string) (expectedSize : Z) (progressCb : option (Z -> Z -> Ui -> Ui))
    (w : World) (res : Response) :
  issues_request w destPath expectedSize ->
  http_get H url (range_header (resume_point w destPath)) = Responded res ->
  statusCode res = 200 \/ statusCode res = 206 ->
  ending res <> EndOk ->
  exists w',
    downloadFileWithResume H (S fuel) url destPath expectedSize progressCb w
    = (Rejected match ending res with
                | EndError msg => StreamError msg
                | _ => ConnectionTimedOut
                end, w') /\
    fs w' !! destPath
    = Some (kept_prefix (statusCode res) w destPath ++ Js.join_chunks (chunks res)) /\
    fs w' !! partial_of destPath = None /\
    resume_point w' destPath = 0 /\
    (forall q, q <> destPath -> q <> partial_of destPath -> fs w' !! q = fs w !! q).
Proof.
  intros Hreq Hget Hst Hend.
  rewrite downloadFileWithResume_requests by exact Hreq.
  cbn [makeRequest]. rewrite Hget, (not_a_redirect (statusCode res)) by exact Hst.
  cbn [elapse option_map]. rewrite receive_settled by exact Hst.
  eexists. split; [| split; [| split; [| split]]].
  - unfold settled_by.
    destruct (ending res) as [| msg |]; [contradiction | reflexivity | reflexivity].
  - rewrite received_world_dest, opened_content_kept by exact Hst. reflexivity.
  - apply received_world_partial.
  - unfold resume_point. now rewrite received_world_partial.
  - intros q Hq1 Hq2. now apply received_world_other.
Qed.

(** The connection is reset after the first two bytes of three: the
    destination holds the two bytes. *)
Lemma interrupted_download_reaches_the_destination_witness :
  exists w',
    downloadFileWithResume (host_answers 200 ["ab"] (EndError "ECONNRESET")) 1 archive_url
      zip_path 3 None Fixture.world0 = (Rejected (StreamError "ECONNRESET"), w') /\
    fs w' !! zip_path = Some "ab" /\
    fs w' !! partial_of zip_path = None /\
    resume_point w' zip_path = 0.
Proof.
  destruct (interrupted_download_reaches_the_destination
              (host_answers 200 ["ab"] (EndError "ECONNRESET")) 0 archive_url zip_path 3 None
              Fixture.world0
              {| statusCode := 200; location := ""; content_length := None;
                 chunks := ["ab"]; ending := EndError "ECONNRESET" |})
    as (w' & Hrun & Hdest & Hpartial & Hresume & _).
  - left; reflexivity.
  - vm_compute; reflexivity.
  - left; reflexivity.
  - discriminate.
  - exists w'. repeat split; assumption.
Defined.

(** X3: when the request fails to connect, gets no answer, or is answered
    with a status that is none of 200, 206, 301 and 302, the promise is
    rejected ([Download failed: HTTP n] for a status) and nothing has been
    written: the partial file is neither created, truncated nor removed. *)
Theorem refused_request_changes_nothing (H : Host) (fuel : nat) (url destPath : string)
    (expectedSize : Z) (progressCb : option (Z -> Z -> Ui -> Ui)) (w : World)
    (reply : Reply) :
  issues_request w destPath expectedSize ->
  http_get H url (range_header (resume_point w destPath)) = reply ->
  (forall res, reply = Responded res ->
               is_redirect (statusCode res) = false /\
               statusCode res <> 200 /\ statusCode res <> 206) ->
  downloadFileWithResume H (S fuel) url destPath expectedSize progressCb w
  = (Rejected (refusal reply), w).
Proof.
  intros Hreq Hget Hstatus.
  rewrite downloadFileWithResume_requests by exact Hreq.
  simpl. rewrite Hget. destruct reply as [msg | | res]; [reflexivity | reflexivity |].
  destruct (Hstatus res eq_refl) as (Hred & H200 & H206). rewrite Hred.
  now apply receive_bad_status.
Qed.

(** A partial file on disk and a server that answers 404. *)
Lemma refused_request_changes_nothing_witness :
  downloadFileWithResume (host_answers 404 ["Not Found"] EndOk) 1 archive_url zip_path 3
    None (world_partial "ab")
  = (Rejected (refusal (http_get (host_answers 404 ["Not Found"] EndOk) archive_url
                          (range_header (resume_point (world_partial "ab") zip_path)))),
     world_partial "ab").
Proof.
  apply (refused_request_changes_nothing (host_answers 404 ["Not Found"] EndOk) 0
           archive_url zip_path 3 None (world_partial "ab")).
  - right; right; vm_compute; reflexivity.
  - reflexivity.
  - intros res Hres. vm_compute in Hres. inversion Hres; subst res; clear Hres.
    simpl. repeat split; discriminate.
Defined.

(** ** Extraction *)

(** X4: [extractZip] tries [tar.exe] and runs PowerShell only when [tar.exe]
    has failed; it rejects exactly when both fail, and then with the error
    of PowerShell (the one of [tar.exe] is dropped); whatever a failed
    [tar.exe] has unpacked stays on disk under what PowerShell writes. *)
Theorem extractZip_rejects_only_when_both_tools_fail (H : Host)
    (zipPath destDir zip : string) (w : World) :
  fs w !! zipPath = Some zip ->
  (forall e, In e (entries (tar_exe H zip)) -> path_join H [destDir; fst e] <> zipPath) ->
  extractZip H zipPath destDir w
  = match failure (tar_exe H zip) with
    | None => (Resolved tt, unpacked H destDir (tar_exe H zip) w)
    | Some _ =>
        (match failure (Expand_Archive H zip) with
         | None => Resolved tt
         | Some msg => Rejected (ExecError msg)
         end,
         unpacked H destDir (Expand_Archive H zip) (unpacked H destDir (tar_exe H zip) w))
    end.
Proof.
  intros Hz Hclear. unfold extractZip, try_catch.
  rewrite (run_tool_unpacks H _ _ _ zip) by exact Hz.
  destruct (failure (tar_exe H zip)) as [tarError |]; [| reflexivity].
  apply run_tool_unpacks. unfold unpacked. simpl fs.
  rewrite fold_insert_lookup by exact Hclear. exact Hz.
Qed.

(** [tar.exe] fails after one file, PowerShell unpacks the archive. *)
Lemma extractZip_rejects_only_when_both_tools_fail_witness :
  extractZip host_tar_fails zip_path (dataDir host_tar_fails)
    (Fixture.world_with [ (zip_path, "abc") ])
  = (Resolved tt,
     unpacked host_tar_fails (dataDir host_tar_fails) powershell_full
       (unpacked host_tar_fails (dataDir host_tar_fails) tar_partial
          (Fixture.world_with [ (zip_path, "abc") ]))).
Proof.
  apply (extractZip_rejects_only_when_both_tools_fail host_tar_fails zip_path
           (dataDir host_tar_fails) "abc" (Fixture.world_with [ (zip_path, "abc") ])).
  - vm_compute; reflexivity.
  - intros e [<- | []]. vm_compute. discriminate.
Defined.

(** ** One archive *)

Lemma bind_rejected_inv {A B} (m : Promise A) (k : A -> Promise B) w e w' :
  bind m k w = (Rejected e, w') ->
  m w = (Rejected e, w') \/
  exists a w1, m w = (Resolved a, w1) /\ k a w1 = (Rejected e, w').
Proof.
  unfold bind. destruct (m w) as [[a | e0 | |] w1]; intros E; try discriminate.
  - right; eauto.
  - left. inversion E; subst. reflexivity.
Qed.

Lemma sendProgress_runs stg pct msg lg w :
  sendProgress stg pct msg lg w
  = (Resolved tt,
     with_ui (post {| stage := stg; percent := pct; text := msg; log := lg |} (ui w)) w).
Proof. reflexivity. Qed.

Lemma unlink_quietly_runs (p : string) (w : World) :
  exists w', unlink_quietly p w = (Resolved tt, w') /\ fs w' !! p = None /\ ui w' = ui w.
Proof.
  unfold unlink_quietly, try_catch, unlinkSync.
  destruct (fs w !! p) eqn:Ep; eexists; (split; [reflexivity |]); split; auto.
  simpl. apply lookup_delete_eq.
Qed.

Lemma receive_no_checksum_error destPath S cb sb res :
  no_checksum_error (receive (partial_of destPath) destPath S cb sb res).
Proof.
  intros w e w' E.
  destruct (Z.eq_dec (statusCode res) 200) as [E200 | N200];
    [| destruct (Z.eq_dec (statusCode res) 206) as [E206 | N206]].
  3: { rewrite receive_bad_status in E by auto. inversion E; subst. exact id. }
  all: rewrite receive_settled in E by auto; unfold settled_by in E;
    destruct (ending res); inversion E; subst; exact id.
Qed.

Lemma makeRequest_no_checksum_error (H : Host) fuel destPath S cb range sb timer u :
  no_checksum_error
    (makeRequest H fuel (partial_of destPath) destPath S cb range sb timer u).
Proof.
  revert timer u. induction fuel as [| fuel IH]; intros timer u w e w' E; [discriminate |].
  cbn [makeRequest] in E.
  assert (Hhop : match http_get H u range with
                 | ConnError msg => throw (StreamError msg)
                 | NoAnswer => throw ConnectionTimedOut
                 | Responded res =>
                     if is_redirect (statusCode res)
                     then makeRequest H fuel (partial_of destPath) destPath S cb range sb
                            (earliest (elapse timer) (idle_timeout H u)) (location res)
                     else match elapse timer with
                          | Some O => rejected_then ConnectionTimedOut
                                        (receive (partial_of destPath) destPath S cb sb res)
                          | _ => receive (partial_of destPath) destPath S cb sb res
                          end
                 end w = (Rejected e, w') -> ~ is_checksum_error e).
  { intros E0. destruct (http_get H u range) as [msg | | res].
    - inversion E0; subst. exact id.
    - inversion E0; subst. exact id.
    - destruct (is_redirect (statusCode res)); [eapply IH, E0 |].
      destruct (elapse timer) as [[| t] |];
        try (eapply receive_no_checksum_error, E0).
      unfold rejected_then in E0. inversion E0; subst. exact id. }
  destruct timer as [[| t] |]; try (exact (Hhop E)).
  unfold rejected_then in E. inversion E; subst. exact id.
Qed.

Lemma downloadFileWithResume_no_checksum_error (H : Host) fuel url destPath S cb :
  no_checksum_error (downloadFileWithResume H fuel url destPath S cb).
Proof.
  intros w e w' E. unfold downloadFileWithResume in E.
  destruct (fs w !! partial_of destPath) as [partial |] eqn:Ep.
  - destruct (negb (S =? 0) && (S <=? Z.of_nat (String.length partial))).
    + unfold renameSync in E. rewrite Ep in E. discriminate.
    + eapply makeRequest_no_checksum_error, E.
  - eapply makeRequest_no_checksum_error, E.
Qed.

Lemma run_tool_no_checksum_error (H : Host) tool zipPath destDir :
  no_checksum_error (run_tool H tool zipPath destDir).
Proof.
  intros w e w' E. unfold run_tool in E.
  destruct (fs w !! zipPath) as [zip |]; [| inversion E; subst; exact id].
  unfold bind, unpack_into, effect in E.
  destruct (failure (tool zip)); inversion E; subst; exact id.
Qed.

Lemma extractZip_no_checksum_error (H : Host) zipPath destDir :
  no_checksum_error (extractZip H zipPath destDir).
Proof.
  intros w e w' E. unfold extractZip in E.
  apply try_catch_inv in E as [(e0 & w1 & _ & E) | (E & _)];
    eapply run_tool_no_checksum_error, E.
Qed.

(** X5: the downloaded archive does not outlive its installation: when
    [downloadAndInstallArchive] resolves, and also when it rejects because
    the digest does not match, the file [path.join(dataDir, filename)] is
    no longer on disk (a checksum error comes from the verification step
    only, whose [catch] deletes the file before throwing again). *)
Theorem archive_file_is_removed (H : Host) (fuel : nat) (info : ArchiveInfo)
    (key : string) (pS pE : Z) (stg : string) (w : World) (r : outcome unit) (w' : World) :
  downloadAndInstallArchive H fuel info key pS pE stg w = (r, w') ->
  r = Resolved tt \/ (exists e, r = Rejected e /\ is_checksum_error e) ->
  fs w' !! path_join H [dataDir H; filename info] = None.
Proof.
  intros E [-> | (e & -> & Hsum)]; unfold downloadAndInstallArchive in E.
  - apply bind_resolved_inv in E as ([] & w1 & _ & E).
    apply bind_resolved_inv in E as ([] & w2 & _ & E).
    apply bind_resolved_inv in E as ([] & w3 & _ & E).
    apply bind_resolved_inv in E as (ok & w4 & _ & E).
    apply bind_resolved_inv in E as ([] & w5 & _ & E).
    apply bind_resolved_inv in E as ([] & w6 & _ & E).
    apply bind_resolved_inv in E as ([] & w7 & E7 & E).
    destruct (unlink_quietly_runs (path_join H [dataDir H; filename info]) w6)
      as (w7' & E7' & Hgone & _).
    rewrite E7' in E7. inversion E7; subst w7'; clear E7.
    rewrite sendProgress_runs in E. inversion E; subst w'. exact Hgone.
  - apply bind_rejected_inv in E as [E | ([] & w1 & _ & E)]; [discriminate |].
    apply bind_rejected_inv in E as [E | ([] & w2 & _ & E)].
    { exfalso. eapply downloadFileWithResume_no_checksum_error; eauto. }
    apply bind_rejected_inv in E as [E | ([] & w3 & _ & E)]; [discriminate |].
    apply bind_rejected_inv in E as [E | (ok & w4 & _ & E)].
    + apply try_catch_inv in E as [(e0 & w3' & Ev & E) | (_ & Hne)].
      2: { exfalso. exact (Hne e eq_refl). }
      apply verifyChecksum_same_world in Ev. subst w3'.
      destruct (unlink_quietly_runs (path_join H [dataDir H; filename info]) w3)
        as (w4 & E4 & Hgone & _).
      unfold bind in E. rewrite E4 in E. inversion E; subst. exact Hgone.
    + apply bind_rejected_inv in E as [E | ([] & w5 & _ & E)]; [discriminate |].
      apply bind_rejected_inv in E as [E | ([] & w6 & _ & E)].
      { exfalso. eapply extractZip_no_checksum_error; eauto. }
      apply bind_rejected_inv in E as [E | ([] & w7 & _ & E)]; [| discriminate].
      destruct (unlink_quietly_runs (path_join H [dataDir H; filename info]) w6)
        as (w7 & E7 & _). rewrite E7 in E. discriminate.
Qed.

(** The first archive arrives complete but the manifest declares another
    digest: the rejection is the checksum error and the file is gone. *)
Lemma archive_file_is_removed_witness :
  fs (snd (downloadAndInstallArchive (host_cdn keyed_bad_digest Fixture.unpack_ok) 1
             {| filename := "python-core.zip"; size := 3; sha256 := near_miss_sha256 |}
             "python-core" 5 25 "python" Fixture.world0))
    !! path_join (host_cdn keyed_bad_digest Fixture.unpack_ok)
         [dataDir (host_cdn keyed_bad_digest Fixture.unpack_ok); "python-core.zip"]
  = None.
Proof.
  apply (archive_file_is_removed (host_cdn keyed_bad_digest Fixture.unpack_ok) 1
           {| filename := "python-core.zip"; size := 3; sha256 := near_miss_sha256 |}
           "python-core" 5 25 "python" Fixture.world0
           (Rejected (ChecksumMismatch "python-core.zip" "e3b0c44298fc" "ba7816bf8f01"))).
  - vm_compute; reflexivity.
  - right. eexists. split; [reflexivity | exact I].
Defined.

(** ** Runs that stop early *)

Lemma validate_first_missing (manifest : Manifest) (keys : list string) (key : string)
    (w : World) :
  List.find (fun k => negb (has_archive manifest k)) keys = Some key ->
  validate manifest keys w = (Rejected (ArchiveNotFound key), w).
Proof.
  induction keys as [| k rest IH]; simpl; [discriminate |].
  unfold has_archive at 1. destruct (archives manifest !! k); simpl.
  - exact IH.
  - intros E. inversion E; subst. reflexivity.
Qed.

Lemma validate_all_present (manifest : Manifest) (keys : list string) (w : World) :
  List.find (fun k => negb (has_archive manifest k)) keys = None ->
  validate manifest keys w = (Resolved tt, w).
Proof.
  induction keys as [| k rest IH]; simpl; [reflexivity |].
  unfold has_archive at 1. destruct (archives manifest !! k); simpl; [exact IH | discriminate].
Qed.

(** [runSetup] up to the validation of the manifest. *)
Lemma runSetup_until_validate (H : Host) fuel options w manifest :
  fetchManifest_outcome H = Resolved manifest ->
  runSetup_body H fuel options w
  = (validate manifest (archiveKeys (useGpu options) manifest) ;;
     install_from H fuel manifest 0 (archiveKeys (useGpu options) manifest) ;;
     sendProgress "model" 96 "Finalizing installation..." (Some "Writing setup config") ;;
     enable_site_packages H ;;
     writeFileSync (setupFlagPath H) (JSON_stringify H (marker_object H options manifest)) ;;
     sendProgress "complete" 100 "Setup complete!" (Some "VoiceCraft is ready to use") ;;
     ret true)
      (with_aborted (abort_called H 0) (with_ui (post fetching_event (ui w)) w)).
Proof.
  intros Hm. unfold runSetup_body.
  unfold bind at 1. unfold effect at 1.
  unfold bind at 1. rewrite sendProgress_runs.
  unfold bind at 1. unfold try_catch, awaited, fetchManifest, settle. rewrite Hm.
  reflexivity.
Qed.

Lemma runSetup_body_fetch_failed (H : Host) fuel options w err :
  fetchManifest_outcome H = Rejected err ->
  runSetup_body H fuel options w
  = (Rejected (CannotReachServer (message err)),
     with_ui (post fetching_event (ui w)) (with_aborted (abort_called H 0) w)).
Proof.
  intros Herr. unfold runSetup_body.
  unfold bind at 1. unfold effect at 1.
  unfold bind at 1. rewrite sendProgress_runs.
  unfold bind at 1. unfold try_catch, awaited, fetchManifest, settle. rewrite Herr.
  reflexivity.
Qed.

(** X6: when the manifest cannot be fetched, [runSetup] wraps the error as
    [Cannot reach download server: ... Check your internet connection.],
    sends the error event after the one that announced the fetch, rejects,
    and has touched no file; [this.aborted], cleared at the start, is set
    again exactly when [abort()] arrived while the fetch was pending. *)
Theorem unreachable_server_is_reported (H : Host) (fuel : nat) (options : Options)
    (w : World) (err : JsError) :
  fetchManifest_outcome H = Rejected err ->
  runSetup H fuel options w
  = (Rejected (CannotReachServer (message err)),
     with_ui (posted [fetching_event; error_event H (CannotReachServer (message err))]
                (ui w))
       (with_aborted (abort_called H 0) w)).
Proof.
  intros Herr. unfold runSetup, try_catch.
  rewrite (runSetup_body_fetch_failed H fuel options w err Herr).
  unfold bind. rewrite sendProgress_runs. reflexivity.
Qed.

(** No network at all, and [abort()] is called while the fetch is failing:
    the flag stays set. *)
Lemma unreachable_server_is_reported_witness :
  runSetup (with_abort Fixture.host_offline (Nat.eqb 0)) 3 gpu_options Fixture.world0
  = (Rejected (CannotReachServer (message (StreamError "ENOTFOUND"))),
     with_ui (posted [fetching_event;
                      error_event (with_abort Fixture.host_offline (Nat.eqb 0))
                        (CannotReachServer (message (StreamError "ENOTFOUND")))]
                (ui Fixture.world0))
       (with_aborted true Fixture.world0)).
Proof.
  apply (unreachable_server_is_reported (with_abort Fixture.host_offline (Nat.eqb 0)) 3
           gpu_options Fixture.world0 (StreamError "ENOTFOUND")).
  reflexivity.
Defined.

(** X7: the keys of the run are checked against the manifest before the
    first download: when one is missing, [runSetup] rejects with
    [Archive "<key>" not found in manifest...] for the first missing key in
    installation order, having made no request for an archive and written
    no file; the renderer got the fetch event and the error event. *)
Theorem missing_archive_stops_the_run_before_any_download (H : Host) (fuel : nat)
    (options : Options) (w : World) (manifest : Manifest) (key : string) :
  fetchManifest_outcome H = Resolved manifest ->
  first_missing manifest (useGpu options) = Some key ->
  exists w',
    runSetup H fuel options w = (Rejected (ArchiveNotFound key), w') /\
    fs w' = fs w /\
    progressCalls w' = progressCalls w /\
    ui w' = posted [fetching_event; error_event H (ArchiveNotFound key)] (ui w).
Proof.
  intros Hm Hmiss. unfold runSetup, try_catch.
  rewrite (runSetup_until_validate H fuel options w manifest Hm).
  unfold bind at 1. rewrite (validate_first_missing _ _ key) by exact Hmiss.
  unfold bind. rewrite sendProgress_runs. unfold throw.
  eexists. split; [reflexivity |]. repeat split.
Qed.

(** The manifest served lacks [packages]. *)
Lemma missing_archive_stops_the_run_before_any_download_witness :
  exists w',
    runSetup (host_cdn keyed_no_packages Fixture.unpack_ok) 3 gpu_options Fixture.world0
    = (Rejected (ArchiveNotFound "packages"), w') /\
    fs w' = fs Fixture.world0 /\
    progressCalls w' = progressCalls Fixture.world0 /\
    ui w' = posted [fetching_event;
                    error_event (host_cdn keyed_no_packages Fixture.unpack_ok)
                      (ArchiveNotFound "packages")] (ui Fixture.world0).
Proof.
  apply (missing_archive_stops_the_run_before_any_download
           (host_cdn keyed_no_packages Fixture.unpack_ok) 3 gpu_options Fixture.world0
           (Fixture.manifest_of 1 "2026-01-01" keyed_no_packages) "packages").
  - vm_compute; reflexivity.
  - vm_compute; reflexivity.
Defined.

Lemma archiveKeys_starts_with_python (useGpu : bool) (manifest : Manifest) :
  exists rest, archiveKeys useGpu manifest = "python-core" :: rest.
Proof. unfold archiveKeys. eexists. reflexivity. Qed.

(** X8: [abort()] arriving while the manifest is being fetched cancels
    the run at the top of the loop: the manifest is still validated, then
    [runSetup] rejects with [Setup cancelled] before the first archive, with
    no file written and no progress callback made. *)
Theorem abort_during_fetch_cancels_before_first_archive (H : Host) (fuel : nat)
    (options : Options) (w : World) (manifest : Manifest) :
  fetchManifest_outcome H = Resolved manifest ->
  first_missing manifest (useGpu options) = None ->
  abort_called H 0 = true ->
  exists w',
    runSetup H fuel options w = (Rejected SetupCancelled, w') /\
    fs w' = fs w /\
    progressCalls w' = progressCalls w /\
    ui w' = posted [fetching_event; error_event H SetupCancelled] (ui w).
Proof.
  intros Hm Hall Habort. unfold runSetup, try_catch.
  rewrite (runSetup_until_validate H fuel options w manifest Hm).
  unfold bind at 1. rewrite validate_all_present by exact Hall.
  destruct (archiveKeys_starts_with_python (useGpu options) manifest) as [rest ->].
  unfold bind at 1. rewrite install_from_cancelled by (simpl; exact Habort).
  unfold bind. rewrite sendProgress_runs. unfold throw.
  eexists. split; [reflexivity |]. repeat split.
Qed.

(** The download server is up and [abort()] comes during the first await. *)
Lemma abort_during_fetch_cancels_before_first_archive_witness :
  exists w',
    runSetup (with_abort (host_cdn keyed_good Fixture.unpack_ok) (Nat.eqb 0)) 3
      gpu_options Fixture.world0 = (Rejected SetupCancelled, w') /\
    fs w' = fs Fixture.world0 /\
    progressCalls w' = progressCalls Fixture.world0 /\
    ui w' = posted [fetching_event;
                    error_event (with_abort (host_cdn keyed_good Fixture.unpack_ok)
                                   (Nat.eqb 0)) SetupCancelled] (ui Fixture.world0).
Proof.
  apply (abort_during_fetch_cancels_before_first_archive
           (with_abort (host_cdn keyed_good Fixture.unpack_ok) (Nat.eqb 0)) 3 gpu_options
           Fixture.world0 (Fixture.manifest_of 1 "2026-01-01" keyed_good)).
  - vm_compute; reflexivity.
  - vm_compute; reflexivity.
  - reflexivity.
Defined.

(** X9: [runSetup] starts by clearing [this.aborted], so an [abort()] made
    before the run has no effect on it: the run after [abort()] is the run
    without it, outcome and final state alike. *)
Theorem abort_before_the_run_is_forgotten (H : Host) (fuel : nat) (options : Options)
    (w : World) :
  (abort ;; runSetup H fuel options) w = runSetup H fuel options w.
Proof.
  unfold bind at 1. unfold abort, effect at 1.
  unfold runSetup, try_catch, runSetup_body.
  unfold bind at 1 13. unfold effect at 1 2. reflexivity.
Qed.

(** ** What the renderer is sent *)

Lemma posted_app (evs1 evs2 : list ProgressEvent) (u : Ui) :
  posted (evs1 ++ evs2) u = posted evs2 (posted evs1 u).
Proof. apply fold_left_app. Qed.

Lemma posted_closed (evs : list ProgressEvent) (u : Ui) :
  windowOpen u = false -> posted evs u = u.
Proof.
  intros Hc. induction evs as [| ev evs IH]; simpl; [reflexivity |].
  replace (post ev u) with u by (unfold post; now rewrite Hc). exact IH.
Qed.


Lemma posts_refl w : posts w w.
Proof. now exists []. Qed.

Lemma posts_trans w1 w2 w3 : posts w1 w2 -> posts w2 w3 -> posts w1 w3.
Proof.
  intros [evs1 H1] [evs2 H2]. exists (evs1 ++ evs2)%list.
  now rewrite posted_app, <- H1.
Qed.

Lemma posts_bind {A B} (m : Promise A) (k : A -> Promise B) :
  always posts m -> (forall a, always posts (k a)) -> always posts (bind m k).
Proof. apply always_bind, posts_trans. Qed.

Lemma posts_try_catch {A} (m : Promise A) (h : JsError -> Promise A) :
  always posts m -> (forall e, always posts (h e)) -> always posts (try_catch m h).
Proof. apply always_try_catch, posts_trans. Qed.

Lemma silent_posts {A} (m : Promise A) : always silent m -> always posts m.
Proof. intros Hm w r w' E. destruct (Hm w r w' E) as [Hu _]. exists []. exact Hu. Qed.

Lemma sendProgress_posts stg pct msg lg : always posts (sendProgress stg pct msg lg).
Proof.
  intros w r w' E. rewrite sendProgress_runs in E. inversion E; subst.
  now exists [ {| stage := stg; percent := pct; text := msg; log := lg |} ].
Qed.

Lemma pump_observed_posts stg label pS pE total cs d w :
  posts w (pump_observed (Some (download_progress stg label pS pE)) total cs d w).
Proof.
  revert d w. induction cs as [| c cs IH]; intros d w; simpl; [apply posts_refl |].
  eapply posts_trans; [| apply IH].
  destruct total as [t |]; [| apply posts_refl].
  destruct (truthy_number (Some t)); [| apply posts_refl].
  eexists [_]. reflexivity.
Qed.

(** Whatever its outcome, a response changes the renderer side as the
    chunks it delivered do. *)
Lemma receive_posts destPath S stg label pS pE sb res :
  always posts (receive (partial_of destPath) destPath S
                  (Some (download_progress stg label pS pE)) sb res).
Proof.
  intros w r w' E.
  destruct (Z.eq_dec (statusCode res) 200) as [E200 | N200];
    [| destruct (Z.eq_dec (statusCode res) 206) as [E206 | N206]].
  3: { rewrite receive_bad_status in E by auto. inversion E; subst. apply posts_refl. }
  all: rewrite receive_settled in E by auto; inversion E; subst;
    apply pump_observed_posts.
Qed.

Lemma downloadFileWithResume_posts (H : Host) fuel url destPath S stg label pS pE :
  always posts (downloadFileWithResume H fuel url destPath S
                  (Some (download_progress stg label pS pE))).
Proof.
  intros w r w' E. unfold downloadFileWithResume in E.
  assert (Hreq : forall range sb,
            makeRequest H fuel (partial_of destPath) destPath S
              (Some (download_progress stg label pS pE)) range sb None url w = (r, w') ->
            posts w w').
  { intros range sb Er. revert Er.
    apply makeRequest_always; [apply posts_refl | intros res; apply receive_posts]. }
  destruct (fs w !! partial_of destPath) as [partial |]; [| eapply Hreq, E].
  destruct (negb (S =? 0) && (S <=? Z.of_nat (String.length partial))); [| eapply Hreq, E].
  eapply (silent_posts _ (renameSync_silent _ _)), E.
Qed.

Lemma downloadAndInstallArchive_posts (H : Host) fuel info key pS pE stg :
  always posts (downloadAndInstallArchive H fuel info key pS pE stg).
Proof.
  unfold downloadAndInstallArchive.
  apply posts_bind; [apply sendProgress_posts | intros _].
  apply posts_bind; [apply downloadFileWithResume_posts | intros _].
  apply posts_bind; [apply sendProgress_posts | intros _].
  apply posts_bind.
  { apply silent_posts. apply silent_try_catch; [apply verifyChecksum_silent | intros e].
    apply silent_bind; [apply unlink_quietly_silent | intros _; apply silent_throw]. }
  intros _.
  apply posts_bind; [apply sendProgress_posts | intros _].
  apply posts_bind; [apply silent_posts, extractZip_silent | intros _].
  apply posts_bind; [apply silent_posts, unlink_quietly_silent | intros _].
  apply sendProgress_posts.
Qed.

Lemma install_from_posts (H : Host) fuel manifest keys :
  forall i, always posts (install_from H fuel manifest i keys).
Proof.
  induction keys as [| key rest IH]; intros i; simpl.
  - apply silent_posts, silent_ret.
  - apply posts_bind.
    { intros w r w' E. destruct (aborted w); inversion E; subst; apply posts_refl. }
    intros _. destruct (archives manifest !! key) as [info |];
      [| apply silent_posts, silent_throw].
    apply posts_bind; [| intros _; apply IH].
    apply always_awaited; [intros w w' b Hp; exact Hp |].
    apply downloadAndInstallArchive_posts.
Qed.

Lemma runSetup_body_posts (H : Host) fuel options : always posts (runSetup_body H fuel options).
Proof.
  unfold runSetup_body.
  apply posts_bind.
  { apply always_effect. intros w. now exists []. }
  intros _. apply posts_bind; [apply sendProgress_posts | intros _].
  apply posts_bind.
  { intros w r w' E. apply fetch_or_wrap_inv in E as [-> _]. now exists []. }
  intros manifest.
  apply posts_bind; [apply silent_posts, validate_silent | intros _].
  apply posts_bind; [apply install_from_posts | intros _].
  apply posts_bind; [apply sendProgress_posts | intros _].
  apply posts_bind; [apply silent_posts, enable_site_packages_silent | intros _].
  apply posts_bind.
  { apply always_effect. intros w. now exists []. }
  intros _. apply posts_bind; [apply sendProgress_posts | intros _].
  apply silent_posts, silent_ret.
Qed.



(** X11: with the window destroyed nothing is sent at any point of the
    run, whatever its outcome: the guard of [sendProgress] also covers the
    progress callback of the downloads and the error event. *)
Theorem destroyed_window_receives_nothing (H : Host) (fuel : nat) (options : Options)
    (w : World) (r : outcome bool) (w' : World) :
  windowOpen (ui w) = false ->
  runSetup H fuel options w = (r, w') ->
  ui w' = ui w.
Proof.
  intros Hclosed E.
  assert (Hposts : always posts (runSetup H fuel options)).
  { unfold runSetup. apply posts_try_catch; [apply runSetup_body_posts | intros e].
    apply posts_bind; [apply sendProgress_posts | intros _].
    apply silent_posts, silent_throw. }
  destruct (Hposts w r w' E) as [evs Hevs].
  rewrite Hevs. now apply posted_closed.
Qed.

(** A complete run behind a destroyed window. *)
Lemma destroyed_window_receives_nothing_witness :
  ui (snd (runSetup (host_cdn keyed_good Fixture.unpack_ok) 3 gpu_options world_closed))
  = ui world_closed.
Proof.
  apply (destroyed_window_receives_nothing (host_cdn keyed_good Fixture.unpack_ok) 3
           gpu_options world_closed
           (fst (runSetup (host_cdn keyed_good Fixture.unpack_ok) 3 gpu_options
                   world_closed))).
  - reflexivity.
  - apply surjective_pairing.
Defined.

(** ** The marker read back *)

(** X12: a run that resolves leaves a marker that [isSetupComplete]
    accepts and that makes [needsSetup] answer false, provided [JSON.parse]
    reads back what [JSON.stringify] wrote for the marker object. *)
Theorem completed_run_is_recognised (H : Host) (fuel : nat) (options : Options)
    (w : World) (b : bool) (w' : World) :
  (forall manifest,
      fetchManifest_outcome H = Resolved manifest ->
      JSON_parse H (JSON_stringify H (marker_object H options manifest))
      = ParseOk (marker_object H options manifest)) ->
  runSetup H fuel options w = (Resolved b, w') ->
  isSetupComplete H w' = true /\ needsSetup H w' = false.
Proof.
  intros Hjson E. unfold runSetup in E.
  apply try_catch_inv in E as [(e & w1 & _ & E2) | (E & _)].
  { unfold bind in E2. rewrite sendProgress_runs in E2. discriminate. }
  apply runSetup_body_cases in E as [(manifest & _ & Hm & Hmarker) | (Hnr & _)].
  2: { exfalso. exact (Hnr b eq_refl). }
  split.
  - unfold isSetupComplete. rewrite Hmarker, (Hjson manifest Hm). reflexivity.
  - unfold needsSetup, existsSync. fold (dataDir H). fold (setupFlagPath H).
    now rewrite Hmarker.
Qed.

(** A complete run on a host whose parser knows the marker of that run. *)
Lemma completed_run_is_recognised_witness :
  isSetupComplete host_cdn_reading_marker
    (snd (runSetup host_cdn_reading_marker 3 gpu_options Fixture.world0)) = true /\
  needsSetup host_cdn_reading_marker
    (snd (runSetup host_cdn_reading_marker 3 gpu_options Fixture.world0)) = false.
Proof.
  apply (completed_run_is_recognised host_cdn_reading_marker 3 gpu_options Fixture.world0
           true).
  - intros manifest Hm. vm_compute in Hm. inversion Hm; subst manifest; clear Hm.
    vm_compute. reflexivity.
  - vm_compute; reflexivity.
Defined.

Lemma two_le_is_truthy (q : Q) : Qle_bool 2 q = true -> Qeq_bool q 0 = false.
Proof.
  intros Hle. apply Qle_bool_iff in Hle.
  destruct (Qeq_bool q 0) eqn:E; [| reflexivity].
  apply Qeq_bool_iff in E. rewrite E in Hle. revert Hle. unfold Qle; simpl. lia.
Qed.

(** X13: which markers [isSetupComplete] accepts.  For a marker that holds
    an object, the answer depends on its [setupVersion] alone: absent,
    [null] or a boolean give false; a number gives true exactly from 2 on;
    any other value (a text, an array, an object) gives true as soon as it
    is truthy and does not convert to a number below 2, so a text that
    converts to [NaN] is accepted. *)
Theorem isSetupComplete_by_setupVersion (H : Host) (w : World) (content : string)
    (fields : list (string * json)) :
  fs w !! setupFlagPath H = Some content ->
  JSON_parse H content = ParseOk (JObj fields) ->
  isSetupComplete H w
  = match setupVersion_field fields with
    | None | Some JNull | Some (JBool _) => false
    | Some (JNum q) => Qle_bool (inject_Z SETUP_VERSION) q
    | Some j =>
        truthy (Some j) &&
        match ToNumber_text H j with
        | Some n => Qle_bool (inject_Z SETUP_VERSION) n
        | None => true
        end
    end.
Proof.
  intros Hfile Hparse. unfold isSetupComplete. rewrite Hfile, Hparse.
  unfold get_setupVersion. fold (setupVersion_field fields).
  destruct (setupVersion_field fields) as [[| [|] | q | s | items | obj] |];
    try reflexivity; unfold less_than, ToNumber.
  - simpl truthy. destruct (Qle_bool (inject_Z SETUP_VERSION) q) eqn:Hq.
    + rewrite (two_le_is_truthy q Hq). reflexivity.
    + simpl. now rewrite orb_true_r.
  - destruct (truthy (Some (JStr s))); [| reflexivity]. simpl.
    destruct (ToNumber_text H (JStr s)) as [n |]; [| reflexivity].
    destruct (Qle_bool _ n); reflexivity.
  - simpl. destruct (ToNumber_text H (JArr items)) as [n |]; [| reflexivity].
    destruct (Qle_bool _ n); reflexivity.
  - simpl. destruct (ToNumber_text H (JObj obj)) as [n |]; [| reflexivity].
    destruct (Qle_bool _ n); reflexivity.
Qed.

(** A marker whose [setupVersion] is the text [two] is accepted. *)
Lemma isSetupComplete_by_setupVersion_witness :
  isSetupComplete (host_knowing [marker_with_text_version])
    (world_marker (host_knowing [marker_with_text_version])
       (Fixture.json_text marker_with_text_version))
  = true.
Proof.
  apply (isSetupComplete_by_setupVersion (host_knowing [marker_with_text_version])
           (world_marker (host_knowing [marker_with_text_version])
              (Fixture.json_text marker_with_text_version))
           (Fixture.json_text marker_with_text_version)
           [ ("setupVersion", JStr "two"); ("model", JStr "turbo") ]).
  - vm_compute; reflexivity.
  - vm_compute; reflexivity.
Defined.

(** ** The GPU memory test *)

Lemma vram_threshold (vramMB : Z) :
  at_least (vram_GB (Some vramMB)) MIN_VRAM_GB = true <-> 4045 <= vramMB.
Proof.
  unfold at_least, vram_GB, MIN_VRAM_GB. simpl option_map. rewrite Qle_bool_iff.
  transitivity (40 <= Js.Math_round (inject_Z vramMB / 1024 * 10)).
  - unfold Qle, Qdiv, Qmult, Qinv, inject_Z; simpl. lia.
  - unfold Js.Math_round. rewrite Qfloor_ge_iff.
    unfold Qle, Qdiv, Qmult, Qinv, Qplus, inject_Z; simpl. lia.
Qed.

(** X14: on Windows, when [nvidia-smi] names a GPU and reports [vramMB]
    megabytes, the probe of either installer reports the GPU, its name
    (first line of the answer), the memory in GB rounded to one decimal,
    and [hasEnoughVram] true exactly when that rounded value reaches 4.0,
    that is from 4045 MB on (3.95 GB), not from 4096 MB on. *)
Theorem hasEnoughVram_rounded_threshold (H : Host) (w : World)
    (nameResult vramResult : string) (vramMB : Z) :
  platform H = "win32" ->
  execSync H gpu_name_command = Stdout nameResult ->
  Js.trim nameResult <> "" ->
  execSync H gpu_vram_command = Stdout vramResult ->
  Js.parseInt (first_line vramResult) = Some vramMB ->
  (exists info,
      checkSystem H w = Resolved info /\
      hasNvidiaGpu info = true /\
      gpuName info = Some (first_line nameResult) /\
      gpuVram info = vram_GB (Some vramMB) /\
      (hasEnoughVram info = true <-> 4045 <= vramMB)) /\
  (exists info,
      Legacy.checkSystem H w = Resolved info /\
      hasNvidiaGpu info = true /\
      gpuName info = Some (first_line nameResult) /\
      gpuVram info = vram_GB (Some vramMB) /\
      (hasEnoughVram info = true <-> 4045 <= vramMB)).
Proof.
  intros Hwin Hname Hblank Hvram Hparse.
  assert (Hgpu : forall i,
            after_gpu H i
            = set_hasEnoughVram (at_least (vram_GB (Some vramMB)) MIN_VRAM_GB)
                (set_gpuVram (vram_GB (Some vramMB))
                   (set_gpuName (Some (first_line nameResult)) (set_hasNvidiaGpu true i)))).
  { intros i. unfold after_gpu. rewrite Hwin, Hname, Hvram, Hparse. simpl String.eqb.
    apply String.eqb_neq in Hblank. rewrite Hblank. reflexivity. }
  split.
  - eexists. split; [apply checkSystem_resolved |].
    match goal with |- context [after_disk H ?f ?i] =>
      destruct (after_disk_frame H f i) as (_ & _ & -> & -> & -> & ->) end.
    rewrite Hgpu. simpl. repeat split; try apply vram_threshold.
  - eexists. split; [apply legacy_checkSystem_resolved |].
    match goal with |- context [after_disk H ?f ?i] =>
      destruct (after_disk_frame H f i) as (_ & _ & -> & -> & -> & ->) end.
    rewrite Hgpu. simpl. repeat split; try apply vram_threshold.
Qed.

(** A card reporting 4050 MB: 3.96 GB, shown and compared as 4.0. *)
Lemma hasEnoughVram_rounded_threshold_witness :
  (exists info,
      checkSystem (host_gpu "NVIDIA GeForce GTX 1650" "4050") Fixture.world0
      = Resolved info /\
      hasNvidiaGpu info = true /\
      gpuName info
      = Some (first_line ("NVIDIA GeForce GTX 1650" ++ String Js.newline "")) /\
      gpuVram info = vram_GB (Some 4050) /\
      (hasEnoughVram info = true <-> 4045 <= 4050)) /\
  (exists info,
      Legacy.checkSystem (host_gpu "NVIDIA GeForce GTX 1650" "4050") Fixture.world0
      = Resolved info /\
      hasNvidiaGpu info = true /\
      gpuName info
      = Some (first_line ("NVIDIA GeForce GTX 1650" ++ String Js.newline "")) /\
      gpuVram info = vram_GB (Some 4050) /\
      (hasEnoughVram info = true <-> 4045 <= 4050)).
Proof.
  apply (hasEnoughVram_rounded_threshold (host_gpu "NVIDIA GeForce GTX 1650" "4050")
           Fixture.world0 ("NVIDIA GeForce GTX 1650" ++ String Js.newline "")
           ("4050" ++ String Js.newline "") 4050).
  - reflexivity.
  - vm_compute; reflexivity.
  - vm_compute; discriminate.
  - vm_compute; reflexivity.
  - vm_compute; reflexivity.
Defined.

(** * The launcher *)

(** ** Which Python is started *)

Lemma first_existing_exists (w : World) (candidates : list string) (p : string) :
  first_existing w candidates = Some p -> existsSync p w = true /\ In p candidates.
Proof. intros Hf. apply find_some in Hf. tauto. Qed.

(** X15: [findPython] of both installers returns a file that exists,
    never a path it has not tested, and on Windows the installer that
    downloads archives prefers the embedded Python to any virtual
    environment. *)
Theorem findPython_returns_an_existing_file (H : Host) (w : World) :
  (forall p, findPython H w = Some p -> existsSync p w = true) /\
  (forall p, Legacy.findPython H w = Some p -> existsSync p w = true) /\
  (platform H = "win32" -> existsSync (embedded_python H) w = true ->
   findPython H w = Some (embedded_python H)).
Proof.
  split; [| split].
  - intros p Hp. now apply first_existing_exists in Hp.
  - intros p. unfold Legacy.findPython.
    destruct (first_existing w _) as [q |] eqn:Hq.
    + intros E. inversion E; subst. now apply first_existing_exists in Hq.
    + unfold Legacy.system_python. destruct (execSync H _); [| discriminate].
      destruct (existsSync _ w) eqn:Hex; [| discriminate].
      intros E. inversion E; subst. exact Hex.
  - intros Hwin Hex. unfold findPython, first_existing. rewrite Hwin. simpl.
    unfold embedded_python, dataDir in *. now rewrite Hex.
Qed.

(** X16: [getPythonPath] returns an existing candidate or else the bare
    command name, and on Windows it prefers the virtual environment of the
    user-data directory: when that interpreter and the embedded one both
    exist, the backend is started with the first while [checkSystem] of
    the installer reports the version of the second. *)
Theorem getPythonPath_prefers_the_venv (H : Host) (w : World) :
  (existsSync (Launcher.getPythonPath H w) w = true \/
   Launcher.getPythonPath H w = system_command H) /\
  (platform H = "win32" ->
   existsSync (venv_python H) w = true ->
   existsSync (embedded_python H) w = true ->
   Launcher.getPythonPath H w = venv_python H /\
   findPython H w = Some (embedded_python H)).
Proof.
  split.
  - unfold Launcher.getPythonPath, system_command.
    destruct (first_existing w _) as [p |] eqn:Hp; [left | right; reflexivity].
    now apply first_existing_exists in Hp.
  - intros Hwin Hvenv Hemb. split.
    + unfold Launcher.getPythonPath, first_existing. rewrite Hwin. simpl.
      unfold venv_python in Hvenv. now rewrite Hvenv.
    + unfold findPython, first_existing. rewrite Hwin. simpl.
      unfold embedded_python, dataDir in *. now rewrite Hemb.
Qed.

(** ** The standard error kept for the crash report *)

Lemma drop_length (k : nat) (s : string) :
  String.length (Js.drop k s) = (String.length s - k)%nat.
Proof.
  revert s. induction k as [| k IH]; intros s; simpl.
  - destruct s; simpl; lia.
  - destruct s as [| c s]; simpl; [reflexivity | apply IH].
Qed.

Lemma drop_all (k : nat) (s : string) : (String.length s <= k)%nat -> Js.drop k s = "".
Proof.
  revert s. induction k as [| k IH]; intros s Hk.
  - destruct s; [reflexivity | simpl in Hk; lia].
  - destruct s as [| c s]; [reflexivity |]. simpl in *. apply IH. lia.
Qed.

Lemma drop_zero (s : string) : Js.drop 0 s = s.
Proof. destruct s; reflexivity. Qed.

Lemma drop_app_le (k : nat) (a c : string) :
  (k <= String.length a)%nat -> Js.drop k (a ++ c) = Js.drop k a ++ c.
Proof.
  revert a. induction k as [| k IH]; intros a Hk.
  - now rewrite !drop_zero.
  - destruct a as [| x a]; [simpl in Hk; lia |].
    rewrite string_app_cons. simpl. apply IH. simpl in Hk. lia.
Qed.

Lemma drop_drop (i j : nat) (s : string) : Js.drop j (Js.drop i s) = Js.drop (i + j) s.
Proof.
  revert s. induction i as [| i IH]; intros s.
  - now rewrite drop_zero.
  - destruct s as [| c s]; simpl.
    + destruct j; reflexivity.
    + apply IH.
Qed.

Lemma slice_last_short (n : nat) (s : string) :
  (String.length s <= n)%nat -> slice_last n s = s.
Proof.
  intros Hs. unfold slice_last. replace (String.length s - n)%nat with 0%nat by lia.
  apply drop_zero.
Qed.

Lemma slice_last_length (n : nat) (s : string) :
  String.length (slice_last n s) = Nat.min n (String.length s).
Proof. unfold slice_last. rewrite drop_length. lia. Qed.

(** Cutting, adding and cutting again is adding and cutting once. *)
Lemma slice_last_app (n : nat) (a c : string) :
  slice_last n (slice_last n a ++ c) = slice_last n (a ++ c).
Proof.
  destruct (le_lt_dec (String.length a) n) as [Hshort | Hlong].
  - now rewrite (slice_last_short n a).
  - unfold slice_last at 1 3.
    rewrite !string_length_app, slice_last_length.
    unfold slice_last.
    replace (Nat.min n (String.length a) + String.length c - n)%nat
      with (String.length c) by lia.
    replace (String.length a + String.length c - n)%nat
      with ((String.length a - n) + String.length c)%nat by lia.
    rewrite <- drop_drop. f_equal. symmetry. apply drop_app_le. lia.
Qed.

Lemma on_stderr_slice (stderrBuffer data : string) :
  Launcher.on_stderr stderrBuffer data
  = slice_last 2000 (stderrBuffer ++ Js.trim data ++ String Js.newline "").
Proof.
  unfold Launcher.on_stderr.
  destruct (Nat.ltb_spec 2000 (String.length (stderrBuffer ++ Js.trim data
                                              ++ String Js.newline "")));
    [reflexivity | now rewrite slice_last_short by lia].
Qed.

Lemma closure_after_from (chunks : list string) (c : Launcher.Closure) (before : string) :
  Launcher.stderrBuffer c = slice_last 2000 before ->
  let c' := List.fold_left
              (fun c data =>
                 {| Launcher.stderrBuffer := Launcher.on_stderr (Launcher.stderrBuffer c) data;
                    Launcher.restartCount := Launcher.restartCount c |}) chunks c in
  Launcher.stderrBuffer c' = slice_last 2000 (before ++ stderr_text chunks) /\
  Launcher.restartCount c' = Launcher.restartCount c.
Proof.
  revert c before. induction chunks as [| data chunks IH]; intros c before Hc; simpl.
  - unfold stderr_text; simpl. now rewrite string_app_empty_r.
  - match goal with |- context [List.fold_left ?f chunks ?c1] =>
      destruct (IH c1 (before ++ Js.trim data ++ String Js.newline "")) as [Hb Hn] end.
    { simpl. rewrite on_stderr_slice, Hc, slice_last_app. reflexivity. }
    split; [| exact Hn].
    rewrite Hb. unfold stderr_text. simpl. now rewrite !string_app_assoc.
Qed.

(** X17: the buffer behind the crash report holds exactly the last 2000
    characters of what the process wrote on its standard error (each chunk
    trimmed and followed by a line feed), all of it when that is shorter;
    it never grows beyond 2000 characters, however much is written. *)
Theorem stderr_buffer_keeps_the_last_2000 (chunks : list string) :
  Launcher.stderrBuffer (Launcher.closure_after chunks)
  = slice_last 2000 (stderr_text chunks) /\
  (String.length (Launcher.stderrBuffer (Launcher.closure_after chunks)) <= 2000)%nat.
Proof.
  destruct (closure_after_from chunks
              {| Launcher.stderrBuffer := ""; Launcher.restartCount := 0 |} "")
    as [Hb _]; [reflexivity |].
  unfold Launcher.closure_after. rewrite Hb. split; [reflexivity |].
  rewrite slice_last_length. lia.
Qed.

(** ** Restarts *)

Lemma closure_after_count (chunks : list string) :
  Launcher.restartCount (Launcher.closure_after chunks) = 0.
Proof.
  destruct (closure_after_from chunks
              {| Launcher.stderrBuffer := ""; Launcher.restartCount := 0 |} "")
    as [_ Hn]; [reflexivity | exact Hn].
Qed.

Lemma startBackend_handlers_restart (windowOpen : bool) (life : Launcher.Life) :
  Launcher.startBackend_handlers windowOpen life
  = if crashes life then (Launcher.send windowOpen (Launcher.restarting 1), true)
    else ([], false).
Proof.
  unfold Launcher.startBackend_handlers, crashes, Launcher.on_exit.
  destruct (Launcher.exit life) as [[code isQuitting] |]; [| reflexivity].
  destruct (negb (is_zero code) && negb isQuitting); [| reflexivity].
  simpl Launcher.restartCount. rewrite closure_after_count. reflexivity.
Qed.

(** X18: the limit of three restarts is never reached.  [restartCount] is
    declared inside [startBackend], so every restarted process gets a
    counter of its own that starts at 0: each crash is answered by the
    message [Restarting... (1/3)] and a new start, the message [Backend
    crashed 3 times] is never sent, and a backend that keeps crashing is
    restarted as many times as it crashes. *)
Theorem restart_limit_is_never_reached (windowOpen : bool) (lives : list Launcher.Life) :
  List.Forall (fun m => m = Launcher.restarting 1) (Launcher.supervise windowOpen lives) /\
  (List.forallb crashes lives = true ->
   Launcher.supervise true lives = List.map (fun _ => Launcher.restarting 1) lives).
Proof.
  split.
  - induction lives as [| life rest IH]; simpl; [constructor |].
    rewrite startBackend_handlers_restart.
    destruct (crashes life); [| constructor].
    apply Forall_app. split; [| exact IH].
    destruct windowOpen; simpl; repeat constructor.
  - induction lives as [| life rest IH]; simpl; [reflexivity |].
    rewrite startBackend_handlers_restart. intros Hall.
    apply andb_true_iff in Hall as [-> Hrest]. simpl. now rewrite IH.
Qed.

(** ** Waiting for the backend *)

Lemma loading_messages_S (n : nat) :
  loading_messages (S n)
  = (loading_messages n ++ [Launcher.loading (Z.of_nat (S n))])%list.
Proof. unfold loading_messages. rewrite seq_S, map_app. reflexivity. Qed.

Lemma waitForBackend_loop_undecided (B : Launcher.Backend) (fuel attempts : nat)
    (sent0 : list Launcher.BackendStatus) :
  ~ decisive B (S attempts) ->
  Launcher.waitForBackend_loop B true (S fuel) attempts sent0
  = Launcher.waitForBackend_loop B true fuel (S attempts)
      (sent0 ++ [Launcher.loading (Z.of_nat (S attempts))])%list.
Proof.
  intros Hno. unfold decisive in Hno. simpl.
  destruct (Launcher.exitCode B (S attempts)) as [code |] eqn:Hex.
  { exfalso. apply Hno. left. discriminate. }
  destruct (Launcher.poll B (S attempts)) as [statusCode | msg |] eqn:Hpoll;
    try reflexivity.
  destruct (Z.eqb_spec statusCode 200) as [-> | Hne]; [| reflexivity].
  exfalso. apply Hno. now right.
Qed.

Lemma waitForBackend_loop_decided (B : Launcher.Backend) (fuel attempts : nat)
    (sent0 : list Launcher.BackendStatus) :
  decisive B (S attempts) ->
  Launcher.waitForBackend_loop B true (S fuel) attempts sent0
  = (match Launcher.exitCode B (S attempts) with
     | Some code => Rejected (Launcher.process_exited code)
     | None => Resolved true
     end, sent0).
Proof.
  intros Hyes. simpl.
  destruct (Launcher.exitCode B (S attempts)) as [code |] eqn:Hcode; [reflexivity |].
  destruct Hyes as [Hex | ->]; [| reflexivity].
  exfalso. apply Hex. exact Hcode.
Qed.

Lemma waitForBackend_loop_waits (B : Launcher.Backend) (n : nat) :
  (forall k, (1 <= k <= n)%nat -> ~ decisive B k) ->
  forall fuel sent0,
    Launcher.waitForBackend_loop B true (n + fuel) 0 sent0
    = Launcher.waitForBackend_loop B true fuel n (sent0 ++ loading_messages n)%list.
Proof.
  induction n as [| n IH]; intros Hno fuel sent0.
  - unfold loading_messages. simpl. now rewrite app_nil_r.
  - replace (S n + fuel)%nat with (n + S fuel)%nat by lia.
    rewrite IH by (intros k Hk; apply Hno; lia).
    rewrite waitForBackend_loop_undecided by (apply Hno; lia).
    now rewrite loading_messages_S, app_assoc.
Qed.

(** X19: [waitForBackend] has no deadline: as long as the process has
    not exited and no request is answered with status 200, every attempt
    is followed by another, each one reporting [Math.min(attempts, 100)] as
    progress; after any number [n] of attempts the promise is unsettled
    and [n] messages have been sent. *)
Theorem waitForBackend_has_no_deadline (B : Launcher.Backend) (n : nat)
    (sent0 : list Launcher.BackendStatus) :
  (forall k, ~ decisive B k) ->
  Launcher.waitForBackend B true n sent0 = (Unfinished, (sent0 ++ loading_messages n)%list) /\
  List.map Launcher.progress (loading_messages n)
  = List.map (fun k => Some (Z.min (Z.of_nat k) 100)) (List.seq 1 n).
Proof.
  intros Hno. split.
  - unfold Launcher.waitForBackend. replace n with (n + 0)%nat at 1 by lia.
    rewrite waitForBackend_loop_waits by (intros k _; apply Hno). reflexivity.
  - unfold loading_messages. rewrite map_map. reflexivity.
Qed.

(** The port refuses every connection: 150 attempts, five minutes, and
    the promise is still unsettled; the progress shown stays at 100. *)
Lemma waitForBackend_has_no_deadline_witness :
  Launcher.waitForBackend backend_loading_forever true 150 []
  = (Unfinished, ([] ++ loading_messages 150)%list) /\
  List.map Launcher.progress (loading_messages 150)
  = List.map (fun k => Some (Z.min (Z.of_nat k) 100)) (List.seq 1 150).
Proof.
  apply (waitForBackend_has_no_deadline backend_loading_forever 150 []).
  intros k [Hex | Hpoll]; [now apply Hex | discriminate].
Defined.

(** X20: [waitForBackend] ends at the first attempt at which the process
    has exited or the request is answered with status 200, having sent one
    message for each attempt before it.  The exit is tested before the
    request is made: a process that has exited rejects the promise with
    [Python process exited with code ...] even when the port would answer
    200; otherwise the promise resolves to [true]. *)
Theorem waitForBackend_ends_at_first_decisive_attempt (B : Launcher.Backend)
    (n fuel : nat) (sent0 : list Launcher.BackendStatus) :
  (forall k, (1 <= k <= n)%nat -> ~ decisive B k) ->
  decisive B (S n) ->
  Launcher.waitForBackend B true (S n + fuel) sent0
  = (match Launcher.exitCode B (S n) with
     | Some code => Rejected (Launcher.process_exited code)
     | None => Resolved true
     end, (sent0 ++ loading_messages n)%list).
Proof.
  intros Hno Hyes. unfold Launcher.waitForBackend.
  replace (S n + fuel)%nat with (n + S fuel)%nat by lia.
  rewrite waitForBackend_loop_waits by exact Hno.
  now apply waitForBackend_loop_decided.
Qed.

(** The process exits with code 1 before the third attempt. *)
Lemma waitForBackend_ends_at_first_decisive_attempt_witness :
  Launcher.waitForBackend backend_exits_early true (3 + 7) []
  = (Rejected (Launcher.process_exited 1), ([] ++ loading_messages 2)%list).
Proof.
  apply (waitForBackend_ends_at_first_decisive_attempt backend_exits_early 2 7 []).
  - intros k Hk [Hex | Hpoll].
    + apply Hex. assert (k = 1 \/ k = 2)%nat as [-> | ->] by lia; reflexivity.
    + assert (k = 1 \/ k = 2)%nat as [-> | ->] by lia; discriminate.
  - left. discriminate.
Defined.

(** * The pip-based installer *)

Lemma eff_bind_resolved_inv {St A B} (m : Eff St A) (k : A -> Eff St B) s b s' :
  bind m k s = (Resolved b, s') ->
  exists a s1, m s = (Resolved a, s1) /\ k a s1 = (Resolved b, s').
Proof.
  unfold bind. destruct (m s) as [[a | e | |] s1]; try discriminate. eauto.
Qed.

Lemma lift_runs {A} (m : Promise A) (s : LegacySetup.State) :
  LegacySetup.lift m s
  = (fst (m (LegacySetup.world s)),
     LegacySetup.with_world (snd (m (LegacySetup.world s))) s).
Proof. unfold LegacySetup.lift. destruct (m (LegacySetup.world s)); reflexivity. Qed.

(** ** [downloadFile] *)

Lemma pipe_runs (destPath : string) cb total (cs : list string) (d : Z)
    (s : LegacySetup.State) (old : string) :
  harmless cb ->
  fs (LegacySetup.world s) !! destPath = Some old ->
  exists s',
    LegacySetup.pipe destPath cb total cs d s = (Resolved tt, s') /\
    LegacySetup.world s'
    = with_fs (<[destPath := old ++ Js.join_chunks cs]> (fs (LegacySetup.world s)))
        (LegacySetup.world s).
Proof.
  intros Hcb. revert d s old. induction cs as [| c cs IH]; intros d s old Hp; simpl.
  - exists s. split; [reflexivity |].
    rewrite string_app_empty_r, insert_id by exact Hp. now rewrite with_fs_id.
  - set (d' := d + Z.of_nat (String.length c)).
    assert (Hstep : exists s1,
              (match cb, total with
               | Some f, Some t =>
                   if truthy_number total
                   then effect (f (inject_Z d' / inject_Z t)%Q)
                   else ret tt
               | _, _ => ret tt
               end) s = (Resolved tt, s1) /\
              LegacySetup.world s1 = LegacySetup.world s).
    { destruct cb as [f |], total as [t |]; try (exists s; split; reflexivity).
      destruct (truthy_number (Some t)); [| exists s; split; reflexivity].
      eexists. split; [reflexivity |]. apply Hcb. }
    destruct Hstep as (s1 & Hstep & Hw1).
    unfold bind at 1. rewrite Hstep.
    unfold bind at 1. rewrite lift_runs. unfold write_chunk, effect. simpl fst. simpl snd.
    cbv iota.
    rewrite Hw1, Hp. simpl default.
    destruct (IH d' (LegacySetup.with_world
                       (with_fs (<[destPath := old ++ c]> (fs (LegacySetup.world s)))
                          (LegacySetup.world s)) s1) (old ++ c))
      as (s' & Hrun & Hw'); [simpl; apply lookup_insert_eq |].
    exists s'. split; [exact Hrun |]. rewrite Hw'. simpl.
    unfold with_fs; simpl. rewrite insert_insert_eq, string_app_assoc. reflexivity.
Qed.

Lemma createWriteStream_truncates (destPath : string) (s : LegacySetup.State) :
  LegacySetup.lift (createWriteStream destPath flag_w) s
  = (Resolved tt,
     LegacySetup.with_world
       (with_fs (<[destPath := ""]> (fs (LegacySetup.world s))) (LegacySetup.world s)) s).
Proof. reflexivity. Qed.

Lemma handleDownload_runs (destPath : string) cb (res : Response) (s : LegacySetup.State) :
  harmless cb ->
  fs (LegacySetup.world s) !! destPath = Some "" ->
  exists s',
    LegacySetup.handleDownload destPath cb res s
    = (match ending res with
       | EndOk => Resolved tt
       | _ => Pending
       end, s') /\
    LegacySetup.world s'
    = with_fs (<[destPath := Js.join_chunks (chunks res)]> (fs (LegacySetup.world s)))
        (LegacySetup.world s).
Proof.
  intros Hcb Hp. unfold LegacySetup.handleDownload.
  destruct (pipe_runs destPath cb (content_length res) (chunks res) 0 s "" Hcb Hp)
    as (s' & Hrun & Hw).
  exists s'. unfold bind. rewrite Hrun. split; [| exact Hw].
  destruct (ending res); reflexivity.
Qed.

(** X21: [downloadFile] of the pip-based installer never looks at the
    status of the answer it saves: after at most one redirect, the body of
    whatever response arrives (a 404 page, or the body of a second
    redirect) replaces the previous content of the destination, and the
    promise resolves as soon as that body is complete. *)
Theorem legacy_downloadFile_saves_any_answer (H : Host) (url destPath : string)
    (progressCallback : option (Q -> LegacySetup.State -> LegacySetup.State))
    (s : LegacySetup.State) (response res : Response) :
  harmless progressCallback ->
  http_get H url None = Responded response ->
  final_response H response = Responded res ->
  ending res = EndOk ->
  exists s',
    LegacySetup.downloadFile H url destPath progressCallback s = (Resolved tt, s') /\
    fs (LegacySetup.world s')
    = <[destPath := Js.join_chunks (chunks res)]> (fs (LegacySetup.world s)).
Proof.
  intros Hcb Hget Hfinal Hend. unfold LegacySetup.downloadFile.
  unfold bind. rewrite createWriteStream_truncates, Hget.
  unfold final_response in Hfinal.
  set (s0 := LegacySetup.with_world
       (with_fs (<[destPath := ""]> (fs (LegacySetup.world s))) (LegacySetup.world s)) s).
  destruct (handleDownload_runs destPath progressCallback res s0 Hcb)
    as (s' & Hrun & Hw); [simpl; apply lookup_insert_eq |].
  rewrite Hend in Hrun.
  exists s'. split.
  - destruct ((statusCode response =? 302) || (statusCode response =? 301)).
    + rewrite Hfinal. exact Hrun.
    + inversion Hfinal; subst res. exact Hrun.
  - rewrite Hw. simpl. apply insert_insert_eq.
Qed.

(** The server of the Python archive answers 404: the error page is saved
    as [python.zip] and the download counts as done. *)
Lemma legacy_downloadFile_saves_any_answer_witness :
  exists s',
    LegacySetup.downloadFile host_python_404 LegacySetup.PYTHON_EMBED_URL python_zip_path None
      (legacy_state Fixture.world0) = (Resolved tt, s') /\
    fs (LegacySetup.world s')
    = <[python_zip_path := Js.join_chunks ["<html>"; "Not Found</html>"]]>
        (fs (LegacySetup.world (legacy_state Fixture.world0))).
Proof.
  apply (legacy_downloadFile_saves_any_answer host_python_404 LegacySetup.PYTHON_EMBED_URL
           python_zip_path None (legacy_state Fixture.world0)
           {| statusCode := 404; location := ""; content_length := None;
              chunks := ["<html>"; "Not Found</html>"]; ending := EndOk |}
           {| statusCode := 404; location := ""; content_length := None;
              chunks := ["<html>"; "Not Found</html>"]; ending := EndOk |}).
  - exact I.
  - vm_compute; reflexivity.
  - reflexivity.
  - reflexivity.
Defined.

Lemma downloadFile_refused (H : Host) (url destPath : string)
    (progressCallback : option (Q -> LegacySetup.State -> LegacySetup.State))
    (s : LegacySetup.State) (msg : string) :
  http_get H url None = ConnError msg ->
  LegacySetup.downloadFile H url destPath progressCallback s
  = (Rejected (StreamError msg),
     LegacySetup.with_world
       (with_fs (<[destPath := ""]> (fs (LegacySetup.world s))) (LegacySetup.world s)) s).
Proof.
  intros Hget. unfold LegacySetup.downloadFile, bind.
  rewrite createWriteStream_truncates, Hget. reflexivity.
Qed.

(** X22: when the first request of [downloadFile] fails to connect, the
    promise is rejected with the error of the request, and the destination,
    which was opened for writing before the request was made, exists and
    is empty whatever it held before; nothing else has changed. *)
Theorem legacy_downloadFile_connection_error_empties_the_file (H : Host)
    (url destPath : string)
    (progressCallback : option (Q -> LegacySetup.State -> LegacySetup.State))
    (s : LegacySetup.State) (msg : string) :
  http_get H url None = ConnError msg ->
  exists s',
    LegacySetup.downloadFile H url destPath progressCallback s
    = (Rejected (StreamError msg), s') /\
    fs (LegacySetup.world s') = <[destPath := ""]> (fs (LegacySetup.world s)) /\
    ui (LegacySetup.world s') = ui (LegacySetup.world s) /\
    LegacySetup.shown s' = LegacySetup.shown s.
Proof.
  intros Hget. eexists. split; [now apply downloadFile_refused |]. repeat split.
Qed.

(** No network: the promise is rejected and [python.zip], which held a
    complete archive, is now empty. *)
Lemma legacy_downloadFile_connection_error_empties_the_file_witness :
  exists s',
    LegacySetup.downloadFile Fixture.host_offline LegacySetup.PYTHON_EMBED_URL
      python_zip_path None
      (legacy_state (Fixture.world_with [ (python_zip_path, "PK-archive") ]))
    = (Rejected (StreamError "ENOTFOUND"), s') /\
    fs (LegacySetup.world s') !! python_zip_path = Some "".
Proof.
  destruct (legacy_downloadFile_connection_error_empties_the_file Fixture.host_offline
              LegacySetup.PYTHON_EMBED_URL python_zip_path None
              (legacy_state (Fixture.world_with [ (python_zip_path, "PK-archive") ]))
              "ENOTFOUND")
    as (s' & Hrun & Hfs & _).
  - vm_compute; reflexivity.
  - exists s'. split; [exact Hrun |]. rewrite Hfs. vm_compute. reflexivity.
Defined.

(** ** Steps that a failing child process does not fail *)

Lemma legacy_sendProgress_runs stg pct msg lg (s : LegacySetup.State) :
  LegacySetup.sendProgress stg pct msg lg s
  = (Resolved tt, LegacySetup.report stg pct msg lg s).
Proof. reflexivity. Qed.

Lemma report_world stg pct msg lg (s : LegacySetup.State) :
  LegacySetup.world (LegacySetup.report stg pct msg lg s) = LegacySetup.world s.
Proof. unfold LegacySetup.report. destruct (windowOpen _); reflexivity. Qed.

Lemma evolves_weaken (W W' : World -> World -> Prop) (P : LegacySetup.Event -> Prop) s s' :
  (forall w w', W w w' -> W' w w') -> evolves W P s s' -> evolves W' P s s'.
Proof. intros HW (Hw & He & Hev). split; auto. Qed.

Lemma carried_on_resolved {A} (spawn : string -> list string -> LegacySetup.Spawned)
    (r : outcome A) :
  processes_end spawn -> carried_on spawn r -> exists a, r = Resolved a.
Proof. intros Hends [Hres | [_ Hne]]; [exact Hres | contradiction]. Qed.

Section CarriesOn.

Context (spawn : string -> list string -> LegacySetup.Spawned)
        (W : World -> World -> Prop) (P : LegacySetup.Event -> Prop).
Hypothesis W_refl : forall w, W w w.
Hypothesis W_trans : forall w1 w2 w3, W w1 w2 -> W w2 w3 -> W w1 w3.

Lemma evolves_refl s : evolves W P s s.
Proof.
  split; [apply W_refl |]. split; [reflexivity |]. exists []. now rewrite app_nil_r.
Qed.

Lemma evolves_trans s1 s2 s3 : evolves W P s1 s2 -> evolves W P s2 s3 -> evolves W P s1 s3.
Proof.
  intros (Hw1 & He1 & evs1 & Hs1 & Hp1) (Hw2 & He2 & evs2 & Hs2 & Hp2).
  split; [eapply W_trans; eauto |]. split; [congruence |]. exists (evs1 ++ evs2)%list.
  rewrite Hs2, Hs1, app_assoc. split; [reflexivity | now apply Forall_app].
Qed.

Lemma report_evolves stg pct msg lg s :
  P {| LegacySetup.stage := stg; LegacySetup.percent := pct; LegacySetup.text := msg;
       LegacySetup.log := lg |} ->
  evolves W P s (LegacySetup.report stg pct msg lg s).
Proof.
  intros Hev. split; [rewrite report_world; apply W_refl |].
  unfold LegacySetup.report. destruct (windowOpen _); simpl.
  - split; [reflexivity |]. eexists [_]. split; [reflexivity |]. now constructor.
  - split; [reflexivity |]. exists []. now rewrite app_nil_r.
Qed.

Lemma carries_on_ret {A} (a : A) : carries_on spawn W P (ret a).
Proof. intros s. exists (Resolved a), s. split; [reflexivity |]. split; [apply evolves_refl |]. left; eauto. Qed.

Lemma carries_on_bind {A B} (m : Eff LegacySetup.State A) (k : A -> Eff LegacySetup.State B) :
  carries_on spawn W P m -> (forall a, carries_on spawn W P (k a)) ->
  carries_on spawn W P (bind m k).
Proof.
  intros Hm Hk s. destruct (Hm s) as (r & s1 & E1 & H1 & [[a ->] | [-> Hne]]).
  - destruct (Hk a s1) as (r2 & s2 & E2 & H2 & Hc).
    exists r2, s2. unfold bind. rewrite E1. split; [exact E2 |].
    split; [eapply evolves_trans; eauto | exact Hc].
  - exists Pending, s1. unfold bind. rewrite E1. split; [reflexivity |].
    split; [exact H1 | right; auto].
Qed.

Lemma carries_on_sendProgress stg pct msg lg :
  P {| LegacySetup.stage := stg; LegacySetup.percent := pct; LegacySetup.text := msg;
       LegacySetup.log := lg |} ->
  carries_on spawn W P (LegacySetup.sendProgress stg pct msg lg).
Proof.
  intros Hev s. eexists (Resolved tt), _. split; [apply legacy_sendProgress_runs |].
  split; [now apply report_evolves | left; eauto].
Qed.

End CarriesOn.

Lemma unchanged_refl w : unchanged w w.
Proof. reflexivity. Qed.

Lemma unchanged_trans w1 w2 w3 : unchanged w1 w2 -> unchanged w2 w3 -> unchanged w1 w3.
Proof. unfold unchanged. congruence. Qed.

Lemma same_window_refl w : same_window w w.
Proof. reflexivity. Qed.

Lemma same_window_trans w1 w2 w3 :
  same_window w1 w2 -> same_window w2 w3 -> same_window w1 w3.
Proof. unfold same_window. congruence. Qed.

Lemma unchanged_same_window w w' : unchanged w w' -> same_window w w'.
Proof. unfold unchanged, same_window. now intros ->. Qed.

(** What a child process wrote is on disk; the window is as it was. *)
Lemma leave_files_runs (P : LegacySetup.Event -> Prop) (proc : LegacySetup.Spawned)
    (s : LegacySetup.State) :
  exists s',
    LegacySetup.leave_files proc s = (Resolved tt, s') /\ evolves same_window P s s'.
Proof.
  unfold LegacySetup.leave_files. rewrite lift_runs. eexists. split; [reflexivity |].
  split; [reflexivity |]. split; [reflexivity |]. exists []. now rewrite app_nil_r.
Qed.

(** ** The estimate of [runPipCommand] *)

Lemma estimate_after_bounds (p : Q) (line : string) :
  (0 <= p)%Q -> (p <= 1)%Q ->
  (0 <= LegacySetup.estimate_after p line)%Q /\ (LegacySetup.estimate_after p line <= 1)%Q.
Proof.
  intros H0 H1. unfold LegacySetup.estimate_after, LegacySetup.Math_min.
  destruct (Js.includes "Downloading" line).
  - destruct (Qle_bool (p + (5 # 100)) (8 # 10)) eqn:E.
    + apply Qle_bool_iff in E. split.
      * apply Qle_trans with (p + 0)%Q; [now rewrite Qplus_0_r |].
        apply Qplus_le_r. discriminate.
      * apply Qle_trans with (8 # 10)%Q; [exact E | discriminate].
    + split; discriminate.
  - destruct (Js.includes "Installing collected" line); [split; discriminate |].
    destruct (Js.includes "Successfully installed" line); [split; discriminate | auto].
Qed.

Lemma pip_percent_bounds (p : Q) :
  (0 <= p)%Q -> (p <= 1)%Q ->
  35 <= Js.Math_round (35 + p * 35) <= 70.
Proof.
  intros H0 H1. split.
  - rewrite <- (Math_round_int 35) at 1. apply Math_round_mono.
    apply Qle_trans with (35 + 0)%Q; [discriminate |].
    apply Qplus_le_r. apply Qmult_le_0_compat; [exact H0 | discriminate].
  - rewrite <- (Math_round_int 70) at 1. apply Math_round_mono.
    apply Qle_trans with (35 + 1 * 35)%Q; [| discriminate].
    apply Qplus_le_r. apply Qmult_le_compat_r; [exact H1 | discriminate].
Qed.

Lemma pip_progress_evolves (p : Q) (msg : string) (s : LegacySetup.State) :
  (0 <= p)%Q -> (p <= 1)%Q ->
  evolves unchanged (between 30 70) s (LegacySetup.pip_progress p msg s).
Proof.
  intros H0 H1. apply report_evolves; [apply unchanged_refl |].
  destruct (pip_percent_bounds p H0 H1) as [Hlo Hhi].
  unfold between. simpl.
  change 30%Q with (inject_Z 30). change 70%Q with (inject_Z 70).
  rewrite <- !Zle_Qle. lia.
Qed.

Lemma handle_lines_runs (P : LegacySetup.Event -> Prop)
    (cb : option (Q -> string -> LegacySetup.State -> LegacySetup.State))
    (lines : list string) :
  match cb with
  | Some f => forall q msg s, (0 <= q)%Q -> (q <= 1)%Q -> evolves unchanged P s (f q msg s)
  | None => True
  end ->
  forall p s,
    (0 <= p)%Q -> (p <= 1)%Q ->
    exists p' s',
      LegacySetup.handle_lines cb lines p s = (Resolved p', s') /\
      (0 <= p')%Q /\ (p' <= 1)%Q /\ evolves unchanged P s s'.
Proof.
  intros Hcb. induction lines as [| line rest IH]; intros p s H0 H1; simpl.
  - exists p, s. split; [reflexivity |]. split; [exact H0 |]. split; [exact H1 |].
    apply evolves_refl, unchanged_refl.
  - destruct (estimate_after_bounds p line H0 H1) as [H0' H1'].
    set (p1 := LegacySetup.estimate_after p line) in *.
    destruct cb as [f |].
    + unfold bind at 1. unfold effect at 1.
      destruct (IH p1 (f p1 (slice_last 100 line) s) H0' H1') as (p' & s' & E & Hp0 & Hp1 & Hev).
      exists p', s'. split; [exact E |]. split; [exact Hp0 |]. split; [exact Hp1 |].
      eapply evolves_trans; [apply unchanged_trans | exact (Hcb p1 (slice_last 100 line) s H0' H1') | exact Hev].
    + unfold bind at 1. unfold ret at 1.
      destruct (IH p1 s H0' H1') as (p' & s' & E & Hp0 & Hp1 & Hev).
      exists p', s'. split; [exact E |]. split; [exact Hp0 |]. split; [exact Hp1 |].
      exact Hev.
Qed.

Lemma handle_output_runs (P : LegacySetup.Event -> Prop)
    (cb : option (Q -> string -> LegacySetup.State -> LegacySetup.State))
    (events : list (LegacySetup.Stream * string)) :
  match cb with
  | Some f => forall q msg s, (0 <= q)%Q -> (q <= 1)%Q -> evolves unchanged P s (f q msg s)
  | None => True
  end ->
  forall p s,
    (0 <= p)%Q -> (p <= 1)%Q ->
    exists p' s',
      LegacySetup.handle_output cb events p s = (Resolved p', s') /\
      evolves unchanged P s s'.
Proof.
  intros Hcb. induction events as [| [stream data] rest IH]; intros p s H0 H1; simpl.
  - exists p, s. split; [reflexivity | apply evolves_refl, unchanged_refl].
  - destruct (handle_lines_runs P cb (LegacySetup.nonblank_lines data) Hcb p s H0 H1)
      as (p1 & s1 & E1 & Hp0 & Hp1 & Hev1).
    destruct (IH p1 s1 Hp0 Hp1) as (p' & s' & E & Hev).
    exists p', s'. unfold bind. rewrite E1. split; [exact E |].
    eapply evolves_trans; [apply unchanged_trans | exact Hev1 | exact Hev].
Qed.

(** [runPipCommand] has no [reject]: it resolves when the process ends,
    whatever the exit code, and when it cannot be spawned. *)
Lemma runPipCommand_carries_on (P : LegacySetup.Event -> Prop)
    (spawn : string -> list string -> LegacySetup.Spawned) (pythonPath : string)
    (args : list string)
    (cb : option (Q -> string -> LegacySetup.State -> LegacySetup.State)) :
  match cb with
  | Some f => forall q msg s, (0 <= q)%Q -> (q <= 1)%Q -> evolves unchanged P s (f q msg s)
  | None => True
  end ->
  carries_on spawn same_window P (LegacySetup.runPipCommand spawn pythonPath args cb).
Proof.
  intros Hcb s. unfold LegacySetup.runPipCommand.
  set (proc := spawn pythonPath ("-m" :: "pip" :: args)).
  destruct (handle_output_runs P cb (LegacySetup.output proc) Hcb 0%Q s)
    as (p' & s1 & E1 & Hev1); [discriminate | discriminate |].
  destruct (leave_files_runs P proc s1) as (s2 & E2 & Hev2).
  assert (Hev : evolves same_window P s s2).
  { eapply evolves_trans; [apply same_window_trans | | exact Hev2].
    eapply evolves_weaken; [apply unchanged_same_window | exact Hev1]. }
  unfold bind. rewrite E1, E2.
  destruct (LegacySetup.finish proc) as [code | msg |] eqn:Ef.
  - eexists _, s2. split; [reflexivity |]. split; [exact Hev | left; eauto].
  - eexists _, s2. split; [reflexivity |]. split; [exact Hev | left; eauto].
  - eexists _, s2. split; [reflexivity |]. split; [exact Hev |].
    right. split; [reflexivity |]. intros Hends. exact (Hends _ _ Ef).
Qed.

Lemma installDependencies_carries_on (H : Host)
    (spawn : string -> list string -> LegacySetup.Spawned) (useGpu : bool) :
  carries_on spawn same_window (between 30 70)
    (LegacySetup.installDependencies H spawn useGpu).
Proof.
  pose proof same_window_refl as Hr. pose proof same_window_trans as Ht.
  unfold LegacySetup.installDependencies.
  apply carries_on_bind; auto.
  { apply carries_on_sendProgress; auto. split; discriminate. }
  intros _. apply carries_on_bind; auto.
  { intros s. exists (Resolved (LegacySetup.python_or_embedded H s)), s.
    split; [reflexivity |]. split; [now apply evolves_refl | left; eauto]. }
  intros pythonPath. apply carries_on_bind; auto.
  { apply carries_on_sendProgress; auto. split; discriminate. }
  intros _. apply carries_on_bind; auto.
  { now apply runPipCommand_carries_on. }
  intros _. apply carries_on_bind; auto.
  { apply carries_on_sendProgress; auto. split; discriminate. }
  intros _ s.
  destruct (existsSync _ (LegacySetup.world s)).
  - revert s. apply carries_on_bind; auto.
    { apply runPipCommand_carries_on. intros q msg s. apply pip_progress_evolves. }
    intros _. apply carries_on_sendProgress; auto. split; discriminate.
  - revert s. apply carries_on_sendProgress; auto. split; discriminate.
Qed.

(** X23: [installDependencies] is never rejected by [pip]: whatever [pip]
    prints and however it ends (a non-zero exit code, or a process that
    cannot be spawned), the promise resolves, the result of [runPipCommand]
    not being looked at; it stays pending only behind a process that never
    ends.  Every percentage it reports lies between 30 and 70, the
    estimate drawn from the output of [pip] staying between 0 and 1. *)
Theorem legacy_installDependencies_never_fails (H : Host)
    (spawn : string -> list string -> LegacySetup.Spawned) (useGpu : bool)
    (s : LegacySetup.State) :
  exists r s' evs,
    LegacySetup.installDependencies H spawn useGpu s = (r, s') /\
    (r = Resolved tt \/ (r = Pending /\ ~ processes_end spawn)) /\
    LegacySetup.shown s' = (LegacySetup.shown s ++ evs)%list /\
    List.Forall (between 30 70) evs.
Proof.
  destruct (installDependencies_carries_on H spawn useGpu s)
    as (r & s' & E & (_ & _ & evs & Hs & Hall) & Hc).
  exists r, s', evs. split; [exact E |]. split; [| auto].
  destruct Hc as [[[] ->] | Hp]; auto.
Qed.

(** A [pip] that fails leaves its log and the step resolved; one that hangs
    leaves it pending. *)
Example pip_failure_and_pip_hanging :
  (exists s',
     LegacySetup.installDependencies Fixture.host_offline spawn_pip_fails true
       (legacy_state world_with_venv) = (Resolved tt, s') /\
     fs (LegacySetup.world s')
       !! Fixture.join [backendDir Fixture.host_offline; "pip-log.txt"]
     = Some "torch: failed") /\
  fst (LegacySetup.installDependencies Fixture.host_offline spawn_hangs true
         (legacy_state world_with_venv)) = Pending.
Proof.
  split; [eexists; split; vm_compute; reflexivity | vm_compute; reflexivity].
Qed.

(** ** [downloadModel] *)

Lemma with_world_id (s : LegacySetup.State) :
  LegacySetup.with_world (LegacySetup.world s) s = s.
Proof. destruct s; reflexivity. Qed.

(** A file read and written back, where it can be written. *)
Lemma rewrite_in_place_runs (P : LegacySetup.Event -> Prop) (q : string)
    (f : string -> string) (s : LegacySetup.State) :
  LegacySetup.write_error s q = None ->
  exists s',
    (if existsSync q (LegacySetup.world s) then
       (let* content := LegacySetup.lift (readFileSync q) in
        LegacySetup.writeFileSync q (f content)) s
     else ret tt s) = (Resolved tt, s') /\
    evolves same_window P s s'.
Proof.
  intros Hw. unfold existsSync.
  destruct (fs (LegacySetup.world s) !! q) as [content |] eqn:Eq.
  - unfold bind. rewrite lift_runs. unfold readFileSync. rewrite Eq. simpl fst. simpl snd.
    cbv iota. rewrite with_world_id. unfold LegacySetup.writeFileSync. rewrite Hw.
    rewrite lift_runs. eexists. split; [reflexivity |]. split; [reflexivity |].
    split; [reflexivity |]. exists []. now rewrite app_nil_r.
  - exists s. split; [reflexivity |]. split; [reflexivity |].
    split; [reflexivity |]. exists []. now rewrite app_nil_r.
Qed.

(** The same where the file is there and cannot be written. *)
Lemma rewrite_in_place_throws (q : string) (f : string -> string) (s : LegacySetup.State)
    (msg : string) :
  existsSync q (LegacySetup.world s) = true ->
  LegacySetup.write_error s q = Some msg ->
  (if existsSync q (LegacySetup.world s) then
     (let* content := LegacySetup.lift (readFileSync q) in
      LegacySetup.writeFileSync q (f content)) s
   else ret tt s) = (Rejected (FsError msg), s).
Proof.
  intros Hex Hw. rewrite Hex. unfold existsSync in Hex.
  destruct (fs (LegacySetup.world s) !! q) as [content |] eqn:Eq; [| discriminate].
  unfold bind. rewrite lift_runs. unfold readFileSync. rewrite Eq. simpl fst. simpl snd.
  cbv iota. rewrite with_world_id. unfold LegacySetup.writeFileSync. now rewrite Hw.
Qed.

Lemma on_model_output_carries_on (spawn : string -> list string -> LegacySetup.Spawned)
    (W : World -> World -> Prop) (events : list (LegacySetup.Stream * string)) :
  (forall w, W w w) -> (forall w1 w2 w3, W w1 w2 -> W w2 w3 -> W w1 w3) ->
  forall lastProgress,
    carries_on spawn W (in_stage "model") (LegacySetup.on_model_output events lastProgress).
Proof.
  intros Hr Ht. induction events as [| [[|] data] rest IH]; intros lastProgress; simpl.
  - now apply carries_on_ret.
  - apply carries_on_bind; auto; [now apply carries_on_sendProgress | intros _].
    destruct (LegacySetup.percent_in data None) as [pct |]; [| apply IH].
    apply carries_on_bind; auto. now apply carries_on_sendProgress.
  - apply carries_on_bind; auto. now apply carries_on_sendProgress.
Qed.

(** What [downloadModel] does once [config.yaml] is rewritten. *)
Lemma model_script_carries_on (H : Host)
    (spawn : string -> list string -> LegacySetup.Spawned) (pythonPath : string) :
  carries_on spawn same_window (in_stage "model")
    (LegacySetup.sendProgress "model" 80
       "Downloading model (this may take several minutes)..."
       (Some "Starting model download") ;;
     LegacySetup.on_model_output
       (LegacySetup.output (spawn pythonPath [path_join H [backendDir H; "download_model.py"]]))
       80 ;;
     LegacySetup.leave_files
       (spawn pythonPath [path_join H [backendDir H; "download_model.py"]]) ;;
     match LegacySetup.finish
             (spawn pythonPath [path_join H [backendDir H; "download_model.py"]]) with
     | LegacySetup.Closed code =>
         if is_zero code
         then LegacySetup.sendProgress "model" 95 "Model downloaded"
                (Some "Model download complete")
         else LegacySetup.sendProgress "model" 95 "Model will download on first use"
                (Some "Continuing...")
     | LegacySetup.SpawnFailed msg =>
         LegacySetup.sendProgress "model" 95 "Model will download on first use" (Some msg)
     | LegacySetup.NeverEnds => settle Pending
     end).
Proof.
  pose proof same_window_refl as Hr. pose proof same_window_trans as Ht.
  apply carries_on_bind; auto; [now apply carries_on_sendProgress | intros _].
  apply carries_on_bind; auto; [now apply on_model_output_carries_on | intros _].
  apply carries_on_bind; auto.
  { intros s. destruct (leave_files_runs (in_stage "model") (spawn pythonPath
                          [path_join H [backendDir H; "download_model.py"]]) s)
      as (s' & E & Hev).
    exists (Resolved tt), s'. split; [exact E |]. split; [exact Hev | left; eauto]. }
  intros _.
  destruct (LegacySetup.finish _) as [code | msg |] eqn:Ef.
  - destruct (is_zero code); now apply carries_on_sendProgress.
  - now apply carries_on_sendProgress.
  - intros s. exists Pending, s. split; [reflexivity |].
    split; [now apply evolves_refl |]. right. split; [reflexivity |].
    intros Hends. exact (Hends _ _ Ef).
Qed.

Lemma downloadModel_runs (H : Host)
    (spawn : string -> list string -> LegacySetup.Spawned)
    (replace_repo_id : string -> string -> string) (modelId : option string)
    (s : LegacySetup.State) :
  LegacySetup.write_error s (config_path H) = None ->
  exists r s',
    LegacySetup.downloadModel H spawn replace_repo_id modelId s = (r, s') /\
    evolves same_window (in_stage "model") s s' /\
    carried_on spawn r.
Proof.
  intros Hw.
  pose proof same_window_refl as Hr. pose proof same_window_trans as Ht.
  unfold LegacySetup.downloadModel.
  unfold bind at 1. rewrite legacy_sendProgress_runs.
  set (s1 := LegacySetup.report _ _ _ _ s).
  assert (Hev1 : evolves same_window (in_stage "model") s s1)
    by (now apply report_evolves).
  unfold bind at 1. unfold bind at 1. fold (config_path H).
  destruct (rewrite_in_place_runs (in_stage "model") (config_path H)
              (fun config => replace_repo_id config ("repo_id: " ++ LegacySetup.repo_of modelId))
              s1) as (s2 & E2 & Hev2).
  { destruct Hev1 as (_ & -> & _). exact Hw. }
  rewrite E2.
  destruct (model_script_carries_on H spawn (LegacySetup.python_or_embedded H s1) s2)
    as (r & s3 & E3 & Hev3 & Hc).
  exists r, s3. split; [exact E3 |]. split; [| exact Hc].
  eapply evolves_trans; eauto. eapply evolves_trans; eauto.
Qed.

(** X24: a download script that fails does not fail [downloadModel]: where
    [config.yaml] can be written, the promise resolves when the script
    exits with an error and when it cannot be started at all ([Model will
    download on first use]), and stays pending only behind a script that
    never ends; all its messages are of the stage [model].  But the
    rewriting of [config.yaml] is in no [try]: where the file exists and
    cannot be written, the promise is rejected with the error of the write,
    after the first message and before the script is started. *)
Theorem legacy_downloadModel_survives_the_script (H : Host)
    (spawn : string -> list string -> LegacySetup.Spawned)
    (replace_repo_id : string -> string -> string)
    (modelId : option string) (s : LegacySetup.State) :
  (LegacySetup.write_error s (config_path H) = None ->
   exists r s' evs,
     LegacySetup.downloadModel H spawn replace_repo_id modelId s = (r, s') /\
     (r = Resolved tt \/ (r = Pending /\ ~ processes_end spawn)) /\
     LegacySetup.shown s' = (LegacySetup.shown s ++ evs)%list /\
     List.Forall (in_stage "model") evs) /\
  (forall msg,
     existsSync (config_path H) (LegacySetup.world s) = true ->
     LegacySetup.write_error s (config_path H) = Some msg ->
     LegacySetup.downloadModel H spawn replace_repo_id modelId s
     = (Rejected (FsError msg), reported [model_download_event modelId] s)).
Proof.
  split.
  - intros Hw.
    destruct (downloadModel_runs H spawn replace_repo_id modelId s Hw)
      as (r & s' & E & (_ & _ & evs & Hs & Hall) & Hc).
    exists r, s', evs. split; [exact E |]. split; [| auto].
    destruct Hc as [[[] ->] | Hp]; auto.
  - intros msg Hex Hw. unfold LegacySetup.downloadModel.
    unfold bind at 1. rewrite legacy_sendProgress_runs.
    unfold bind at 1. unfold bind at 1. fold (config_path H).
    rewrite (rewrite_in_place_throws (config_path H) _ _ msg).
    + reflexivity.
    + now rewrite report_world.
    + unfold LegacySetup.report. now destruct (windowOpen _).
Qed.

(** The download script cannot be started: the step resolves.  The
    resources of the application are read-only: the step is rejected. *)
Lemma legacy_downloadModel_survives_the_script_witness :
  (exists s',
     LegacySetup.downloadModel Fixture.host_offline spawn_fails no_replace
       (Some "turbo") (legacy_state world_with_config) = (Resolved tt, s')) /\
  fst (LegacySetup.downloadModel Fixture.host_offline spawn_fails no_replace
         (Some "turbo") (legacy_state_read_only Fixture.host_offline world_with_config))
  = Rejected (FsError ("EPERM: operation not permitted, open "
                       ++ config_path Fixture.host_offline)).
Proof.
  pose proof (legacy_downloadModel_survives_the_script Fixture.host_offline spawn_fails
                no_replace (Some "turbo") (legacy_state world_with_config))
    as [Hok _].
  pose proof (legacy_downloadModel_survives_the_script Fixture.host_offline spawn_fails
                no_replace (Some "turbo")
                (legacy_state_read_only Fixture.host_offline world_with_config))
    as [_ Hfail].
  split.
  - destruct (Hok eq_refl) as (r & s' & evs & Hrun & [-> | [_ Hne]] & _).
    + now exists s'.
    + exfalso. apply Hne. intros command args. discriminate.
  - rewrite (Hfail _ ltac:(vm_compute; reflexivity) ltac:(vm_compute; reflexivity)).
    reflexivity.
Defined.

(** ** The whole run *)

Lemma eff_try_catch_resolved_inv {St A} (m : Eff St A) (h : JsError -> Eff St A) s a s' :
  try_catch m h s = (Resolved a, s') ->
  m s = (Resolved a, s') \/ exists e s1, m s = (Rejected e, s1) /\ h e s1 = (Resolved a, s').
Proof.
  unfold try_catch. destruct (m s) as [[a0 | e | |] s1]; intros E; try discriminate.
  - left; exact E.
  - right; eauto.
Qed.

(** X25: with a Python already on disk, child processes that come to an
    end, and [config.yaml] and the marker writable, [runSetup] of the
    pip-based installer succeeds whatever [pip] and the download script
    print and however they exit: nothing is thrown, the marker is written,
    [isSetupComplete] answers true, and with the window open the last
    message is [Setup complete!] at 100 percent. *)
Theorem legacy_runSetup_succeeds_whatever_pip_does (H : Host)
    (spawn : string -> list string -> LegacySetup.Spawned)
    (replace_repo_id : string -> string -> string)
    (options : LegacySetup.Options) (s : LegacySetup.State) (pythonPath : string) :
  Legacy.findPython H (LegacySetup.world s) = Some pythonPath ->
  processes_end spawn ->
  LegacySetup.write_error s (config_path H) = None ->
  LegacySetup.write_error s (setupFlagPath H) = None ->
  exists s',
    LegacySetup.runSetup H spawn replace_repo_id options s = (Resolved true, s') /\
    fs (LegacySetup.world s') !! setupFlagPath H
    = Some (JSON_stringify H (LegacySetup.marker_object H options)) /\
    LegacySetup.isSetupComplete H s' = true /\
    (windowOpen (ui (LegacySetup.world s)) = true ->
     exists evs, LegacySetup.shown s' = (LegacySetup.shown s ++ evs ++ [complete_event])%list).
Proof.
  intros Hpy Hends Hconfig Hflag.
  unfold LegacySetup.runSetup, try_catch, LegacySetup.runSetup_body.
  unfold bind at 1. cbv beta. rewrite Hpy, legacy_sendProgress_runs.
  set (s1 := LegacySetup.report "python" 25 "Python already installed"
               (Some ("Found: " ++ pythonPath)) s).
  assert (He1 : LegacySetup.write_error s1 = LegacySetup.write_error s)
    by (unfold s1, LegacySetup.report; now destruct (windowOpen _)).
  destruct (installDependencies_carries_on H spawn (LegacySetup.useGpu options) s1)
    as (r2 & s2 & E2 & (Hw2 & He2 & evs2 & Hs2 & _) & Hc2).
  apply (carried_on_resolved spawn r2 Hends) in Hc2 as [[] ->].
  unfold bind at 1. rewrite E2.
  destruct (downloadModel_runs H spawn replace_repo_id (LegacySetup.model options) s2)
    as (r3 & s3 & E3 & (Hw3 & He3 & evs3 & Hs3 & _) & Hc3).
  { now rewrite He2, He1. }
  apply (carried_on_resolved spawn r3 Hends) in Hc3 as [[] ->].
  unfold bind at 1. rewrite E3.
  unfold bind at 1. unfold LegacySetup.writeFileSync. rewrite He3, He2, He1, Hflag.
  rewrite lift_runs. unfold writeFileSync, effect. simpl fst. simpl snd. cbv iota.
  unfold bind. rewrite legacy_sendProgress_runs. unfold ret.
  eexists. split; [reflexivity |].
  assert (Hmarker : fs (LegacySetup.world
                          (LegacySetup.report "complete" 100 "Setup complete!"
                             (Some "VoiceCraft is ready to use")
                             (LegacySetup.with_world
                                (with_fs (<[setupFlagPath H :=
                                             JSON_stringify H
                                               (LegacySetup.marker_object H options)]>
                                           (fs (LegacySetup.world s3)))
                                   (LegacySetup.world s3)) s3)))
                    !! setupFlagPath H
                    = Some (JSON_stringify H (LegacySetup.marker_object H options))).
  { rewrite report_world. simpl. apply lookup_insert_eq. }
  split; [exact Hmarker |]. split.
  - unfold LegacySetup.isSetupComplete, existsSync. now rewrite Hmarker.
  - intros Hopen.
    assert (Hopen3 : windowOpen (ui (LegacySetup.world s3)) = true).
    { unfold same_window in Hw2, Hw3. rewrite Hw3, Hw2. subst s1.
      now rewrite report_world. }
    unfold LegacySetup.report at 1. simpl. rewrite Hopen3. simpl.
    rewrite Hs3, Hs2. subst s1. unfold LegacySetup.report. rewrite Hopen. simpl.
    exists ([ {| LegacySetup.stage := "python"; LegacySetup.percent := 25;
                 LegacySetup.text := "Python already installed";
                 LegacySetup.log := Some ("Found: " ++ pythonPath)%string |} ]
            ++ evs2 ++ evs3)%list.
    unfold complete_event. rewrite <- !app_assoc. reflexivity.
Qed.

(** [pip] exits with code 1, having written its log, and the run still
    ends with the marker written. *)
Lemma legacy_runSetup_succeeds_whatever_pip_does_witness :
  exists s',
    LegacySetup.runSetup Fixture.host_offline spawn_pip_fails no_replace
      legacy_options (legacy_state world_with_venv) = (Resolved true, s') /\
    fs (LegacySetup.world s') !! setupFlagPath Fixture.host_offline
    = Some (JSON_stringify Fixture.host_offline
              (LegacySetup.marker_object Fixture.host_offline legacy_options)) /\
    LegacySetup.isSetupComplete Fixture.host_offline s' = true /\
    (windowOpen (ui (LegacySetup.world (legacy_state world_with_venv))) = true ->
     exists evs,
       LegacySetup.shown s'
       = (LegacySetup.shown (legacy_state world_with_venv) ++ evs ++ [complete_event])%list).
Proof.
  apply (legacy_runSetup_succeeds_whatever_pip_does Fixture.host_offline spawn_pip_fails
           no_replace legacy_options (legacy_state world_with_venv)
           (venv_python Fixture.host_offline)).
  - vm_compute. reflexivity.
  - intros command args. simpl. discriminate.
  - reflexivity.
  - reflexivity.
Defined.

(** X26: no marker written by the pip-based installer counts as a current
    setup for the installer that downloads archives: after any run of the
    old [runSetup] that resolves, whatever the options, the old
    [isSetupComplete] and [needsSetup] of the launcher find the setup done,
    while the new [isSetupComplete] finds it outdated (the object has no
    [setupVersion]), provided [JSON.parse] reads back what
    [JSON.stringify] wrote. *)
Theorem legacy_marker_is_not_current (H : Host)
    (spawn : string -> list string -> LegacySetup.Spawned)
    (replace_repo_id : string -> string -> string) (options : LegacySetup.Options)
    (s : LegacySetup.State) (b : bool) (s' : LegacySetup.State) :
  JSON_parse H (JSON_stringify H (LegacySetup.marker_object H options))
  = ParseOk (LegacySetup.marker_object H options) ->
  LegacySetup.runSetup H spawn replace_repo_id options s = (Resolved b, s') ->
  LegacySetup.isSetupComplete H s' = true /\
  needsSetup H (LegacySetup.world s') = false /\
  isSetupComplete H (LegacySetup.world s') = false.
Proof.
  intros Hjson E. unfold LegacySetup.runSetup in E.
  apply eff_try_catch_resolved_inv in E as [E | (e & s1 & _ & E)].
  2: { unfold bind in E. rewrite legacy_sendProgress_runs in E. discriminate. }
  unfold LegacySetup.runSetup_body in E.
  apply eff_bind_resolved_inv in E as ([] & s1 & _ & E).
  apply eff_bind_resolved_inv in E as ([] & s2 & _ & E).
  apply eff_bind_resolved_inv in E as ([] & s3 & _ & E).
  apply eff_bind_resolved_inv in E as ([] & s4 & E4 & E).
  apply eff_bind_resolved_inv in E as ([] & s5 & E5 & E).
  inversion E; subst b s'; clear E.
  rewrite legacy_sendProgress_runs in E5.
  assert (H5 : LegacySetup.world s5 = LegacySetup.world s4)
    by (inversion E5; apply report_world).
  unfold LegacySetup.writeFileSync in E4.
  destruct (LegacySetup.write_error s3 (setupFlagPath H)); [discriminate |].
  rewrite lift_runs in E4.
  assert (H4 : fs (LegacySetup.world s4) !! setupFlagPath H
               = Some (JSON_stringify H (LegacySetup.marker_object H options)))
    by (inversion E4; simpl; apply lookup_insert_eq).
  assert (Hmarker : fs (LegacySetup.world s5) !! setupFlagPath H
                    = Some (JSON_stringify H (LegacySetup.marker_object H options)))
    by (rewrite H5; exact H4).
  split; [| split].
  - unfold LegacySetup.isSetupComplete, existsSync. now rewrite Hmarker.
  - unfold needsSetup, existsSync. fold (dataDir H). fold (setupFlagPath H).
    now rewrite Hmarker.
  - unfold isSetupComplete. rewrite Hmarker, Hjson.
    unfold LegacySetup.marker_object. destruct (LegacySetup.model options); reflexivity.
Qed.

(** A run with a Python on disk, on a host that reads the marker back. *)
Lemma legacy_marker_is_not_current_witness :
  LegacySetup.isSetupComplete host_reading_legacy_marker
    (snd (LegacySetup.runSetup host_reading_legacy_marker spawn_fails no_replace
            legacy_options (legacy_state world_with_venv))) = true /\
  needsSetup host_reading_legacy_marker
    (LegacySetup.world
       (snd (LegacySetup.runSetup host_reading_legacy_marker spawn_fails no_replace
               legacy_options (legacy_state world_with_venv)))) = false /\
  isSetupComplete host_reading_legacy_marker
    (LegacySetup.world
       (snd (LegacySetup.runSetup host_reading_legacy_marker spawn_fails no_replace
               legacy_options (legacy_state world_with_venv)))) = false.
Proof.
  apply (legacy_marker_is_not_current host_reading_legacy_marker spawn_fails no_replace
           legacy_options (legacy_state world_with_venv) true).
  - vm_compute; reflexivity.
  - vm_compute; reflexivity.
Defined.

(** ** A run that fails before the marker *)


